(** * Baton Rouge housing / social-isolation pipeline: indicator derivation,
      reshaping, paging, aggregation, risk scoring and orchestration.

    A shallow embedding of the Python sources under [Scripts/]:
    - [baton_rouge_acs_housing.py]  ([transform_to_wide_format],
      [calculate_derived_indicators]),
    - [social_isolation_analyzer.py] ([calculate_housing_quality_indicators],
      [develop_isolation_risk_model]),
    - [baton_rouge_data_pulls.py] ([collect_api_data], [create_summary_tables]),
    - [baton_rouge_social_isolation_framework.py] ([run_comprehensive_analysis]).

    Part I holds the model, one module per component, followed by the
    vocabulary of the statements and the tables of the scenarios.  Part II
    holds the properties: general facts first, then, per component, the
    properties C1 to C10 of the specification.  Each of them fails at a
    concrete input, which is given first; the form in which the code
    satisfies it is then proved.  For C4 the failing input is an effect of
    rounding, and the code is evaluated there in binary64.  Part III holds
    further properties, numbered from X1, of the same code and of the
    functions around it: the ACS table collectors, the municipal data
    cleaning, the social isolation indicators and the ACS strand of the
    analyzer's run.

    Numbers.  A pandas float cell is modelled as an exact rational extended
    with the three IEEE special values the code tests for: [NaN], [+inf] and
    [-inf].  Division by zero follows IEEE ([x/0 = ±inf], [0/0 = NaN]);
    rounding, overflow and the sign of zero are not modelled.  Results of
    arithmetic are kept reduced ([Qred]).  Where rounding decides what
    the code does, in the z-score step of the risk scorer, that step is
    also given on binary64 values (module [Binary64]).

    Tables.  A DataFrame is an ordered list of named columns.  Assigning an
    existing column replaces it where it stands, assigning a new one appends
    it.  [df[c]] on an absent column is pandas' [KeyError]; where the source
    can reach one, the model returns an [option].

    External libraries (pandas, numpy, requests, geopandas) are modelled by
    what the code relies on and no further; the HTTP endpoint, the square
    root and the collaborators of the orchestrator are parameters. *)

From Stdlib Require Import List String Ascii Bool Arith Lia ZArith QArith Qreduction Lqa.
From Stdlib Require Import Permutation Sorting.Mergesort Orders.
From Stdlib Require PrimFloat.
Import ListNotations.
Close Scope Q_scope.


(* ================================================================== *)
(** * Part I. Definitions                                              *)
(* ================================================================== *)

(** ** Extended numbers *)

Module XNum.

Inductive xnum : Type :=
| Fin (q : Q)
| NaN
| PInf
| NInf.

Definition Qltb (x y : Q) : bool := negb (Qle_bool y x).

Definition zero : xnum := Fin 0.
Definition hundred : xnum := Fin 100.

(** [Series.notna] *)
Definition notna (a : xnum) : bool :=
  match a with NaN => false | _ => true end.

Definition is_finite (a : xnum) : bool :=
  match a with Fin _ => true | _ => false end.

(** [a > 0] on a float; any comparison with NaN is False. *)
Definition gt0 (a : xnum) : bool :=
  match a with
  | Fin q => Qltb 0 q
  | PInf => true
  | NaN | NInf => false
  end.

Definition xneg (a : xnum) : xnum :=
  match a with
  | Fin q => Fin (Qred (- q))
  | NaN => NaN
  | PInf => NInf
  | NInf => PInf
  end.

Definition xadd (a b : xnum) : xnum :=
  match a, b with
  | NaN, _ | _, NaN => NaN
  | Fin x, Fin y => Fin (Qred (x + y))
  | PInf, NInf | NInf, PInf => NaN
  | PInf, _ | _, PInf => PInf
  | NInf, _ | _, NInf => NInf
  end.

Definition xsub (a b : xnum) : xnum := xadd a (xneg b).

(** sign of a rational as an infinity, used for [inf * q] and [q / 0] *)
Definition signed_inf (pos : bool) : xnum := if pos then PInf else NInf.

Definition xmul (a b : xnum) : xnum :=
  match a, b with
  | NaN, _ | _, NaN => NaN
  | Fin x, Fin y => Fin (Qred (x * y))
  | Fin x, PInf | PInf, Fin x =>
      if Qeq_bool x 0 then NaN else signed_inf (Qltb 0 x)
  | Fin x, NInf | NInf, Fin x =>
      if Qeq_bool x 0 then NaN else signed_inf (Qltb x 0)
  | PInf, PInf | NInf, NInf => PInf
  | PInf, NInf | NInf, PInf => NInf
  end.

Definition xdiv (a b : xnum) : xnum :=
  match a, b with
  | NaN, _ | _, NaN => NaN
  | Fin x, Fin y =>
      if Qeq_bool y 0
      then (if Qeq_bool x 0 then NaN else signed_inf (Qltb 0 x))
      else Fin (Qred (x / y))
  | Fin _, PInf | Fin _, NInf => Fin 0
  | PInf, Fin y => signed_inf (Qle_bool 0 y)
  | NInf, Fin y => signed_inf (negb (Qle_bool 0 y))
  | PInf, PInf | PInf, NInf | NInf, PInf | NInf, NInf => NaN
  end.

(** [Series.fillna(0)] on one cell *)
Definition fillna0 (a : xnum) : xnum :=
  match a with NaN => zero | _ => a end.

(** [replace([np.inf, -np.inf, np.nan], 0)] on one cell *)
Definition replace_special (a : xnum) : xnum :=
  match a with Fin q => Fin q | _ => zero end.

(** Value-level reading of a finite cell *)
Definition value_is (a : xnum) (q : Q) : Prop :=
  match a with Fin x => (x == q)%Q | _ => False end.

End XNum.
Export XNum.

(** ** Data frames: ordered, named columns of cells *)

Module Frame.

Definition series := list xnum.

(** A table is an ordered list of named columns; a [frame] holds float
    columns. *)
Definition table (V : Type) := list (string * V).
Definition frame := table series.

Open Scope string_scope.

Fixpoint zip_with {A B C} (f : A -> B -> C) (l : list A) (m : list B) : list C :=
  match l, m with
  | a :: l', b :: m' => f a b :: zip_with f l' m'
  | _, _ => []
  end.

(** [df.columns] *)
Definition columns {V} (df : table V) : list string := map fst df.

(** [df[c]]; [None] stands for pandas' [KeyError] *)
Fixpoint get_col {V} (c : string) (df : table V) : option V :=
  match df with
  | [] => None
  | (n, v) :: rest => if String.eqb c n then Some v else get_col c rest
  end.

(** [c in df.columns] *)
Definition has_col {V} (c : string) (df : table V) : bool :=
  match get_col c df with Some _ => true | None => false end.

(** [df[c] = v]: an existing column is overwritten where it stands, a new
    one is appended on the right. *)
Fixpoint set_col {V} (c : string) (v : V) (df : table V) : table V :=
  match df with
  | [] => [(c, v)]
  | (n, w) :: rest =>
      if String.eqb c n then (n, v) :: rest else (n, w) :: set_col c v rest
  end.

(** [len(df)]: all columns of a DataFrame have the same length, read off
    the first one. *)
Definition nrows (df : frame) : nat :=
  match df with
  | [] => 0
  | (_, v) :: _ => List.length v
  end.

(** [df.empty] *)
Definition is_empty (df : frame) : bool :=
  match df with
  | [] => true
  | _ => Nat.eqb (nrows df) 0
  end.

(** [df[cols].sum(axis=1)]: row-wise sum, NaN cells skipped. *)
Definition sum_axis1 (cs : list series) : series :=
  match cs with
  | [] => []
  | c :: rest => fold_left (zip_with xadd) (map (map fillna0) rest) (map fillna0 c)
  end.

(** [df.replace([np.inf, -np.inf, np.nan], 0)] *)
Definition replace_inf_nan (df : frame) : frame :=
  map (fun '(n, v) => (n, map replace_special v)) df.

Definition all_finite (df : frame) : Prop :=
  Forall (fun '(_, v) => Forall (fun a => is_finite a = true) v) df.

(** gather [df[c]] for every [c] of a list, failing on the first absent one *)
Fixpoint get_cols (cs : list string) (df : frame) : option (list series) :=
  match cs with
  | [] => Some []
  | c :: rest =>
      match get_col c df, get_cols rest df with
      | Some v, Some vs => Some (v :: vs)
      | _, _ => None
      end
  end.

End Frame.
Export Frame.

(** ** Derived Indicator Calculator
       ([BatonRougeACSCollector.calculate_derived_indicators]) *)

Module Derived.

Open Scope string_scope.

(** [safe_divide(numerator, denominator, default=0)]:
    [np.where((denominator > 0) & numerator.notna() & denominator.notna(),
              numerator / denominator * 100, default)] *)
Definition safe_divide_cell (default n d : xnum) : xnum :=
  if gt0 d && notna n && notna d then xmul (xdiv n d) hundred else default.

Definition safe_divide (numerator denominator : series) : series :=
  zip_with (safe_divide_cell zero) numerator denominator.

(** The right-hand sides the function uses.  An operand is what is passed
    to [safe_divide] as numerator or assigned directly. *)
Inductive operand : Type :=
| Col (c : string)                  (* df[c] *)
| SumCols (cs : list string)        (* df[cs].sum(axis=1) *)
| AddCols (a b : string).           (* df[a] + df[b] *)

Inductive expr : Type :=
| Val (o : operand)                 (* df[out] = o *)
| Pct (num : operand) (den : string). (* df[out] = safe_divide(num, df[den]) *)

(** One statement in the body of an [if all(col in df.columns ...)] block:
    a plain assignment, or an assignment under a further
    [if c in df.columns:]. *)
Inductive action : Type :=
| Assign (out : string) (e : expr)
| AssignIf (c : string) (out : string) (e : expr).

Record block : Type := Block {
  requires : list string;
  actions : list action
}.

Definition eval_operand (df : frame) (o : operand) : option series :=
  match o with
  | Col c => get_col c df
  | SumCols cs => option_map sum_axis1 (get_cols cs df)
  | AddCols a b =>
      match get_col a df, get_col b df with
      | Some va, Some vb => Some (zip_with xadd va vb)
      | _, _ => None
      end
  end.

Definition eval (df : frame) (e : expr) : option series :=
  match e with
  | Val o => eval_operand df o
  | Pct num den =>
      match eval_operand df num, get_col den df with
      | Some n, Some d => Some (safe_divide n d)
      | _, _ => None
      end
  end.

Definition assign (out : string) (e : expr) (df : frame) : option frame :=
  option_map (fun v => set_col out v df) (eval df e).

Definition exec_action (df : frame) (a : action) : option frame :=
  match a with
  | Assign out e => assign out e df
  | AssignIf c out e => if has_col c df then assign out e df else Some df
  end.

Fixpoint exec_actions (acts : list action) (df : frame) : option frame :=
  match acts with
  | [] => Some df
  | a :: rest =>
      match exec_action df a with
      | Some df' => exec_actions rest df'
      | None => None
      end
  end.

(** [if all(col in df.columns for col in requires): actions] *)
Definition exec_block (df : frame) (b : block) : option frame :=
  if forallb (fun c => has_col c df) (requires b)
  then exec_actions (actions b) df
  else Some df.

Fixpoint exec_blocks (bs : list block) (df : frame) : option frame :=
  match bs with
  | [] => Some df
  | b :: rest =>
      match exec_block df b with
      | Some df' => exec_blocks rest df'
      | None => None
      end
  end.

(** Column groups named in the source. *)
Definition income_cols :=
  ["Income_Under_10K"; "Income_10K_15K"; "Income_15K_20K";
   "Income_20K_25K"; "Income_25K_30K"; "Income_30K_35K"].
Definition middle_income_cols :=
  ["Income_35K_40K"; "Income_40K_45K"; "Income_45K_50K";
   "Income_50K_60K"; "Income_60K_75K"; "Income_75K_100K"].
Definition high_income_cols :=
  ["Income_100K_125K"; "Income_125K_150K"; "Income_150K_200K"; "Income_200K_Plus"].
Definition child_poverty_cols :=
  ["Below_Poverty_Male_Under_5"; "Below_Poverty_Male_6_11"; "Below_Poverty_Male_12_14";
   "Below_Poverty_Male_15"; "Below_Poverty_Male_16_17"; "Below_Poverty_Female_Under_5";
   "Below_Poverty_Female_6_11"; "Below_Poverty_Female_12_14"; "Below_Poverty_Female_15";
   "Below_Poverty_Female_16_17"].
Definition multi_family_cols :=
  ["Units_2"; "Units_3_4"; "Units_5_9"; "Units_10_19"; "Units_20_49"; "Units_50_Plus"].
Definition new_housing_cols :=
  ["Built_2020_Later"; "Built_2010_2019"; "Built_2000_2009"].
Definition old_housing_cols :=
  ["Built_1970_1979"; "Built_1960_1969"; "Built_1950_1959"; "Built_1940_1949";
   "Built_1939_Earlier"].
Definition bedroom_cols :=
  ["Two_Bedrooms"; "Three_Bedrooms"; "Four_Bedrooms"; "Five_Plus_Bedrooms"].
Definition rent_burden_cols :=
  ["Rent_Burden_30_34_Pct"; "Rent_Burden_35_39_Pct"; "Rent_Burden_40_49_Pct";
   "Rent_Burden_50_Plus_Pct"].

(** The [if] blocks of [calculate_derived_indicators], in source order. *)
Definition indicator_blocks : list block :=
  [ (* Population percentages *)
    Block ["White_Alone"; "Black_Alone"; "Asian_Alone"; "Hispanic_Latino"; "Total_Population"]
      [ Assign "Percent_White" (Pct (Col "White_Alone") "Total_Population");
        Assign "Percent_Black" (Pct (Col "Black_Alone") "Total_Population");
        Assign "Percent_Asian" (Pct (Col "Asian_Alone") "Total_Population");
        Assign "Percent_Hispanic" (Pct (Col "Hispanic_Latino") "Total_Population") ];
    (* Income analysis *)
    Block income_cols
      [ Assign "Low_Income_Under_35K" (Val (SumCols income_cols)) ];
    Block middle_income_cols
      [ Assign "Middle_Income_35K_100K" (Val (SumCols middle_income_cols)) ];
    Block high_income_cols
      [ Assign "High_Income_100K_Plus" (Val (SumCols high_income_cols)) ];
    Block ["Low_Income_Under_35K"; "High_Income_100K_Plus"; "Total_Households"]
      [ Assign "Percent_Low_Income_Under_35K"
          (Pct (Col "Low_Income_Under_35K") "Total_Households");
        Assign "Percent_High_Income_100K_Plus"
          (Pct (Col "High_Income_100K_Plus") "Total_Households") ];
    (* Poverty analysis *)
    Block ["Below_Poverty_Level"; "Total_Pop_Poverty_Status"]
      [ Assign "Percent_Below_Poverty"
          (Pct (Col "Below_Poverty_Level") "Total_Pop_Poverty_Status") ];
    Block ["Below_Poverty_Households"; "Total_Households_Poverty_Status"]
      [ Assign "Percent_Households_Below_Poverty"
          (Pct (Col "Below_Poverty_Households") "Total_Households_Poverty_Status") ];
    (* Children in poverty *)
    Block child_poverty_cols
      [ Assign "Children_Below_Poverty" (Val (SumCols child_poverty_cols));
        AssignIf "Total_Pop_Under_18" "Percent_Children_Below_Poverty"
          (Pct (Col "Children_Below_Poverty") "Total_Pop_Under_18") ];
    (* Household composition analysis *)
    Block ["Family_Households"; "Total_Households"]
      [ Assign "Percent_Family_Households"
          (Pct (Col "Family_Households") "Total_Households") ];
    Block ["Nonfamily_Living_Alone"; "Total_Households"]
      [ Assign "Percent_Single_Person_Households"
          (Pct (Col "Nonfamily_Living_Alone") "Total_Households") ];
    Block ["Households_With_Children_Under_18"; "Total_Households_Children_Status"]
      [ Assign "Percent_Households_With_Children"
          (Pct (Col "Households_With_Children_Under_18") "Total_Households_Children_Status") ];
    (* Children by family structure *)
    Block ["Children_In_Married_Couple_Families"; "Total_Own_Children_Under_18"]
      [ Assign "Percent_Children_Married_Couple"
          (Pct (Col "Children_In_Married_Couple_Families") "Total_Own_Children_Under_18") ];
    Block ["Children_In_Single_Mother_Families"; "Children_In_Single_Father_Families";
           "Total_Own_Children_Under_18"]
      [ Assign "Percent_Children_Single_Parent"
          (Pct (AddCols "Children_In_Single_Mother_Families"
                        "Children_In_Single_Father_Families")
               "Total_Own_Children_Under_18") ];
    (* Housing unit percentages *)
    Block ["Occupied_Units"; "Vacant_Units"; "Total_Housing_Units"]
      [ Assign "Percent_Occupied" (Pct (Col "Occupied_Units") "Total_Housing_Units");
        Assign "Percent_Vacant" (Pct (Col "Vacant_Units") "Total_Housing_Units") ];
    (* Tenure percentages *)
    Block ["Owner_Occupied"; "Renter_Occupied"; "Total_Occupied_Units"]
      [ Assign "Percent_Owner_Occupied" (Pct (Col "Owner_Occupied") "Total_Occupied_Units");
        Assign "Percent_Renter_Occupied" (Pct (Col "Renter_Occupied") "Total_Occupied_Units") ];
    (* Structure type percentages *)
    Block ["Single_Family_Detached"; "Single_Family_Attached"; "Total_Housing_Units"]
      [ Assign "Percent_Single_Family"
          (Pct (AddCols "Single_Family_Detached" "Single_Family_Attached")
               "Total_Housing_Units") ];
    Block (multi_family_cols ++ ["Total_Housing_Units"])%list
      [ Assign "Multi_Family_All_Units" (Val (SumCols multi_family_cols));
        Assign "Percent_Multi_Family_All"
          (Pct (Col "Multi_Family_All_Units") "Total_Housing_Units") ];
    (* Age of housing percentages *)
    Block (new_housing_cols ++ ["Total_Housing_Units"])%list
      [ Assign "Percent_Built_2000_Plus"
          (Pct (SumCols new_housing_cols) "Total_Housing_Units") ];
    Block (old_housing_cols ++ ["Total_Housing_Units"])%list
      [ Assign "Percent_Built_Pre_1980"
          (Pct (SumCols old_housing_cols) "Total_Housing_Units") ];
    (* Bedroom distribution percentages *)
    Block (bedroom_cols ++ ["Total_Housing_Units"])%list
      [ Assign "Two_Plus_Bedroom_Units" (Val (SumCols bedroom_cols));
        Assign "Percent_Two_Plus_Bedrooms"
          (Pct (Col "Two_Plus_Bedroom_Units") "Total_Housing_Units") ];
    (* Cost burden indicators *)
    Block (rent_burden_cols ++ ["Renter_Occupied"])%list
      [ Assign "High_Rent_Burden_30_Plus_Units" (Val (SumCols rent_burden_cols));
        Assign "High_Rent_Burden_50_Plus_Units" (Val (Col "Rent_Burden_50_Plus_Pct"));
        Assign "Percent_High_Rent_Burden_30_Plus"
          (Pct (Col "High_Rent_Burden_30_Plus_Units") "Renter_Occupied");
        Assign "Percent_High_Rent_Burden_50_Plus"
          (Pct (Col "High_Rent_Burden_50_Plus_Units") "Renter_Occupied") ]
  ].

(** The table after the last [if] block, before the closing [replace]. *)
Definition derive (wide_data : frame) : option frame :=
  exec_blocks indicator_blocks wide_data.

(** [calculate_derived_indicators]: [None] would be an uncaught [KeyError]. *)
Definition calculate_derived_indicators (wide_data : frame) : option frame :=
  option_map replace_inf_nan (derive wide_data).

(** *** Guarded assignments: the same program, one guard list per write *)

Record gassign : Type := GAssign {
  guards : list string;
  target : string;
  rhs : expr
}.

Definition flatten_action (req : list string) (a : action) : gassign :=
  match a with
  | Assign out e => GAssign req out e
  | AssignIf c out e => GAssign (req ++ [c])%list out e
  end.

Definition flatten_block (b : block) : list gassign :=
  map (flatten_action (requires b)) (actions b).

Definition flatten (bs : list block) : list gassign :=
  flat_map flatten_block bs.

Definition run_g (df : frame) (g : gassign) : option frame :=
  if forallb (fun c => has_col c df) (guards g)
  then assign (target g) (rhs g) df
  else Some df.

Fixpoint run_gs (gs : list gassign) (df : frame) : option frame :=
  match gs with
  | [] => Some df
  | g :: rest =>
      match run_g df g with
      | Some df' => run_gs rest df'
      | None => None
      end
  end.

(** Columns an expression reads *)
Definition operand_reads (o : operand) : list string :=
  match o with
  | Col c => [c]
  | SumCols cs => cs
  | AddCols a b => [a; b]
  end.

Definition reads (e : expr) : list string :=
  match e with
  | Val o => operand_reads o
  | Pct num den => (operand_reads num ++ [den])%list
  end.

Definition mem (c : string) (l : list string) : bool :=
  existsb (String.eqb c) l.

Definition disjointb (l m : list string) : bool :=
  forallb (fun c => negb (mem c m)) l.

(** Static shape of the program: no guard or read names a column written
    at the same place or later, and every column is written at most once. *)
Fixpoint ordered (gs : list gassign) : bool :=
  match gs with
  | [] => true
  | g :: rest =>
      let later := target g :: map target rest in
      disjointb (guards g) later && disjointb (reads (rhs g)) later
      && negb (mem (target g) (map target rest))
      && ordered rest
  end.

(** Every column an action reads is required by its block, tested by its own
    [if], or written earlier in the same block. *)
Fixpoint actions_closed (known : list string) (acts : list action) : bool :=
  match acts with
  | [] => true
  | Assign out e :: rest =>
      forallb (fun c => mem c known) (reads e) && actions_closed (out :: known) rest
  | AssignIf c out e :: rest =>
      forallb (fun x => mem x (c :: known)) (reads e) && actions_closed known rest
  end.

Definition block_closed (b : block) : bool :=
  actions_closed (requires b) (actions b).

(** Names the calculator may write *)
Definition derived_names : list string := map target (flatten indicator_blocks).

(** The percentage indicators: target, numerator operand, denominator column,
    guard list. *)
Definition percentage_indicators : list (string * operand * string * list string) :=
  flat_map (fun g => match rhs g with
                     | Pct num den => [(target g, num, den, guards g)]
                     | Val _ => []
                     end) (flatten indicator_blocks).

End Derived.
Export Derived.

(** ** Social isolation analyzer ([SocialIsolationAnalyzer]) *)

Module Analyzer.

Open Scope string_scope.

(** [sub in s] on Python strings *)
Fixpoint contains (sub s : string) : bool :=
  String.prefix sub s ||
  match s with
  | EmptyString => false
  | String _ s' => contains sub s'
  end.

(** [df[cols]] for names taken from [df.columns] *)
Definition select (cs : list string) (df : frame) : list series :=
  flat_map (fun c => match get_col c df with Some v => [v] | None => [] end) cs.

(** [num / df.get(c, 1) * 100] *)
Definition rate_over_get (c : string) (df : frame) (num : series) : series :=
  match get_col c df with
  | Some d => zip_with (fun n x => xmul (xdiv n x) hundred) num d
  | None => map (fun n => xmul (xdiv n (Fin 1)) hundred) num
  end.

Definition housing_vacancy_rate (df : frame) : frame :=
  match get_col "Total_Housing_Units" df, get_col "Occupied_Units" df with
  | Some t, Some o =>
      set_col "Housing_Vacancy_Rate"
        (map fillna0
           (zip_with (fun n d => xmul (xdiv n d) hundred) (zip_with xsub t o) t)) df
  | _, _ => df
  end.

Definition high_housing_cost_burden_rate (df : frame) : frame :=
  match filter (contains "Cost_Burden") (columns df) with
  | [] => df
  | cost_burden_cols =>
      set_col "High_Housing_Cost_Burden_Rate"
        (rate_over_get "Total_Households" df (sum_axis1 (select cost_burden_cols df))) df
  end.

Definition old_housing_rate (df : frame) : frame :=
  match filter (fun col => existsb (fun decade => contains decade col)
                             ["1939"; "1940_1949"; "1950_1959"]) (columns df) with
  | [] => df
  | old_housing_cols =>
      set_col "Old_Housing_Rate"
        (rate_over_get "Total_Housing_Units" df (sum_axis1 (select old_housing_cols df))) df
  end.

Definition mobile_home_rate (df : frame) : frame :=
  match get_col "Mobile_Home" df with
  | Some m => set_col "Mobile_Home_Rate" (rate_over_get "Total_Housing_Units" df m) df
  | None => df
  end.

Definition renter_rate (df : frame) : frame :=
  match get_col "Renter_Occupied" df, get_col "Occupied_Units" df with
  | Some r, Some o =>
      set_col "Renter_Rate" (zip_with (fun n d => xmul (xdiv n d) hundred) r o) df
  | _, _ => df
  end.

Definition overcrowding_rate (df : frame) : frame :=
  match filter (contains "More_Than_1_Person_Per_Room") (columns df) with
  | [] => df
  | overcrowding_cols =>
      set_col "Overcrowding_Rate"
        (rate_over_get "Occupied_Units" df (sum_axis1 (select overcrowding_cols df))) df
  end.

(** [calculate_housing_quality_indicators] *)
Definition calculate_housing_quality_indicators (acs_data : frame) : frame :=
  overcrowding_rate
    (renter_rate
       (mobile_home_rate
          (old_housing_rate
             (high_housing_cost_burden_rate
                (housing_vacancy_rate acs_data))))).

(** *** Risk scorer ([develop_isolation_risk_model]) *)

Inductive risk_label : Type := Low_Risk | Moderate_Risk | High_Risk.

(** Columns of the scored table: floats, or the categorical [pd.cut] makes. *)
Inductive column : Type :=
| Numeric (v : series)
| Categorical (labels : list (option risk_label)).

Definition lift (df : frame) : table column :=
  map (fun '(n, v) => (n, Numeric v)) df.

Definition dropna (v : series) : series := filter notna v.

Definition xsum (v : series) : xnum := fold_left xadd v zero.

Definition of_nat (n : nat) : xnum := Fin (inject_Z (Z.of_nat n)).

(** [Series.mean()]: NaN cells skipped, NaN when nothing is left. *)
Definition series_mean (v : series) : xnum :=
  match dropna v with
  | [] => NaN
  | w => xdiv (xsum w) (of_nat (List.length w))
  end.

(** Sample variance ([ddof=1]) of the non-NaN cells, NaN below two of them. *)
Definition series_var (v : series) : xnum :=
  let w := dropna v in
  if Nat.ltb (List.length w) 2 then NaN
  else
    let m := series_mean v in
    xdiv (xsum (map (fun x => xmul (xsub x m) (xsub x m)) w))
         (of_nat (List.length w - 1)).

(** [pd.cut(x, bins=[-inf, -0.5, 0.5, inf], labels=[...])], right-closed bins *)
Definition cut (x : xnum) : option risk_label :=
  match x with
  | Fin q =>
      if Qle_bool q (-(1#2)) then Some Low_Risk
      else if Qle_bool q (1#2) then Some Moderate_Risk
      else Some High_Risk
  | PInf => Some High_Risk
  | NInf | NaN => None
  end.

(** [df[cols].mean(axis=1)] over [n] rows *)
Definition mean_axis1 (n : nat) (cs : list series) : series :=
  map (fun i => series_mean (map (fun c => nth i c NaN) cs)) (seq 0 n).

Definition housing_risk_factors :=
  ["Housing_Cost_Burden_Rate"; "Old_Housing_Rate"; "Overcrowding_Rate";
   "Mobile_Home_Rate"; "Housing_Vacancy_Rate"].
Definition demographic_risk_factors :=
  ["Elderly_Living_Alone_Rate"; "Single_Person_Household_Rate";
   "Language_Isolation_Rate"; "Disability_Rate"; "No_Vehicle_Rate"].
Definition economic_risk_factors :=
  ["Poverty_Rate"; "Unemployment_Rate"; "No_Internet_Rate"].

Definition risk_groups : list (string * list string) :=
  [("Housing_Risk", housing_risk_factors);
   ("Demographic_Risk", demographic_risk_factors);
   ("Economic_Risk", economic_risk_factors)].

Definition risk_components : list string :=
  ["Housing_Risk"; "Demographic_Risk"; "Economic_Risk"].

Definition std_name (factor : string) : string := factor ++ "_std".

(** The cut-points are constants of the source; the square root is numpy's
    and is taken as a parameter of the model. *)
Section Scorer.

Variable sqrtQ : Q -> Q.

Definition xsqrt (a : xnum) : xnum :=
  match a with
  | Fin q => if Qltb q 0 then NaN else Fin (Qred (sqrtQ q))
  | PInf => PInf
  | NInf | NaN => NaN
  end.

(** [Series.std()] *)
Definition series_std (v : series) : xnum := xsqrt (series_var v).

(** The body of [for factor in available_factors]. The factor is present:
    it was taken from [df.columns] and no column is ever removed.  The cells
    are exact here, which settles the columns written and their lengths;
    the value of a z-score, and the branch taken on a column without
    spread, depend on rounding and are given by
    [Binary64.standardize_column]. *)
Definition standardize (df : frame) (factor : string) : frame :=
  match get_col factor df with
  | Some v =>
      let mean_val := series_mean v in
      let std_val := series_std v in
      if gt0 std_val
      then set_col (std_name factor)
             (map (fun x => xdiv (xsub x mean_val) std_val) v) df
      else set_col (std_name factor) (repeat zero (nrows df)) df
  | None => df
  end.

(** The body of [for factor_group, factors in ...] *)
Definition score_group (df : frame) (group : string * list string) : frame :=
  let '(factor_group, factors) := group in
  match filter (fun f => has_col f df) factors with
  | [] => df
  | available_factors =>
      let df1 := fold_left standardize available_factors df in
      let std_factors := map std_name available_factors in
      set_col factor_group (mean_axis1 (nrows df1) (select std_factors df1)) df1
  end.

Definition develop_isolation_risk_model (combined_data : frame) : table column :=
  if is_empty combined_data then lift combined_data
  else
    let df := fold_left score_group risk_groups combined_data in
    match filter (fun c => has_col c df) risk_components with
    | [] => lift df
    | available_components =>
        let index := mean_axis1 (nrows df) (select available_components df) in
        set_col "Risk_Category" (Categorical (map cut index))
          (lift (set_col "Social_Isolation_Risk_Index" index df))
    end.

End Scorer.

(** A concrete square root (to six decimal places) for running the model. *)
Definition approx_sqrt (q : Q) : Q :=
  Qmake (Z.sqrt (Qnum q * Zpos (Qden q) * 10 ^ 12)) (Qden q * 1000000).

End Analyzer.
Export Analyzer.

(** *** Vocabulary for statements about the risk scorer *)

Module ScorerSpec.

Open Scope string_scope.

Definition all_risk_factors : list string :=
  flat_map snd risk_groups.

(** Names one category may assign: a helper column per listed factor, then
    the category score. *)
Definition full_group_columns (group : string * list string) : list string :=
  (map std_name (snd group) ++ [fst group])%list.

(** Every column name the scorer may assign, in assignment order *)
Definition written_names : list string :=
  (flat_map full_group_columns risk_groups
   ++ ["Social_Isolation_Risk_Index"; "Risk_Category"])%list.

Fixpoint nodupb (l : list string) : bool :=
  match l with
  | [] => true
  | c :: rest => negb (existsb (String.eqb c) rest) && nodupb rest
  end.

(** All columns of a DataFrame have the same number of rows. *)
Definition rectangular (df : frame) : Prop :=
  forall c v, In (c, v) df -> List.length v = nrows df.

(** Columns appended for one category: the helper columns of the factors
    present, then the category score. *)
Definition group_columns (df : frame) (group : string * list string) : list string :=
  match filter (fun f => has_col f df) (snd group) with
  | [] => []
  | available => (map std_name available ++ [fst group])%list
  end.

Definition appended_columns (df : frame) : list string :=
  match flat_map (group_columns df) risk_groups with
  | [] => []
  | cols => (cols ++ ["Social_Isolation_Risk_Index"; "Risk_Category"])%list
  end.

End ScorerSpec.
Export ScorerSpec.

(** ** Long-to-wide Reshaper ([BatonRougeACSCollector.transform_to_wide_format]) *)

Module Reshaper.

Open Scope string_scope.

(** [create_variable_mapping]: ACS variable code to friendly name *)
Definition base_mapping : list (string * string) :=
  [
   ("B01003_001", "Total_Population");
   ("B02001_002", "White_Alone");
   ("B02001_003", "Black_Alone");
   ("B02001_005", "Asian_Alone");
   ("B03003_003", "Hispanic_Latino");
   ("B19013_001", "Median_Household_Income");
   ("B19001_002", "Income_Under_10K");
   ("B19001_003", "Income_10K_15K");
   ("B19001_004", "Income_15K_20K");
   ("B19001_005", "Income_20K_25K");
   ("B19001_006", "Income_25K_30K");
   ("B19001_007", "Income_30K_35K");
   ("B19001_008", "Income_35K_40K");
   ("B19001_009", "Income_40K_45K");
   ("B19001_010", "Income_45K_50K");
   ("B19001_011", "Income_50K_60K");
   ("B19001_012", "Income_60K_75K");
   ("B19001_013", "Income_75K_100K");
   ("B19001_014", "Income_100K_125K");
   ("B19001_015", "Income_125K_150K");
   ("B19001_016", "Income_150K_200K");
   ("B19001_017", "Income_200K_Plus");
   ("B19101_001", "Total_Families");
   ("B19101_017", "Family_Income_200K_Plus");
   ("B17001_001", "Total_Pop_Poverty_Status");
   ("B17001_002", "Below_Poverty_Level");
   ("B17001_003", "Below_Poverty_Male_Total");
   ("B17001_004", "Below_Poverty_Male_Under_5");
   ("B17001_005", "Below_Poverty_Male_5");
   ("B17001_006", "Below_Poverty_Male_6_11");
   ("B17001_007", "Below_Poverty_Male_12_14");
   ("B17001_008", "Below_Poverty_Male_15");
   ("B17001_009", "Below_Poverty_Male_16_17");
   ("B17001_017", "Below_Poverty_Female_Total");
   ("B17001_018", "Below_Poverty_Female_Under_5");
   ("B17001_019", "Below_Poverty_Female_5");
   ("B17001_020", "Below_Poverty_Female_6_11");
   ("B17001_021", "Below_Poverty_Female_12_14");
   ("B17001_022", "Below_Poverty_Female_15");
   ("B17001_023", "Below_Poverty_Female_16_17");
   ("B17001_031", "Above_Poverty_Level");
   ("B17017_001", "Total_Households_Poverty_Status");
   ("B17017_002", "Below_Poverty_Households");
   ("B17017_010", "Above_Poverty_Households");
   ("B25119_001", "Median_Household_Income_All_Tenure");
   ("B25119_002", "Median_Income_Owner_Occupied");
   ("B25119_003", "Median_Income_Renter_Occupied");
   ("B11001_001", "Total_Households");
   ("B11001_002", "Family_Households");
   ("B11001_003", "Family_Married_Couple");
   ("B11001_004", "Family_Male_No_Wife");
   ("B11001_005", "Family_Female_No_Husband");
   ("B11001_007", "Nonfamily_Households");
   ("B11001_008", "Nonfamily_Living_Alone");
   ("B11001_009", "Nonfamily_Not_Alone");
   ("B11005_001", "Total_Households_Children_Status");
   ("B11005_002", "Households_With_Children_Under_18");
   ("B11005_011", "Households_No_Children_Under_18");
   ("B09002_001", "Total_Own_Children_Under_18");
   ("B09002_002", "Children_In_Married_Couple_Families");
   ("B09002_009", "Children_In_Single_Father_Families");
   ("B09002_015", "Children_In_Single_Mother_Families");
   ("B09001_001", "Total_Pop_Under_18");
   ("B09001_002", "Pop_Under_3");
   ("B09001_003", "Pop_3_4");
   ("B09001_004", "Pop_5");
   ("B09001_005", "Pop_6_11");
   ("B09001_006", "Pop_12_14");
   ("B09001_007", "Pop_15_17");
   ("B25115_001", "Total_Occupied_Units_Size");
   ("B25115_002", "Owner_1_Person");
   ("B25115_003", "Owner_2_Person");
   ("B25115_004", "Owner_3_Person");
   ("B25115_005", "Owner_4_Person");
   ("B25115_006", "Owner_5_Person");
   ("B25115_007", "Owner_6_Person");
   ("B25115_008", "Owner_7_Plus_Person");
   ("B25115_010", "Renter_1_Person");
   ("B25115_011", "Renter_2_Person");
   ("B25115_012", "Renter_3_Person");
   ("B25115_013", "Renter_4_Person");
   ("B25115_014", "Renter_5_Person");
   ("B25115_015", "Renter_6_Person");
   ("B25115_016", "Renter_7_Plus_Person");
   ("B25001_001", "Total_Housing_Units");
   ("B25002_001", "Total_Housing_Units_Check");
   ("B25002_002", "Occupied_Units");
   ("B25002_003", "Vacant_Units");
   ("B25003_001", "Total_Occupied_Units");
   ("B25003_002", "Owner_Occupied");
   ("B25003_003", "Renter_Occupied");
   ("B25077_001", "Median_Home_Value");
   ("B25064_001", "Median_Gross_Rent");
   ("B25024_002", "Single_Family_Detached");
   ("B25024_003", "Single_Family_Attached");
   ("B25024_004", "Units_2");
   ("B25024_005", "Units_3_4");
   ("B25024_006", "Units_5_9");
   ("B25024_007", "Units_10_19");
   ("B25024_008", "Units_20_49");
   ("B25024_009", "Units_50_Plus");
   ("B25024_010", "Mobile_Home");
   ("B25024_011", "Other_Housing_Type");
   ("B25034_002", "Built_2020_Later");
   ("B25034_003", "Built_2010_2019");
   ("B25034_004", "Built_2000_2009");
   ("B25034_005", "Built_1990_1999");
   ("B25034_006", "Built_1980_1989");
   ("B25034_007", "Built_1970_1979");
   ("B25034_008", "Built_1960_1969");
   ("B25034_009", "Built_1950_1959");
   ("B25034_010", "Built_1940_1949");
   ("B25034_011", "Built_1939_Earlier");
   ("B25041_002", "No_Bedroom");
   ("B25041_003", "One_Bedroom");
   ("B25041_004", "Two_Bedrooms");
   ("B25041_005", "Three_Bedrooms");
   ("B25041_006", "Four_Bedrooms");
   ("B25041_007", "Five_Plus_Bedrooms");
   ("B25053_002", "Owner_Costs_Under_300");
   ("B25053_003", "Owner_Costs_300_599");
   ("B25053_004", "Owner_Costs_600_999");
   ("B25053_005", "Owner_Costs_1000_1499");
   ("B25053_006", "Owner_Costs_1500_1999");
   ("B25053_007", "Owner_Costs_2000_2999");
   ("B25053_008", "Owner_Costs_3000_Plus");
   ("B25070_007", "Rent_Burden_30_34_Pct");
   ("B25070_008", "Rent_Burden_35_39_Pct");
   ("B25070_009", "Rent_Burden_40_49_Pct");
   ("B25070_010", "Rent_Burden_50_Plus_Pct");
   ("S2503_C01_001", "S2503_Total_Occupied_Units");
   ("S2503_C01_013", "S2503_Median_Household_Income");
   ("S2503_C01_014", "S2503_Housing_Costs_Under_300");
   ("S2503_C01_015", "S2503_Housing_Costs_300_499");
   ("S2503_C01_016", "S2503_Housing_Costs_500_799");
   ("S2503_C01_017", "S2503_Housing_Costs_800_999");
   ("S2503_C01_018", "S2503_Housing_Costs_1000_1499");
   ("S2503_C01_019", "S2503_Housing_Costs_1500_1999");
   ("S2503_C01_020", "S2503_Housing_Costs_2000_2499");
   ("S2503_C01_021", "S2503_Housing_Costs_2500_2999");
   ("S2503_C01_022", "S2503_Housing_Costs_3000_Plus");
   ("S2503_C01_024", "S2503_Median_Housing_Costs");
   ("S2503_C01_028", "S2503_Cost_Burden_30_Plus_Under_20K");
   ("S2503_C01_032", "S2503_Cost_Burden_30_Plus_20K_35K");
   ("S2503_C01_036", "S2503_Cost_Burden_30_Plus_35K_50K");
   ("S2503_C01_040", "S2503_Cost_Burden_30_Plus_50K_75K");
   ("S2503_C01_044", "S2503_Cost_Burden_30_Plus_75K_Plus");
   ("S2503_C03_001", "S2503_Total_Owner_Occupied");
   ("S2503_C03_024", "S2503_Median_Owner_Costs");
   ("S2503_C04_001", "S2503_Total_Renter_Occupied");
   ("S2503_C04_024", "S2503_Median_Renter_Costs")
  ].

(** A Python dict built by successive [d[k] = v]: the last assignment of a
    key is the one a lookup sees. *)
Definition dict_get {V} (k : string) (d : list (string * V)) : option V :=
  fold_left (fun acc '(k', v) => if String.eqb k k' then Some v else acc) d None.

(** [variable_mapping]: every code, with and without the ['E'] suffix of the
    Census API *)
Definition variable_mapping : list (string * string) :=
  flat_map (fun '(var_code, friendly_name) =>
              [(var_code, friendly_name); (var_code ++ "E", friendly_name)])
           base_mapping.

(** A cell of the [estimate] column as [pd.to_numeric(errors='coerce')] sees
    it: a value it reads as a number, or anything else. *)
Inductive raw : Type :=
| Number (x : xnum)
| Text (s : string).

Definition to_numeric (r : raw) : xnum :=
  match r with
  | Number x => x
  | Text _ => NaN
  end.

(** One row of the long table [df_long[['GEOID', 'NAME', 'variable', 'estimate']]] *)
Record long_row : Type := LongRow {
  GEOID : string;
  NAME : string;
  variable : string;
  estimate : raw
}.

(** A mapped row: the pivot index [(GEOID, NAME)], the friendly name and the
    numeric estimate. *)
Record mapped_row : Type := MappedRow {
  key : string * string;
  friendly_name : string;
  value : xnum
}.

(** [combined_data['variable'].map(variable_mapping)], rows without a
    friendly name filtered out, estimates coerced. *)
Definition map_rows (combined_data : list long_row) : list mapped_row :=
  flat_map (fun r => match dict_get (variable r) variable_mapping with
                     | Some name => [MappedRow (GEOID r, NAME r) name (to_numeric (estimate r))]
                     | None => []
                     end) combined_data.

Definition key_eqb (a b : string * string) : bool :=
  String.eqb (fst a) (fst b) && String.eqb (snd a) (snd b).

Definition key_dec (a b : string * string) : {a = b} + {a <> b}.
Proof. decide equality; apply string_dec. Defined.

(** Estimates of one pivot cell, in input order *)
Definition values_for (k : string * string) (name : string) (rows : list mapped_row)
  : series :=
  map value (filter (fun m => key_eqb (key m) k && String.eqb (friendly_name m) name) rows).

(** [aggfunc='first']: the first non-null entry of the group, NaN if none *)
Fixpoint first_notna (v : series) : xnum :=
  match v with
  | [] => NaN
  | x :: rest => if notna x then x else first_notna rest
  end.

(** Lexicographic order on the pivot index, code point by code point *)
Definition key_leb (a b : string * string) : bool :=
  match String.compare (fst a) (fst b) with
  | Lt => true
  | Eq => String.leb (snd a) (snd b)
  | Gt => false
  end.

Lemma key_leb_total : forall a b, key_leb a b = true \/ key_leb b a = true.
Proof.
  intros [a1 a2] [b1 b2]. unfold key_leb. simpl.
  rewrite (String.compare_antisym b1 a1).
  destruct (String.compare a1 b1); simpl; auto.
  apply String.leb_total.
Qed.

Module KeyOrder <: TotalLeBool.
Definition t : Type := (string * string)%type.
Definition leb : t -> t -> bool := key_leb.
Definition leb_total := key_leb_total.
End KeyOrder.

Module NameOrder <: TotalLeBool.
Definition t : Type := string.
Definition leb : t -> t -> bool := String.leb.
Definition leb_total := String.leb_total.
End NameOrder.

Module KeySort := Sort KeyOrder.
Module NameSort := Sort NameOrder.

(** The wide table after [reset_index()]: the [GEOID] and [NAME] columns are
    the pivot index, one pair per row; [data] holds the value columns. *)
Record wide_table : Type := WideTable {
  index : list (string * string);
  data : frame
}.

Definition GEOID_column (w : wide_table) : list string := map fst (index w).

Definition empty_table : wide_table := WideTable [] [].

(** [pivot_table(index=['GEOID','NAME'], columns='friendly_name',
    values='estimate', aggfunc='first')] followed by [reset_index()] and
    [fillna(0)].  pandas groups by (GEOID, NAME, friendly_name), takes the
    first non-null estimate of each group, drops the groups left null
    ([dropna=True]), and unstacks what remains with sorted rows and columns;
    cells without a group are null and are filled with 0. *)
Definition pivot (rows : list mapped_row) : wide_table :=
  let surviving :=
    filter (fun m => notna (first_notna (values_for (key m) (friendly_name m) rows))) rows in
  let idx := KeySort.sort (nodup key_dec (map key surviving)) in
  let cols := NameSort.sort (nodup string_dec (map friendly_name surviving)) in
  WideTable idx
    (map (fun c => (c, map (fun k => fillna0 (first_notna (values_for k c rows))) idx)) cols).

Definition transform_to_wide_format (combined_data : list long_row) : wide_table :=
  match combined_data with
  | [] => empty_table
  | _ =>
      match map_rows combined_data with
      | [] => empty_table
      | mapped_data => pivot mapped_data
      end
  end.

End Reshaper.
Export Reshaper.

(** ** Raw Tabular Fetcher ([BatonRougeDataCollector.collect_api_data]) *)

Module Fetcher.

Section Paging.

(** Rows of the remote table *)
Variable row : Type.

(** What one [requests.get] followed by [pd.read_csv] gives: a page of rows,
    or a [requests.RequestException] (transport error or HTTP error status).
    A body that [pd.read_csv] cannot parse is not modelled. *)
Inductive response : Type :=
| Page (data : list row)
| RequestException.

(** The remote endpoint, as seen by the loop: the answer to the [n]-th
    request made, for [$limit] and [$offset]. *)
Definition endpoint : Type := nat -> nat -> nat -> response.

(** One request as issued: [$limit], [$offset] and the answer *)
Record request : Type := Request {
  req_limit : nat;
  req_offset : nat;
  answer : response
}.

Record fetch_state : Type := FetchState {
  offset : nat;
  all_data : list (list row);
  total_rows : nat;
  log : list request
}.

Variable max_rows : nat.
Variable batch_limit : nat.
Variable api : endpoint.

(** The [while more_data and total_rows < self.max_rows] loop.  Each turn
    that goes on adds at least one row, so [max_rows - total_rows] turns
    are enough; [fuel] counts them. *)
Fixpoint fetch_loop (fuel : nat) (st : fetch_state) : fetch_state :=
  match fuel with
  | 0 => st
  | S fuel' =>
      if Nat.ltb (total_rows st) max_rows then
        let batch_size := Nat.min batch_limit (max_rows - total_rows st) in
        if Nat.leb batch_size 0 then st
        else
          let resp := api (List.length (log st)) batch_size (offset st) in
          let log' := (log st ++ [Request batch_size (offset st) resp])%list in
          match resp with
          | RequestException =>
              FetchState (offset st) (all_data st) (total_rows st) log'
          | Page data =>
              if Nat.ltb 0 (List.length data) then
                let st' := FetchState (offset st + batch_size)
                                      (all_data st ++ [data])%list
                                      (total_rows st + List.length data) log' in
                if Nat.ltb (List.length data) batch_size
                then st'                      (* more_data = False *)
                else fetch_loop fuel' st'
              else FetchState (offset st) (all_data st) (total_rows st) log'
          end
      else st
  end.

Definition initial_state : fetch_state := FetchState 0 [] 0 [].

(** [collect_api_data]: the combined table ([pd.concat(all_data)], or an
    empty frame) together with the requests that were issued. *)
Definition collect_api_data : list row * list request :=
  let st := fetch_loop max_rows initial_state in
  (List.concat (all_data st), log st).

End Paging.

Arguments Page {row} data.
Arguments RequestException {row}.
Arguments Request {row} req_limit req_offset answer.
Arguments req_limit {row} r.
Arguments req_offset {row} r.
Arguments answer {row} r.
Arguments FetchState {row} offset all_data total_rows log.
Arguments offset {row} f.
Arguments all_data {row} f.
Arguments total_rows {row} f.
Arguments log {row} f.
Arguments fetch_loop {row} max_rows batch_limit api fuel st.
Arguments initial_state {row}.
Arguments collect_api_data {row} max_rows batch_limit api.

(** The endpoint never returns more rows than [$limit] asks for. *)
Definition honours_limit {row} (api : endpoint row) : Prop :=
  forall n limit off data, api n limit off = Page data -> List.length data <= limit.

(** A request answered by a page of exactly the size asked for *)
Definition full_page {row} (r : request row) : Prop :=
  match answer r with
  | Page data => List.length data = req_limit r
  | RequestException => False
  end.

(** Mock endpoint of Scenario 4: pages of 2, 2 and 1 rows, then nothing *)
Definition mock_221 : endpoint nat :=
  fun n _ _ =>
    match n with
    | 0 => Page [1; 2]
    | 1 => Page [3; 4]
    | 2 => Page [5]
    | _ => Page []
    end.

(** A well-behaved endpoint over a remote table: [$limit] rows from
    [$offset] on *)
Definition table_endpoint {row} (remote : list row) : endpoint row :=
  fun _ limit off => Page (firstn limit (skipn off remote)).

(** An endpoint that ignores [$limit] and always sends three rows *)
Definition static_file : endpoint nat := fun _ _ _ => Page [1; 2; 3].

End Fetcher.
Export Fetcher.

(** Rows carried by the answers of a list of requests *)
Definition pages_of {row} (requests : list (request row)) : list row :=
  flat_map (fun r => match answer r with
                     | Page data => data
                     | RequestException => []
                     end) requests.

(** ** Aggregator ([BatonRougeDataCollector.create_summary_tables]) *)

Module Aggregator.

Open Scope string_scope.

(** One spatially joined record.  A left join leaves the geography columns
    null ([None]) for a point inside no polygon. *)
Record entity : Type := Entity {
  tract_id : option string;
  tract_name : option string;
  zip_code : option string;
  type_value : option string      (* the value in the dataset's type column *)
}.

(** A joined dataset: which of the columns the function tests for are
    present, and the records. *)
Record joined_dataset : Type := JoinedDataset {
  has_tract_id : bool;     (* 'tract_id' in gdf.columns (with 'tract_name') *)
  has_zip_code : bool;     (* 'zip_code' in gdf.columns *)
  has_type_col : bool;     (* one of typename / permit_type / type / category *)
  entities : list entity
}.

(** Group keys, [None] when a key column is null: [groupby] and
    [dropna(subset=...)] leave such records out. *)
Definition tract_key (e : entity) : option (list string) :=
  match tract_id e, tract_name e with
  | Some i, Some n => Some [i; n]
  | _, _ => None
  end.

Definition zip_key (e : entity) : option (list string) :=
  match zip_code e with
  | Some z => Some [z]
  | None => None
  end.

Definition type_key (e : entity) : option (list string) :=
  match tract_id e, tract_name e, type_value e with
  | Some i, Some n, Some t => Some [i; n; t]
  | _, _, _ => None
  end.

Definition klist_dec : forall a b : list string, {a = b} + {a <> b} :=
  list_eq_dec string_dec.

Fixpoint lex_leb (a b : list string) : bool :=
  match a, b with
  | [], _ => true
  | _ :: _, [] => false
  | x :: a', y :: b' =>
      match String.compare x y with
      | Lt => true
      | Eq => lex_leb a' b'
      | Gt => false
      end
  end.

Lemma lex_leb_total : forall a b, lex_leb a b = true \/ lex_leb b a = true.
Proof.
  induction a as [|x a IH]; intros [|y b]; simpl; auto.
  rewrite (String.compare_antisym y x).
  destruct (String.compare x y); simpl; auto.
Qed.

Module KeyListOrder <: TotalLeBool.
Definition t : Type := list string.
Definition leb : t -> t -> bool := lex_leb.
Definition leb_total := lex_leb_total.
End KeyListOrder.

Module KeyListSort := Sort KeyListOrder.

(** Keys of the records that have one *)
Definition keys_of (keyf : entity -> option (list string)) (es : list entity)
  : list (list string) :=
  flat_map (fun e => match keyf e with Some k => [k] | None => [] end) es.

(** [groupby(keys).size().reset_index(name=...)]: one row per distinct key,
    keys sorted, with the number of records of the group *)
Definition groupby_size (keyf : entity -> option (list string)) (es : list entity)
  : list (list string * nat) :=
  let ks := keys_of keyf es in
  map (fun k => (k, count_occ klist_dec ks k))
      (KeyListSort.sort (nodup klist_dec ks)).

Fixpoint lookup_count (k : list string) (summary : list (list string * nat)) : option nat :=
  match summary with
  | [] => None
  | (k', n) :: rest => if klist_dec k k' then Some n else lookup_count k rest
  end.

(** A row of [tract_totals] / [zip_totals]: the key columns, one
    ["<name>_count"] column per summarised dataset, and [total_incidents]. *)
Record total_row : Type := TotalRow {
  row_key : list string;
  counts : list (string * nat);
  total_incidents : nat
}.

(** [sort_values('total_incidents', ascending=False)]; pandas leaves the
    order among equal totals unspecified, a merge sort is used here. *)
Definition total_leb (a b : total_row) : bool :=
  Nat.leb (total_incidents b) (total_incidents a).

Lemma total_leb_total : forall a b, total_leb a b = true \/ total_leb b a = true.
Proof.
  intros a b. unfold total_leb.
  destruct (Nat.leb_spec (total_incidents b) (total_incidents a)); auto.
  right. apply Nat.leb_le. lia.
Qed.

Module TotalOrder <: TotalLeBool.
Definition t : Type := total_row.
Definition leb : t -> t -> bool := total_leb.
Definition leb_total := total_leb_total.
End TotalOrder.

Module TotalSort := Sort TotalOrder.

(** Left merge of the base keys with every summary, nulls filled with 0,
    totals added up, rows sorted by total. *)
Definition combine (base : list (list string))
           (summaries : list (string * list (list string * nat))) : list total_row :=
  TotalSort.sort
    (map (fun k =>
            let cs := map (fun '(name, summary) =>
                             (name ++ "_count",
                              match lookup_count k summary with
                              | Some n => n
                              | None => 0
                              end)) summaries in
            TotalRow k cs (list_sum (map snd cs)))
         base).

Record summary_tables : Type := SummaryTables {
  tract_totals : option (list total_row);
  zip_totals : option (list total_row);
  tract_type_summaries : list (string * list (list string * nat))
}.

Definition create_summary_tables (joined_datasets : list (string * joined_dataset))
           (census_tracts : list (string * string)) : summary_tables :=
  let tract_summaries :=
    flat_map (fun '(name, gdf) =>
                if has_tract_id gdf
                then [(name, groupby_size tract_key (entities gdf))] else [])
             joined_datasets in
  let zip_summaries :=
    flat_map (fun '(name, gdf) =>
                if has_zip_code gdf
                then [(name, groupby_size zip_key (entities gdf))] else [])
             joined_datasets in
  SummaryTables
    (match tract_summaries with
     | [] => None
     | _ => Some (combine (map (fun '(geoid, namelsad) => [geoid; namelsad]) census_tracts)
                          tract_summaries)
     end)
    (match zip_summaries with
     | [] => None
     | _ =>
         let all_zips :=
           KeyListSort.sort
             (nodup klist_dec (flat_map (fun '(_, summary) => map fst summary) zip_summaries)) in
         Some (combine all_zips zip_summaries)
     end)
    (flat_map (fun '(name, gdf) =>
                 if has_tract_id gdf && has_type_col gdf
                 then [("tract_type_summary_" ++ name,
                        groupby_size type_key (entities gdf))]
                 else [])
              joined_datasets).

(** Records matched to no tract and no ZIP code *)
Definition unmatched (e : entity) : bool :=
  match tract_key e, zip_key e with
  | None, None => true
  | _, _ => false
  end.

Definition without_unmatched (joined_datasets : list (string * joined_dataset))
  : list (string * joined_dataset) :=
  map (fun '(name, gdf) =>
         (name, JoinedDataset (has_tract_id gdf) (has_zip_code gdf) (has_type_col gdf)
                  (filter (fun e => negb (unmatched e)) (entities gdf))))
      joined_datasets.

Definition unmatched_count (joined_datasets : list (string * joined_dataset)) : nat :=
  list_sum (map (fun '(_, gdf) => List.length (filter unmatched (entities gdf)))
                joined_datasets).

End Aggregator.
Export Aggregator.

(** ** Orchestrator
       ([BatonRougeSocialIsolationFramework.run_comprehensive_analysis]) *)

Module Orchestrator.

Open Scope string_scope.

(** A call either returns or raises; the string names the exception. *)
Inductive outcome (A : Type) : Type :=
| Returns (a : A)
| Raises (e : string).

Arguments Returns {A} a.
Arguments Raises {A} e.

Definition bind {A B} (m : outcome A) (k : A -> outcome B) : outcome B :=
  match m with
  | Returns a => k a
  | Raises e => Raises e
  end.

Notation "x <- m ;; k" := (bind m (fun x => k))
  (at level 61, m at next level, right associativity).

(** What the framework stores: a DataFrame (rows, columns), a dict of
    DataFrames, or a report dict with some number of entries. *)
Inductive stored : Type :=
| DataFrame (rows cols : nat)
| DictOfFrames (items : list (string * (nat * nat)))
| Report (entries : nat).

(** [pd.DataFrame()] and [{}] *)
Definition empty_frame : stored := DataFrame 0 0.
Definition empty_dict : stored := DictOfFrames [].

Definition frame_is_empty (rows cols : nat) : bool :=
  Nat.eqb rows 0 || Nat.eqb cols 0.

(** The configuration: groups of switches.  Only the two groups the run
    reads are kept. *)
Definition group := list (string * bool).
Definition config := list (string * group).

Definition default_config : config :=
  [("data_sources",
    [("census_acs", true); ("municipal_data", true); ("health_outcomes", true);
     ("environmental_data", true); ("crime_analysis", true); ("spatial_crosswalks", true)]);
   ("analysis_options",
    [("include_spatial", true); ("calculate_risk_scores", true);
     ("create_composite_indices", true); ("generate_visualizations", false);
     ("save_intermediate_results", true)])].

(** [_load_configuration]: [default_config.update(user_config)] replaces
    whole top-level groups. *)
Definition load_configuration (user_config : option config) : config :=
  match user_config with
  | Some user => fold_left (fun cfg '(k, g) => set_col k g cfg) user default_config
  | None => default_config
  end.

(** [self.config[g][k]] *)
Definition lookup (cfg : config) (g k : string) : outcome bool :=
  match get_col g cfg with
  | None => Raises ("KeyError: " ++ g)
  | Some grp =>
      match get_col k grp with
      | None => Raises ("KeyError: " ++ k)
      | Some b => Returns b
      end
  end.

(** The collaborators: which were initialised, and what each of their calls
    does when made. *)
Record collaborators : Type := Collaborators {
  acs_collector : bool;
  municipal_collector : bool;
  isolation_analyzer : bool;
  health_collector : bool;
  environmental_collector : bool;
  crime_analyzer : bool;
  spatial_mapper : bool;
  collect_acs : outcome (nat * nat);       (* collect_all_acs_data, combine_all_datasets *)
  collect_municipal : outcome (list (string * (nat * nat)));
  collect_health : outcome (nat * nat);
  collect_air_quality : outcome (nat * nat);
  collect_noise : outcome (nat * nat);
  collect_green_space : outcome (nat * nat);
  analyze_crime : outcome (nat * nat);
  create_crosswalk : outcome (nat * nat);
  get_tract_geometries : outcome (nat * nat);
  housing_indicators : outcome (nat * nat);
  isolation_indicators : outcome (nat * nat);
  risk_scores : outcome (nat * nat);
  composite_analysis : outcome (nat * nat);
  comprehensive_summary : outcome nat;
  policy_recommendations : outcome nat;
  data_quality_report : outcome nat;
  save_results : outcome unit
}.

Record state : Type := State {
  collected_data : table stored;
  analysis_results : table stored;
  spatial_data : table stored
}.

Definition fresh_state : state := State [] [] [].

Definition set_collected (k : string) (v : stored) (st : state) : state :=
  State (set_col k v (collected_data st)) (analysis_results st) (spatial_data st).
Definition set_analysis (k : string) (v : stored) (st : state) : state :=
  State (collected_data st) (set_col k v (analysis_results st)) (spatial_data st).
Definition set_spatial (k : string) (v : stored) (st : state) : state :=
  State (collected_data st) (analysis_results st) (set_col k v (spatial_data st)).

Definition frame_of (p : nat * nat) : stored := DataFrame (fst p) (snd p).

(** One source of [_collect_all_data]:
    [if config[...] and collector: try ... except ...: fallback
     elif config[...]: fallback].
    The configuration lookup stands outside the [try]. *)
Definition collect_source (cfg : config) (switch : string) (available : bool)
           (data_key : string) (attempt : state -> outcome stored) (fallback : stored)
           (st : state) : outcome state :=
  enabled <- lookup cfg "data_sources" switch ;;
  if enabled && available then
    match attempt st with
    | Returns v => Returns (set_collected data_key v st)
    | Raises _ => Returns (set_collected data_key fallback st)
    end
  else if enabled then Returns (set_collected data_key fallback st)
  else Returns st.

Section Run.

Variable cfg : config.
Variable env : collaborators.

Definition attempt_acs (_ : state) : outcome stored :=
  p <- collect_acs env ;; Returns (frame_of p).

Definition attempt_municipal (_ : state) : outcome stored :=
  d <- collect_municipal env ;; Returns (DictOfFrames d).

Definition attempt_health (_ : state) : outcome stored :=
  p <- collect_health env ;; Returns (frame_of p).

Definition attempt_environmental (_ : state) : outcome stored :=
  a <- collect_air_quality env ;;
  n <- collect_noise env ;;
  g <- collect_green_space env ;;
  Returns (DictOfFrames [("air_quality", a); ("noise", n); ("green_space", g)]).

(** ['municipal_data' in collected_data and
     'Crime' in collected_data['municipal_data']] *)
Definition has_crime_data (st : state) : bool :=
  match get_col "municipal_data" (collected_data st) with
  | Some (DictOfFrames items) => has_col "Crime" items
  | _ => false
  end.

Definition attempt_crime (st : state) : outcome stored :=
  if has_crime_data st
  then p <- analyze_crime env ;; Returns (frame_of p)
  else Returns empty_frame.

(** Phase 1 *)
Definition collect_all_data (st : state) : outcome state :=
  st <- collect_source cfg "census_acs" (acs_collector env) "acs_data"
          attempt_acs empty_frame st ;;
  st <- collect_source cfg "municipal_data" (municipal_collector env) "municipal_data"
          attempt_municipal empty_dict st ;;
  st <- collect_source cfg "health_outcomes" (health_collector env) "health_data"
          attempt_health empty_frame st ;;
  st <- collect_source cfg "environmental_data" (environmental_collector env)
          "environmental_data" attempt_environmental empty_dict st ;;
  collect_source cfg "crime_analysis" (crime_analyzer env) "crime_analysis"
    attempt_crime empty_frame st.

(** [collected_data.get('acs_data', pd.DataFrame()).empty] *)
Definition acs_data_empty (st : state) : bool :=
  match get_col "acs_data" (collected_data st) with
  | Some (DataFrame r c) => frame_is_empty r c
  | Some (DictOfFrames _) | Some (Report _) => true
  | None => true
  end.

(** Phase 2 *)
Definition perform_spatial_analysis (st : state) : outcome state :=
  enabled <- lookup cfg "data_sources" "spatial_crosswalks" ;;
  if enabled && spatial_mapper env then
    Returns
      match create_crosswalk env with
      | Raises _ => st
      | Returns c =>
          let st1 := set_spatial "tract_council_crosswalk" (frame_of c) st in
          match lookup cfg "analysis_options" "include_spatial" with
          | Raises _ => st1
          | Returns spatial =>
              if spatial && acs_collector env && negb (acs_data_empty st1) then
                match get_tract_geometries env with
                | Raises _ => st1
                | Returns g => set_spatial "tract_geometries" (frame_of g) st1
                end
              else st1
          end
      end
  else Returns st.

(** Phase 3: everything after the test of [acs_data] is inside one [try]. *)
Definition analyze_social_isolation (st : state) : outcome state :=
  if negb (acs_data_empty st) && isolation_analyzer env then
    Returns
      match housing_indicators env with
      | Raises _ => st
      | Returns h =>
          let st1 := set_analysis "housing_indicators" (frame_of h) st in
          match isolation_indicators env with
          | Raises _ => st1
          | Returns i =>
              let st2 := set_analysis "isolation_indicators" (frame_of i) st1 in
              match lookup cfg "analysis_options" "calculate_risk_scores" with
              | Raises _ => st2
              | Returns want_risk =>
                  match (if want_risk
                         then match risk_scores env with
                              | Returns r => Returns (set_analysis "risk_scores" (frame_of r) st2)
                              | Raises e => Raises e
                              end
                         else Returns st2) with
                  | Raises _ => st2
                  | Returns st3 =>
                      match lookup cfg "analysis_options" "create_composite_indices" with
                      | Raises _ => st3
                      | Returns want_composite =>
                          if want_composite then
                            match composite_analysis env with
                            | Returns c =>
                                set_analysis "composite_analysis" (frame_of c) st3
                            | Raises _ => st3
                            end
                          else st3
                      end
                  end
              end
          end
      end
  else Returns st.

(** Phase 4: three steps, each inside its own [try]. *)
Definition report_step (k : string) (r : outcome nat) (st : state) : state :=
  match r with
  | Returns n => set_analysis k (Report n) st
  | Raises _ => st
  end.

Definition generate_final_results (st : state) : outcome state :=
  Returns
    (report_step "data_quality_report" (data_quality_report env)
       (report_step "policy_recommendations" (policy_recommendations env)
          (report_step "comprehensive_summary" (comprehensive_summary env) st))).

(** Phase 5: the whole body is inside one [try]; it writes files only. *)
Definition save_comprehensive_results (st : state) : outcome state :=
  match save_results env with
  | Returns _ | Raises _ => Returns st
  end.

(** [_create_results_summary]: per entry, whether it holds anything and how
    many records. *)
Definition collected_entry (v : stored) : bool * nat :=
  match v with
  | DataFrame r c => (negb (frame_is_empty r c), r)
  | DictOfFrames items =>
      (match items with [] => false | _ => true end,
       list_sum (map (fun '(_, (r, _)) => r) items))
  | Report n => (negb (Nat.eqb n 0), 0)
  end.

Definition analysis_entry (v : stored) : bool * nat :=
  match v with
  | DataFrame r c => (negb (frame_is_empty r c), r)
  | DictOfFrames items =>
      (match items with [] => false | _ => true end,
       match items with [] => 0 | _ => 1 end)
  | Report n => (negb (Nat.eqb n 0), if Nat.eqb n 0 then 0 else 1)
  end.

Definition spatial_entry (v : stored) : bool * nat :=
  match v with
  | DataFrame r c => (negb (frame_is_empty r c), r)
  | DictOfFrames items =>
      (match items with [] => false | _ => true end, List.length items)
  | Report n => (negb (Nat.eqb n 0), n)
  end.

Record results_summary : Type := ResultsSummary {
  data_collection_summary : table (bool * nat);
  analysis_summary : table (bool * nat);
  spatial_analysis_summary : table (bool * nat)
}.

Definition create_results_summary (st : state) : results_summary :=
  ResultsSummary
    (map (fun '(k, v) => (k, collected_entry v)) (collected_data st))
    (map (fun '(k, v) => (k, analysis_entry v)) (analysis_results st))
    (map (fun '(k, v) => (k, spatial_entry v)) (spatial_data st)).

(** [run_comprehensive_analysis]: the phases in order; the enclosing
    [except Exception as e: ... raise] hands on whatever escapes a phase. *)
Definition run_comprehensive_analysis : outcome results_summary :=
  st <- collect_all_data fresh_state ;;
  st <- perform_spatial_analysis st ;;
  st <- analyze_social_isolation st ;;
  st <- generate_final_results st ;;
  st <- save_comprehensive_results st ;;
  Returns (create_results_summary st).

End Run.

(** The data sources of Phase 1: configuration switch and key under which
    the data is stored. *)
Definition sources : list (string * string) :=
  [("census_acs", "acs_data"); ("municipal_data", "municipal_data");
   ("health_outcomes", "health_data"); ("environmental_data", "environmental_data");
   ("crime_analysis", "crime_analysis")].

Definition raised {A} (o : outcome A) : bool :=
  match o with Raises _ => true | Returns _ => false end.


(** Every switch the phases read outside a [try] is present. *)
Definition switches_present (cfg : config) : Prop :=
  forall k, In k ["census_acs"; "municipal_data"; "health_outcomes";
                  "environmental_data"; "crime_analysis"; "spatial_crosswalks"] ->
            exists b, lookup cfg "data_sources" k = Returns b.

End Orchestrator.
Export Orchestrator.

(** ** Vocabulary of the statements, and the tables of the scenarios *)

Open Scope string_scope.
Open Scope list_scope.

(** What one row of a percentage indicator satisfies, given the numerator
    [n] and denominator [d] the row was computed from. *)
Definition pct_row (n d c : xnum) : Prop :=
  is_finite c = true
  /\ (gt0 d = false -> c = zero)
  /\ (forall qn qd, n = Fin qn -> d = Fin qd -> (0 < qd)%Q ->
        exists qc, c = Fin qc /\ (qc == qn / qd * 100)%Q
                   /\ ((0 <= qn)%Q -> (qn <= qd)%Q -> (0 <= qc)%Q /\ (qc <= 100)%Q)).

(** Table with a numerator above its denominator *)
Definition over_table : frame :=
  [("Owner_Occupied"%string, [Fin 300]); ("Renter_Occupied"%string, [Fin 0]);
   ("Total_Occupied_Units"%string, [Fin 100])].

(** Scenario 2 of the specification *)
Definition tenure_table : frame :=
  [("Owner_Occupied"%string, [Fin 300]); ("Renter_Occupied"%string, [Fin 700]);
   ("Total_Occupied_Units"%string, [Fin 1000])].

Definition tenure_derived : frame :=
  (tenure_table ++ [("Percent_Owner_Occupied"%string, [Fin 30]);
                    ("Percent_Renter_Occupied"%string, [Fin 70])])%list.

(** A table with a missing (NaN) count in a column that is added with [+] *)
Definition nan_children_table : frame :=
  [("Children_In_Single_Mother_Families"%string, [NaN]);
   ("Children_In_Single_Father_Families"%string, [Fin 5]);
   ("Total_Own_Children_Under_18"%string, [Fin 10])].

Definition nan_children_once : frame :=
  [("Children_In_Single_Mother_Families"%string, [Fin 0]);
   ("Children_In_Single_Father_Families"%string, [Fin 5]);
   ("Total_Own_Children_Under_18"%string, [Fin 10]);
   ("Percent_Children_Single_Parent"%string, [Fin 0])].

Definition nan_children_twice : frame :=
  [("Children_In_Single_Mother_Families"%string, [Fin 0]);
   ("Children_In_Single_Father_Families"%string, [Fin 5]);
   ("Total_Own_Children_Under_18"%string, [Fin 10]);
   ("Percent_Children_Single_Parent"%string, [Fin 50])].

(** [writes s ws s']: [s'] is [s] after assigning the columns [ws], in
    that order, with some values. *)
Inductive writes : frame -> list string -> frame -> Prop :=
| writes_nil (s : frame) : writes s [] s
| writes_cons (s : frame) (c : string) (v : series) (ws : list string) (s' : frame) :
    writes (set_col c v s) ws s' -> writes s (c :: ws) s'.

(** Order-preserving sub-lists *)
Inductive subseq {A} : list A -> list A -> Prop :=
| subseq_nil : subseq [] []
| subseq_skip (x : A) (l m : list A) : subseq l m -> subseq l (x :: m)
| subseq_keep (x : A) (l m : list A) : subseq l m -> subseq (x :: l) (x :: m).

(** An input column named like a helper column is overwritten. *)
Definition table_with_std_column : frame :=
  [("Poverty_Rate", [Fin 1; Fin 2; Fin 3]);
   ("Poverty_Rate_std", [Fin 7; Fin 7; Fin 7])].

(** A non-empty frame all of whose columns have [n] rows *)
Definition uniform (n : nat) (s : frame) : Prop :=
  s <> [] /\ forall c v, In (c, v) s -> List.length v = n.

(** A table with a constant poverty rate (Scenario 5) *)
Definition constant_factor_table : frame :=
  [("Poverty_Rate", [Fin 5; Fin 5; Fin 5]);
   ("Old_Housing_Rate", [Fin 1; Fin 2; Fin 3])].

(** Rows whose variable code has a mapping entry *)
Definition is_mapped (r : long_row) : bool :=
  match dict_get (variable r) variable_mapping with Some _ => true | None => false end.

Definition tract_1_name : string := "Census Tract 1, East Baton Rouge Parish, Louisiana".

(** One tract under two names: the name [_collect_detailed_table] builds
    from the tract code, and the name the API returns with a subject table *)
Definition two_name_rows : list long_row :=
  [ LongRow "22033000100" "Census Tract 000100, East Baton Rouge Parish, Louisiana"
      "B01003_001E" (Number (Fin 1000));
    LongRow "22033000100" "Census Tract 1, East Baton Rouge Parish, Louisiana"
      "S2503_C01_001E" (Number (Fin 400)) ].

(** Scenario 1 of the specification, both rows carrying the tract's name *)
Definition scenario_1_rows : list long_row :=
  [ LongRow "22033000100" tract_1_name "B01003_001" (Number (Fin 1000));
    LongRow "22033000100" tract_1_name "B25001_001" (Number (Fin 500)) ].

(** A non-numeric estimate ahead of a numeric one for the same cell *)
Definition text_then_number_rows : list long_row :=
  [ LongRow "22033000100" tract_1_name "B01003_001" (Text "n/a");
    LongRow "22033000100" tract_1_name "B01003_001" (Number (Fin 7)) ].

(** A request asking for between 1 and [batch_limit] rows *)
Definition asks_within {row} (batch_limit : nat) (r : request row) : Prop :=
  1 <= req_limit r /\ req_limit r <= batch_limit.

(** What holds of the state whenever the loop test is evaluated *)
Definition paging_invariant {row} (max_rows batch_limit : nat) (st : fetch_state row)
  : Prop :=
  total_rows st = List.length (List.concat (all_data st))
  /\ List.concat (all_data st) = pages_of (log st)
  /\ Forall full_page (log st)
  /\ Forall (asks_within batch_limit) (log st)
  /\ total_rows st <= max_rows.

(** What holds of the state the loop ends in: all requests but the last
    were answered by full pages. *)
Definition paging_result {row} (max_rows batch_limit : nat) (st : fetch_state row)
  : Prop :=
  total_rows st = List.length (List.concat (all_data st))
  /\ List.concat (all_data st) = pages_of (log st)
  /\ Forall full_page (removelast (log st))
  /\ Forall (asks_within batch_limit) (log st)
  /\ total_rows st <= max_rows.

(** [has_key keyf e k]: record [e] belongs to the group of key [k] *)
Definition has_key (keyf : entity -> option (list string)) (k : list string)
           (e : entity) : bool :=
  match keyf e with
  | Some k' => if klist_dec k' k then true else false
  | None => false
  end.

(** Two blight records in one tract, and the same with a third record that
    fell inside no tract and no ZIP code *)
Definition blight_matched : list (string * joined_dataset) :=
  [("blight",
    JoinedDataset true true false
      [ Entity (Some "22033000100") (Some "Census Tract 1") (Some "70802") None;
        Entity (Some "22033000100") (Some "Census Tract 1") (Some "70802") None ])].

Definition blight_with_unmatched : list (string * joined_dataset) :=
  [("blight",
    JoinedDataset true true false
      [ Entity (Some "22033000100") (Some "Census Tract 1") (Some "70802") None;
        Entity None None None None;
        Entity (Some "22033000100") (Some "Census Tract 1") (Some "70802") None ])].

Definition one_tract : list (string * string) := [("22033000100", "Census Tract 1")].

(** Collaborators that all answer *)
Definition benign : collaborators :=
  Collaborators true true true true true true true
    (Returns (10, 5)) (Returns [("Crime", (7, 3)); ("Blight", (2, 2))]) (Returns (4, 4))
    (Returns (1, 1)) (Returns (1, 1)) (Returns (1, 1)) (Returns (3, 3))
    (Returns (9, 2)) (Returns (9, 2)) (Returns (10, 6)) (Returns (10, 7))
    (Raises "AttributeError") (Returns (10, 12)) (Returns 6) (Returns 4) (Returns 4)
    (Returns tt).

(** The same with a health endpoint that fails *)
Definition health_down : collaborators :=
  Collaborators true true true true true true true
    (Returns (10, 5)) (Returns [("Crime", (7, 3)); ("Blight", (2, 2))])
    (Raises "ConnectionError")
    (Returns (1, 1)) (Returns (1, 1)) (Returns (1, 1)) (Returns (3, 3))
    (Returns (9, 2)) (Returns (9, 2)) (Returns (10, 6)) (Returns (10, 7))
    (Raises "AttributeError") (Returns (10, 12)) (Returns 6) (Returns 4) (Returns 4)
    (Returns tt).



(** ** ACS table collectors
       ([BatonRougeACSCollector._collect_table_basic],
        [_collect_detailed_table], [_get_common_variables]) *)

Module Collector.

Open Scope string_scope.

(** [df = pd.DataFrame(data)] for the answer of [census.acs5.get]: the id
    columns [state], [county] and [tract] row by row, and the value columns
    in the order of [df.columns].  An answer from which this frame or its
    long form cannot be built is an exception of the call. *)
Record census_frame : Type := CensusFrame {
  geo : list (string * string * string);
  value_cols : table (list raw)
}.

(** ['Census Tract ' + tract + ', East Baton Rouge Parish, Louisiana'] *)
Definition tract_label (tract : string) : string :=
  ("Census Tract " ++ tract) ++ ", East Baton Rouge Parish, Louisiana".

(** [pd.melt(df, id_vars=id_cols, value_vars=value_cols, ...)], the [GEOID]
    and [NAME] columns, and the projection on
    [['GEOID', 'NAME', 'variable', 'estimate']]: the value columns one after
    the other, each with one row per tract. *)
Definition melt_tracts (df : census_frame) : list long_row :=
  flat_map (fun '(var, col) =>
              zip_with (fun '(state, county, tract) est =>
                          LongRow ((state ++ county) ++ tract) (tract_label tract) var est)
                       (geo df) col)
           (value_cols df).

(** [common_table_vars] *)
Definition common_table_vars : list (string * list string) :=
  [("B25001", ["B25001_001"]);
   ("B25002", ["B25002_001"; "B25002_002"; "B25002_003"]);
   ("B25003", ["B25003_001"; "B25003_002"; "B25003_003"]);
   ("B25077", ["B25077_001"]);
   ("B25064", ["B25064_001"]);
   ("B01003", ["B01003_001"]);
   ("B02001", ["B02001_002"; "B02001_003"; "B02001_005"]);
   ("B03003", ["B03003_003"]);
   ("B19013", ["B19013_001"]);
   ("B19001", ["B19001_002"; "B19001_003"; "B19001_004"; "B19001_005"; "B19001_006";
               "B19001_007"; "B19001_008"; "B19001_009"; "B19001_010"; "B19001_011";
               "B19001_012"; "B19001_013"; "B19001_014"; "B19001_015"; "B19001_016";
               "B19001_017"]);
   ("B17001", ["B17001_001"; "B17001_002"; "B17001_031"]);
   ("B11001", ["B11001_001"; "B11001_002"; "B11001_007"; "B11001_008"]);
   ("B25024", ["B25024_002"; "B25024_003"; "B25024_004"; "B25024_005"; "B25024_006";
               "B25024_007"; "B25024_008"; "B25024_009"; "B25024_010"]);
   ("B25034", ["B25034_002"; "B25034_003"; "B25034_004"; "B25034_005"; "B25034_006";
               "B25034_007"; "B25034_008"; "B25034_009"; "B25034_010"; "B25034_011"]);
   ("B25041", ["B25041_002"; "B25041_003"; "B25041_004"; "B25041_005"; "B25041_006";
               "B25041_007"])].

(** [_get_common_variables]: [common_table_vars.get(table, [])] *)
Definition get_common_variables (table : string) : list string :=
  match dict_get table common_table_vars with
  | Some vars => vars
  | None => []
  end.

Section Tables.

(** [self.census.acs5.get(vars, geo=..., year=...)] *)
Variable acs5_get : list string -> outcome census_frame.

(** [_collect_table_basic]: the whole body is inside one [try] that turns
    any exception into an empty frame. *)
Definition collect_table_basic (table : string) : list long_row :=
  match get_common_variables table with
  | [] => []
  | common_vars =>
      match acs5_get common_vars with
      | Returns df => melt_tracts df
      | Raises _ => []
      end
  end.

(** [CENPY_AVAILABLE], and the index of [con.variables] *)
Variable cenpy_available : bool.
Variable variables_index : outcome (list string).

(** [_collect_detailed_table] *)
Definition collect_detailed_table (table : string) : list long_row :=
  if negb cenpy_available then collect_table_basic table
  else
    match variables_index with
    | Raises _ => []
    | Returns variables =>
        match filter (String.prefix (table ++ "_")) variables with
        | [] => []
        | table_vars =>
            match acs5_get (firstn 50 table_vars) with
            | Returns df => melt_tracts df
            | Raises _ => []
            end
        end
    end.

End Tables.

End Collector.
Export Collector.

Open Scope list_scope.

(** An endpoint that answers every request with the same two tracts *)
Definition two_tract_answer : census_frame :=
  CensusFrame [("22", "033", "000100"); ("22", "033", "000200")]
              [("B01003_001E", [Number (Fin 10); Number (Fin 20)]);
               ("B25001_001E", [Number (Fin 4); Number (Fin 8)])].

Definition two_tract_endpoint : list string -> outcome census_frame :=
  fun _ => Returns two_tract_answer.

(** An endpoint that answers, for the same two tracts, with one estimate
    column per requested variable, named by the variable with the ['E']
    suffix *)
Definition echo_endpoint : list string -> outcome census_frame :=
  fun vars =>
    Returns (CensusFrame [("22", "033", "000100"); ("22", "033", "000200")]
               (map (fun v => ((v ++ "E")%string, [Number (Fin 1); Number (Fin 2)])) vars)).

(** ** Municipal data cleaning ([BatonRougeDataCollector.filter_and_clean_data]) *)

Module Cleaner.

Open Scope string_scope.

(** A municipal dataset as read by [pd.read_csv]: columns of cells that hold
    text or a number; a missing value is NaN. *)
Definition data_frame := table (list raw).

(** [Series.isna] on one cell *)
Definition isnull (c : raw) : bool :=
  match c with
  | Number NaN => true
  | _ => false
  end.

(** [len(df)] and [df.empty] for a frame of cells *)
Definition frame_rows (df : data_frame) : nat :=
  match df with
  | [] => 0
  | (_, v) :: _ => List.length v
  end.

Definition frame_empty (df : data_frame) : bool :=
  match df with
  | [] => true
  | _ => Nat.eqb (frame_rows df) 0
  end.

(** Boolean indexing [df[mask]] *)
Fixpoint take_rows {A} (mask : list bool) (v : list A) : list A :=
  match mask, v with
  | b :: mask', x :: v' => if b then x :: take_rows mask' v' else take_rows mask' v'
  | _, _ => []
  end.

Definition select_rows (mask : list bool) (df : data_frame) : data_frame :=
  map (fun '(n, v) => (n, take_rows mask v)) df.

(** [blight[blight['parenttype'] == "BLIGHTED PROPERTIES"]], or the frame
    itself when it has no such column *)
Definition blight_filter (blight : data_frame) : data_frame :=
  match get_col "parenttype" blight with
  | Some col =>
      select_rows (map (fun c => match c with
                                 | Text s => String.eqb s "BLIGHTED PROPERTIES"
                                 | Number _ => false
                                 end) col) blight
  | None => blight
  end.

(** [df.dropna(subset=['longitude', 'latitude'])] under
    [if 'longitude' in df.columns and 'latitude' in df.columns] *)
Definition dropna_coordinates (df : data_frame) : option data_frame :=
  match get_col "longitude" df, get_col "latitude" df with
  | Some lon, Some lat =>
      Some (select_rows (zip_with (fun a b => negb (isnull a) && negb (isnull b)) lon lat) df)
  | _, _ => None
  end.

(** [df['dataset_type'] = name] *)
Definition tag (name : string) (df : data_frame) : data_frame :=
  set_col "dataset_type" (repeat (Text name) (frame_rows df)) df.

(** One of the three [if name in datasets and not datasets[name].empty]
    blocks; [pre] is the filter applied before the coordinates are
    looked at. *)
Definition clean (name : string) (pre : data_frame -> data_frame)
           (datasets cleaned_datasets : table data_frame) : table data_frame :=
  match get_col name datasets with
  | Some df =>
      if frame_empty df then cleaned_datasets
      else
        match dropna_coordinates (pre df) with
        | Some df_clean => set_col name (tag name df_clean) cleaned_datasets
        | None => cleaned_datasets
        end
  | None => cleaned_datasets
  end.

Definition filter_and_clean_data (datasets : table data_frame) : table data_frame :=
  clean "crime" (fun df => df) datasets
    (clean "permits" (fun df => df) datasets
       (clean "blight" blight_filter datasets [])).

(** What the framework keeps of the cleaned datasets: rows and columns *)
Definition shapes (datasets : table data_frame) : list (string * (nat * nat)) :=
  map (fun '(name, df) => (name, (frame_rows df, List.length df))) datasets.

End Cleaner.
Export Cleaner.

Open Scope list_scope.

(** A blight extract with a row of another parent type and a row without
    coordinates, and a permits extract without coordinate columns *)
Definition raw_municipal : table data_frame :=
  [("blight",
    [("parenttype", [Text "BLIGHTED PROPERTIES"; Text "DRAINAGE"; Text "BLIGHTED PROPERTIES"]);
     ("longitude", [Number (Fin (-91)); Number (Fin (-91)); Number NaN]);
     ("latitude", [Number (Fin 30); Number (Fin 30); Number (Fin 30)])]);
   ("permits", [("permit_type", [Text "ROOF"])])].

(** What an entry of the cleaned dictionary is *)
Definition cleaned_from (name : string) (pre : data_frame -> data_frame)
           (datasets : table data_frame) (df : data_frame) : Prop :=
  exists raw_df lon lat,
    get_col name datasets = Some raw_df
    /\ frame_empty raw_df = false
    /\ get_col "longitude" (pre raw_df) = Some lon
    /\ get_col "latitude" (pre raw_df) = Some lat
    /\ df = tag name (select_rows
                        (zip_with (fun a b => negb (isnull a) && negb (isnull b)) lon lat)
                        (pre raw_df)).


(** ** Social isolation indicators
       ([SocialIsolationAnalyzer.calculate_social_isolation_indicators]) and
       the ACS strand of [SocialIsolationAnalyzer.run_comprehensive_analysis] *)

Module SocialIndicators.

Open Scope string_scope.

(** [if num in df.columns and den in df.columns:
       df[out] = (df[num] / df[den] * 100).fillna(0)] *)
Definition filled_rate (out num den : string) (df : frame) : frame :=
  match get_col num df, get_col den df with
  | Some n, Some d =>
      set_col out (map fillna0 (zip_with (fun x y => xmul (xdiv x y) hundred) n d)) df
  | _, _ => df
  end.

(** [cols = [col for col in df.columns if p(col)]
     if cols: df[out] = (df[cols].sum(axis=1) / df.get(den, 1) * 100).fillna(0)] *)
Definition filled_sum_rate (out : string) (p : string -> bool) (den : string)
           (df : frame) : frame :=
  match filter p (columns df) with
  | [] => df
  | cols => set_col out (map fillna0 (rate_over_get den df (sum_axis1 (select cols df)))) df
  end.

Definition elderly_living_alone_rate : frame -> frame :=
  filled_rate "Elderly_Living_Alone_Rate" "Living_Alone_65_Plus" "Population_65_Plus".

Definition single_person_household_rate : frame -> frame :=
  filled_rate "Single_Person_Household_Rate" "Single_Person_Households" "Total_Households".

Definition language_isolation_rate : frame -> frame :=
  filled_sum_rate "Language_Isolation_Rate"
    (fun col => contains "Limited_English" col || contains "Linguistically_Isolated" col)
    "Total_Population".

Definition disability_rate : frame -> frame :=
  filled_sum_rate "Disability_Rate" (contains "Disability") "Total_Population".

Definition no_vehicle_rate : frame -> frame :=
  filled_rate "No_Vehicle_Rate" "No_Vehicle_Available" "Total_Households".

Definition digital_isolation_rate : frame -> frame :=
  filled_rate "Digital_Isolation_Rate" "No_Internet_Access" "Total_Households".

(** [calculate_social_isolation_indicators] *)
Definition calculate_social_isolation_indicators (acs_data : frame) : frame :=
  digital_isolation_rate
    (no_vehicle_rate
       (disability_rate
          (language_isolation_rate
             (single_person_household_rate
                (elderly_living_alone_rate acs_data))))).

Section Strand.

Variable sqrtQ : Q -> Q.

(** Steps 2, 3 and 8 of [run_comprehensive_analysis], from the wide ACS
    table on: each stage runs when the table handed to it is not empty, and
    its result is stored under its key. *)
Definition acs_strand (acs_data : frame) : table (table column) :=
  let results : table (table column) := [] in
  let '(acs_enhanced, results) :=
    if negb (is_empty acs_data)
    then let acs_enhanced := calculate_housing_quality_indicators acs_data in
         (acs_enhanced, set_col "housing_quality" (lift acs_enhanced) results)
    else ([], results) in
  let '(acs_with_isolation, results) :=
    if negb (is_empty acs_enhanced)
    then let acs_with_isolation := calculate_social_isolation_indicators acs_enhanced in
         (acs_with_isolation, set_col "social_isolation" (lift acs_with_isolation) results)
    else ([], results) in
  if negb (is_empty acs_with_isolation)
  then set_col "final_analysis" (develop_isolation_risk_model sqrtQ acs_with_isolation) results
  else results.

End Strand.

End SocialIndicators.
Export SocialIndicators.

Open Scope list_scope.

(** Columns the two indicator functions assign *)
Definition housing_indicator_names : list string :=
  ["Housing_Vacancy_Rate"; "High_Housing_Cost_Burden_Rate"; "Old_Housing_Rate";
   "Mobile_Home_Rate"; "Renter_Rate"; "Overcrowding_Rate"].

Definition social_indicator_names : list string :=
  ["Elderly_Living_Alone_Rate"; "Single_Person_Household_Rate"; "Language_Isolation_Rate";
   "Disability_Rate"; "No_Vehicle_Rate"; "Digital_Isolation_Rate"].

(** Number of entries of a column of a scored table *)
Definition column_length (col : column) : nat :=
  match col with
  | Numeric v => List.length v
  | Categorical labels => List.length labels
  end.

(** A small tract table for the indicator functions *)
Definition isolation_table : frame :=
  [("Total_Housing_Units", [Fin 100; Fin 200]);
   ("Occupied_Units", [Fin 80; Fin 100]);
   ("Mobile_Home", [Fin 10; Fin 0]);
   ("Living_Alone_65_Plus", [Fin 5; Fin 0]);
   ("Population_65_Plus", [Fin 20; Fin 0]);
   ("With_Disability", [Fin 7; NaN]);
   ("Total_Population", [Fin 70; Fin 50])].

(** ** Vocabulary of the further properties *)

(** *** Vocabulary for statements about the paging loop *)

(** The [$offset] values of consecutive windows: each starts where the one
    before it ends. *)
Fixpoint offsets_from (start : nat) (limits : list nat) : list nat :=
  match limits with
  | [] => []
  | b :: rest => start :: offsets_from (start + b) rest
  end.

(** A request answered by a non-empty page of at least the size asked for:
    the only answer after which the loop goes on. *)
Definition answered_in_full {row} (r : request row) : Prop :=
  match answer r with
  | Page data => 0 < List.length data /\ req_limit r <= List.length data
  | RequestException => False
  end.

(** What holds of the log while the loop goes on, and of the log it ends
    with *)
Definition windows_invariant {row} (st : fetch_state row) : Prop :=
  Forall answered_in_full (log st)
  /\ offset st = list_sum (map req_limit (log st))
  /\ map req_offset (log st) = offsets_from 0 (map req_limit (log st)).

Definition windows_result {row} (st : fetch_state row) : Prop :=
  Forall answered_in_full (removelast (log st))
  /\ map req_offset (log st) = offsets_from 0 (map req_limit (log st)).


(** [assigns names s s']: [s'] is [s] after assigning some of the columns
    [names], each with some value *)
Definition assigns (names : list string) (s s' : frame) : Prop :=
  exists ws, incl ws names /\ writes s ws s'.

(** A step that leaves the table alone or assigns one column without NaN *)
Definition fills (out : string) (s s' : frame) : Prop :=
  s' = s \/ exists v, Forall (fun a => notna a = true) v /\ s' = set_col out v s.

(** Every column is as in [s0] or free of NaN *)
Definition kept_or_filled (s0 s : frame) : Prop :=
  forall c v, get_col c s = Some v ->
              get_col c s0 = Some v \/ Forall (fun a => notna a = true) v.

(** No row-wise sum over an empty list of columns *)
Definition operand_nonempty (o : operand) : bool :=
  match o with
  | SumCols [] => false
  | _ => true
  end.

Definition expr_nonempty (e : expr) : bool :=
  match e with
  | Val o => operand_nonempty o
  | Pct num _ => operand_nonempty num
  end.

(** Three tracts, and two joined datasets whose records fall one in the
    first tract, three in the second and none in the third *)
Definition three_tracts : list (string * string) :=
  [("22033000100", "Census Tract 1"); ("22033000200", "Census Tract 2");
   ("22033000300", "Census Tract 3")]%string.

Definition crime_and_blight : list (string * joined_dataset) :=
  [("crime",
    JoinedDataset true true false
      [ Entity (Some "22033000200") (Some "Census Tract 2") (Some "70806") None;
        Entity (Some "22033000100") (Some "Census Tract 1") (Some "70802") None;
        Entity (Some "22033000200") (Some "Census Tract 2") (Some "70806") None ]);
   ("blight",
    JoinedDataset true false false
      [ Entity (Some "22033000200") (Some "Census Tract 2") None None ])]%string.

(** The default configuration with the health source switched off *)
Definition health_off_config : config :=
  [("data_sources",
    [("census_acs", true); ("municipal_data", true); ("health_outcomes", false);
     ("environmental_data", true); ("crime_analysis", true); ("spatial_crosswalks", true)]);
   ("analysis_options",
    [("include_spatial", true); ("calculate_risk_scores", true);
     ("create_composite_indices", true); ("generate_visualizations", false);
     ("save_intermediate_results", true)])].

(** Collaborators that all answer, the municipal collector with the cleaned
    datasets of [raw_municipal] and a crime extract *)
Definition cleaned_municipal : collaborators :=
  Collaborators true true true true true true true
    (Returns (10, 5))
    (Returns (shapes (filter_and_clean_data
                        (raw_municipal ++
                         [("crime", [("longitude", [Number (Fin (-91))]);
                                     ("latitude", [Number (Fin 30)])])]))))
    (Returns (4, 4))
    (Returns (1, 1)) (Returns (1, 1)) (Returns (1, 1)) (Returns (3, 3))
    (Returns (9, 2)) (Returns (9, 2)) (Returns (10, 6)) (Returns (10, 7))
    (Raises "AttributeError") (Returns (10, 12)) (Returns 6) (Returns 4) (Returns 4)
    (Returns tt).


(* ------------------------------------------------------------------ *)
(** ** The z-score step in binary64 *)

(** [develop_isolation_risk_model], the body of [for factor in
    available_factors] (social_isolation_analyzer.py, lines 388 to 395), on
    IEEE binary64 values as pandas computes it for a column without missing
    values:
    - [Series.mean()] is the sum of the cells over their count;
    - [Series.std()] is the square root of the sample variance ([ddof=1]):
      the sum of the squares of [avg - x] over [count - 1], with
      [avg = sum / count];
    - a sum is accumulated from 0, left to right, which is the order numpy
      follows for fewer than eight values.
    Every operation rounds to nearest, ties to even. *)
Module Binary64.

Import PrimFloat.
Local Open Scope float_scope.

Definition f64_zero : float := 0.

Definition f64_sum (v : list float) : float := fold_left add v 0.

Definition f64_count (v : list float) : float := fold_left (fun n _ => n + 1) v 0.

(** [df[factor].mean()] *)
Definition f64_mean (v : list float) : float := f64_sum v / f64_count v.

Definition f64_var (v : list float) : float :=
  let avg := f64_sum v / f64_count v in
  f64_sum (map (fun x => (avg - x) * (avg - x)) v) / (f64_count v - 1).

(** [df[factor].std()] *)
Definition f64_std (v : list float) : float := sqrt (f64_var v).

(** The column stored as [df[factor_std]]:
    [(df[factor] - mean_val) / std_val] if [std_val > 0], else [0]. *)
Definition standardize_column (v : list float) : list float :=
  let mean_val := f64_mean v in
  let std_val := f64_std v in
  if ltb 0 std_val
  then map (fun x => (x - mean_val) / std_val) v
  else map (fun _ => 0) v.

(** The float that the literal [0.1] denotes. *)
Definition tenth : float := 0x1.999999999999ap-4.

(** A factor column of three rows, [0.1] in each. *)
Definition tenths : list float := [tenth; tenth; tenth].

(** [0.10000000000000002], the float next above [0.1] *)
Definition tenths_mean : float := 0x1.999999999999bp-4.

(** about [1.6996749e-17] *)
Definition tenths_std : float := 0x1.3988e1409212ep-56.

(** about [-0.8164966] *)
Definition tenths_score : float := -0x1.a20bd700c2c3fp-1.

(** A factor column of three rows, [5.0] in each. *)
Definition fives : list float := [5; 5; 5].

End Binary64.

(* ================================================================== *)
(** * Part II. Properties                                              *)
(* ================================================================== *)

Open Scope string_scope.
Open Scope list_scope.

(** ** Frames *)

Section FrameFacts.

Lemma get_col_set_same {V} (c : string) (v : V) (df : table V) :
  get_col c (set_col c v df) = Some v.
Proof.
  induction df as [|[n w] rest IH]; simpl.
  - now rewrite String.eqb_refl.
  - destruct (String.eqb c n) eqn:E; simpl; rewrite E; auto.
Qed.

Lemma get_col_set_other {V} (c c' : string) (v : V) (df : table V) :
  c <> c' -> get_col c (set_col c' v df) = get_col c df.
Proof.
  intros Hne. induction df as [|[n w] rest IH]; simpl.
  - destruct (String.eqb c c') eqn:E; auto.
    apply String.eqb_eq in E. contradiction.
  - destruct (String.eqb c' n) eqn:E; simpl.
    + apply String.eqb_eq in E. subst n.
      destruct (String.eqb c c') eqn:E'; auto.
      apply String.eqb_eq in E'. contradiction.
    + now rewrite IH.
Qed.

Lemma has_col_set_same {V} (c : string) (v : V) (df : table V) :
  has_col c (set_col c v df) = true.
Proof. unfold has_col. now rewrite get_col_set_same. Qed.

Lemma has_col_set_mono {V} (c c' : string) (v : V) (df : table V) :
  has_col c df = true -> has_col c (set_col c' v df) = true.
Proof.
  intros H. destruct (string_dec c c') as [->|Hne].
  - apply has_col_set_same.
  - unfold has_col in *. now rewrite get_col_set_other.
Qed.

Lemma set_col_same_id {V} (c : string) (v : V) (df : table V) :
  get_col c df = Some v -> set_col c v df = df.
Proof.
  induction df as [|[n w] rest IH]; simpl; [discriminate|].
  destruct (String.eqb c n) eqn:E.
  - intros [= ->]. reflexivity.
  - intros H. now rewrite IH.
Qed.

Lemma columns_set_col_present {V} (c : string) (v : V) (df : table V) :
  has_col c df = true -> columns (set_col c v df) = columns df.
Proof.
  unfold has_col, columns.
  induction df as [|[n w] rest IH]; simpl; [discriminate|].
  destruct (String.eqb c n) eqn:E; simpl; auto.
  intros H. now rewrite IH.
Qed.

Lemma columns_set_col_absent {V} (c : string) (v : V) (df : table V) :
  has_col c df = false -> columns (set_col c v df) = (columns df ++ [c])%list.
Proof.
  unfold has_col, columns.
  induction df as [|[n w] rest IH]; simpl; auto.
  destruct (String.eqb c n) eqn:E; simpl; [discriminate|].
  intros H. now rewrite IH.
Qed.

Lemma has_col_In {V} (c : string) (df : table V) :
  has_col c df = true <-> In c (columns df).
Proof.
  unfold has_col, columns.
  induction df as [|[n w] rest IH]; simpl.
  - split; [discriminate | tauto].
  - destruct (String.eqb c n) eqn:E.
    + apply String.eqb_eq in E. subst. split; auto.
    + apply String.eqb_neq in E. rewrite IH. split; auto.
      intros [H|H]; auto. congruence.
Qed.

Lemma get_col_replace (c : string) (df : frame) :
  get_col c (replace_inf_nan df) = option_map (map replace_special) (get_col c df).
Proof.
  induction df as [|[n w] rest IH]; simpl; auto.
  destruct (String.eqb c n); auto.
Qed.

Lemma has_col_replace (c : string) (df : frame) :
  has_col c (replace_inf_nan df) = has_col c df.
Proof. unfold has_col. rewrite get_col_replace. now destruct (get_col c df). Qed.

Lemma columns_replace (df : frame) : columns (replace_inf_nan df) = columns df.
Proof.
  unfold columns, replace_inf_nan. rewrite map_map.
  apply map_ext. now intros [n v].
Qed.

Lemma replace_special_finite (a : xnum) :
  is_finite (replace_special a) = true.
Proof. now destruct a. Qed.

Lemma replace_special_id (a : xnum) :
  is_finite a = true -> replace_special a = a.
Proof. destruct a; simpl; auto; discriminate. Qed.

Lemma map_replace_special_id (v : series) :
  Forall (fun a => is_finite a = true) v -> map replace_special v = v.
Proof.
  induction 1; simpl; auto. rewrite replace_special_id by assumption. now f_equal.
Qed.

Lemma replace_finite_id (df : frame) :
  all_finite df -> replace_inf_nan df = df.
Proof.
  unfold all_finite. induction 1 as [|[n v] rest Hv _ IH]; simpl; auto.
  rewrite map_replace_special_id by assumption. now f_equal.
Qed.

Lemma replace_all_finite (df : frame) : all_finite (replace_inf_nan df).
Proof.
  unfold all_finite, replace_inf_nan. apply Forall_forall.
  intros [n v] Hin. apply in_map_iff in Hin as [[n' v'] [[= <- <-] _]].
  apply Forall_forall. intros a Ha. apply in_map_iff in Ha as [b [<- _]].
  apply replace_special_finite.
Qed.

Lemma all_finite_get (c : string) (v : series) (df : frame) :
  all_finite df -> get_col c df = Some v -> Forall (fun a => is_finite a = true) v.
Proof.
  unfold all_finite. induction 1 as [|[n w] rest Hw _ IH]; simpl; [discriminate|].
  destruct (String.eqb c n); auto. now intros [= <-].
Qed.

Lemma all_finite_set (c : string) (v : series) (df : frame) :
  all_finite df -> Forall (fun a => is_finite a = true) v -> all_finite (set_col c v df).
Proof.
  unfold all_finite. intros Hdf Hv.
  induction Hdf as [|[n w] rest Hw Hrest IH]; simpl.
  - constructor; auto.
  - destruct (String.eqb c n); constructor; auto.
Qed.

Lemma zip_with_length {A B C} (f : A -> B -> C) (l : list A) (m : list B) :
  List.length (zip_with f l m) = Nat.min (List.length l) (List.length m).
Proof.
  revert m. induction l as [|a l IH]; intros [|b m]; simpl; auto.
Qed.

Lemma zip_with_nth {A B C} (f : A -> B -> C) (l : list A) (m : list B) (i : nat) (c : C) :
  nth_error (zip_with f l m) i = Some c <->
  exists a b, nth_error l i = Some a /\ nth_error m i = Some b /\ c = f a b.
Proof.
  revert m i. induction l as [|a l IH]; intros [|b m] [|i]; simpl;
    try (split; [discriminate | intros (x & y & H1 & H2 & _); discriminate]).
  - split.
    + intros [= <-]. now exists a, b.
    + intros (x & y & [= <-] & [= <-] & ->). reflexivity.
  - apply IH.
Qed.

Lemma zip_with_Forall {A B C} (P : C -> Prop) (f : A -> B -> C) (l : list A) (m : list B) :
  (forall a b, In a l -> In b m -> P (f a b)) -> Forall P (zip_with f l m).
Proof.
  revert m. induction l as [|a l IH]; intros [|b m] H; simpl; constructor.
  - apply H; now left.
  - apply IH. intros; apply H; now right.
Qed.

Lemma forallb_pointwise {A} (f g : A -> bool) (l : list A) :
  (forall x, f x = g x) -> forallb f l = forallb g l.
Proof.
  intros H. induction l as [|a l IH]; simpl; auto. now rewrite H, IH.
Qed.

Lemma mem_In (c : string) (l : list string) : mem c l = true <-> In c l.
Proof.
  unfold mem. rewrite existsb_exists. split.
  - intros (x & Hin & E). apply String.eqb_eq in E. now subst.
  - intros H. exists c. split; auto. apply String.eqb_refl.
Qed.

Lemma mem_false (c : string) (l : list string) : mem c l = false <-> ~ In c l.
Proof.
  rewrite <- mem_In. destruct (mem c l); split; intros H; congruence.
Qed.

Lemma disjointb_spec (l m : list string) :
  disjointb l m = true <-> (forall c, In c l -> ~ In c m).
Proof.
  unfold disjointb. rewrite forallb_forall. split; intros H c Hc.
  - apply mem_false. specialize (H c Hc). now destruct (mem c m).
  - apply H in Hc. apply mem_false in Hc. now rewrite Hc.
Qed.

End FrameFacts.

(** ** Derived Indicator Calculator: the program as guarded assignments *)

Section DerivedFacts.

Lemma get_cols_ext (cs : list string) (d1 d2 : frame) :
  (forall c, In c cs -> get_col c d1 = get_col c d2) ->
  get_cols cs d1 = get_cols cs d2.
Proof.
  induction cs as [|c cs IH]; simpl; intros H; auto.
  rewrite (H c) by now left. rewrite IH; auto.
Qed.

Lemma eval_operand_ext (o : operand) (d1 d2 : frame) :
  (forall c, In c (operand_reads o) -> get_col c d1 = get_col c d2) ->
  eval_operand d1 o = eval_operand d2 o.
Proof.
  destruct o as [c|cs|a b]; simpl; intros H.
  - apply H; now left.
  - now rewrite (get_cols_ext cs d1 d2).
  - rewrite (H a), (H b); auto.
Qed.

Lemma eval_ext (e : expr) (d1 d2 : frame) :
  (forall c, In c (reads e) -> get_col c d1 = get_col c d2) ->
  eval d1 e = eval d2 e.
Proof.
  destruct e as [o|num den]; simpl; intros H.
  - now apply eval_operand_ext.
  - rewrite (eval_operand_ext num d1 d2), (H den); auto.
    + apply in_or_app; right; now left.
    + intros c Hc. apply H. apply in_or_app; now left.
Qed.

Lemma guards_ext (G : list string) (d1 d2 : frame) :
  (forall c, In c G -> get_col c d1 = get_col c d2) ->
  forallb (fun c => has_col c d1) G = forallb (fun c => has_col c d2) G.
Proof.
  induction G as [|c G IH]; simpl; intros H; auto.
  unfold has_col at 1 3. rewrite (H c) by now left. f_equal. apply IH; auto.
Qed.

Lemma run_g_frame (g : gassign) (df df' : frame) (c : string) :
  run_g df g = Some df' -> c <> target g -> get_col c df' = get_col c df.
Proof.
  unfold run_g, assign. destruct (forallb _ _).
  - destruct (eval df (rhs g)); simpl; [|discriminate].
    intros [= <-] Hne. now apply get_col_set_other.
  - now intros [= <-].
Qed.

Lemma run_gs_frame (gs : list gassign) (df df' : frame) (c : string) :
  run_gs gs df = Some df' -> ~ In c (map target gs) -> get_col c df' = get_col c df.
Proof.
  revert df. induction gs as [|g gs IH]; simpl; intros df.
  - now intros [= <-].
  - destruct (run_g df g) as [df1|] eqn:E; [|discriminate].
    intros Hrun Hnin. rewrite (IH df1) by tauto.
    eapply run_g_frame; eauto.
Qed.

Lemma run_gs_app (l1 l2 : list gassign) (df : frame) :
  run_gs (l1 ++ l2) df =
  match run_gs l1 df with Some d => run_gs l2 d | None => None end.
Proof.
  revert df. induction l1 as [|g l1 IH]; simpl; intros df; auto.
  destruct (run_g df g); auto.
Qed.

(** After a run of an [ordered] program every guarded assignment holds as an
    equation of the resulting table, and a write whose guard failed left its
    target as it was. *)
Lemma run_gs_consistent (gs : list gassign) :
  ordered gs = true ->
  forall df df', run_gs gs df = Some df' ->
  forall g, In g gs ->
    (forallb (fun c => has_col c df') (guards g) = true ->
       exists v, eval df' (rhs g) = Some v /\ get_col (target g) df' = Some v)
    /\ (forallb (fun c => has_col c df') (guards g) = false ->
       get_col (target g) df' = get_col (target g) df).
Proof.
  induction gs as [|g0 gs IH]; simpl; [intros _ df df' _ g []|].
  intros Hord df df' Hrun g Hin.
  apply andb_prop in Hord as [Hord Hrest].
  apply andb_prop in Hord as [Hord Hfresh].
  apply andb_prop in Hord as [Hg Hr].
  rewrite disjointb_spec in Hg, Hr.
  apply negb_true_iff, mem_false in Hfresh.
  destruct (run_g df g0) as [df1|] eqn:E1; [|discriminate].
  assert (Hsame : forall c, ~ In c (target g0 :: map target gs) ->
                            get_col c df' = get_col c df).
  { intros c Hc. rewrite (run_gs_frame gs df1 df' c Hrun) by (simpl in Hc; tauto).
    eapply run_g_frame; eauto. simpl in Hc. intros ->. tauto. }
  destruct Hin as [<-|Hin].
  - rewrite (guards_ext (guards g0) df' df) by (intros; apply Hsame; auto).
    unfold run_g in E1. split; intros HG; rewrite HG in E1.
    + unfold assign in E1. destruct (eval df (rhs g0)) as [v|] eqn:Ev; [|discriminate].
      simpl in E1. injection E1 as <-. exists v. split.
      * rewrite <- Ev. apply eval_ext. intros; apply Hsame; auto.
      * rewrite (run_gs_frame gs _ df' _ Hrun) by assumption. apply get_col_set_same.
    + injection E1 as <-. now apply (run_gs_frame gs df df').
  - destruct (IH Hrest df1 df' Hrun g Hin) as [H1 H2]. split; auto.
    intros HG. rewrite (H2 HG). eapply run_g_frame; eauto.
    intros Heq. apply Hfresh. rewrite <- Heq. now apply in_map.
Qed.

Lemma run_gs_fixed (gs : list gassign) (df : frame) :
  (forall g, In g gs -> run_g df g = Some df) -> run_gs gs df = Some df.
Proof.
  induction gs as [|g gs IH]; simpl; intros H; auto.
  rewrite (H g) by now left. apply IH. intros; apply H; now right.
Qed.

(** Running an [ordered] program on its own result changes nothing. *)
Lemma run_gs_idempotent (gs : list gassign) (df df' : frame) :
  ordered gs = true -> run_gs gs df = Some df' -> run_gs gs df' = Some df'.
Proof.
  intros Hord Hrun. apply run_gs_fixed. intros g Hin.
  destruct (run_gs_consistent gs Hord df df' Hrun g Hin) as [H1 _].
  unfold run_g. destruct (forallb _ _) eqn:HG; auto.
  destruct (H1 eq_refl) as (v & Hev & Hget).
  unfold assign. rewrite Hev. simpl. now rewrite set_col_same_id.
Qed.

(** Guards seen at the end of the run are the guards seen when tested. *)
Lemma run_gs_has_col_mono (gs : list gassign) (df df' : frame) (c : string) :
  run_gs gs df = Some df' -> has_col c df = true -> has_col c df' = true.
Proof.
  revert df. induction gs as [|g gs IH]; simpl; intros df.
  - now intros [= <-].
  - destruct (run_g df g) as [df1|] eqn:E; [|discriminate].
    intros Hrun H. apply (IH df1); auto.
    unfold run_g, assign in E. destruct (forallb _ _).
    + destruct (eval df (rhs g)); simpl in E; [|discriminate].
      injection E as <-. now apply has_col_set_mono.
    + now injection E as <-.
Qed.

(** *** Blocks and guarded assignments agree *)

Lemma exec_actions_flat (req : list string) (acts : list action) (df : frame) :
  forallb (fun c => has_col c df) req = true ->
  exec_actions acts df = run_gs (map (flatten_action req) acts) df.
Proof.
  revert df. induction acts as [|a acts IH]; simpl; intros df Hreq; auto.
  assert (Hkeep : forall out e d, assign out e df = Some d ->
                    forallb (fun c => has_col c d) req = true).
  { intros out e d. unfold assign. destruct (eval df e); simpl; [|discriminate].
    intros [= <-]. rewrite forallb_forall in *. intros c Hc.
    apply has_col_set_mono; auto. }
  destruct a as [out e|c out e]; simpl; unfold run_g; simpl.
  - rewrite Hreq. destruct (assign out e df) as [d|] eqn:E; auto.
    apply IH. eapply Hkeep; eauto.
  - rewrite forallb_app, Hreq. simpl. rewrite andb_true_r.
    destruct (has_col c df); [|now apply IH].
    destruct (assign out e df) as [d|] eqn:E; auto.
    apply IH. eapply Hkeep; eauto.
Qed.

Lemma skipped_block_flat (req : list string) (acts : list action) (df : frame) :
  forallb (fun c => has_col c df) req = false ->
  run_gs (map (flatten_action req) acts) df = Some df.
Proof.
  intros Hreq. apply run_gs_fixed. intros g Hin.
  apply in_map_iff in Hin as (a & <- & _).
  unfold run_g. destruct a as [out e|c out e]; simpl.
  - now rewrite Hreq.
  - now rewrite forallb_app, Hreq.
Qed.

Lemma exec_block_flat (b : block) (df : frame) :
  exec_block df b = run_gs (flatten_block b) df.
Proof.
  unfold exec_block, flatten_block.
  destruct (forallb _ (requires b)) eqn:E.
  - now apply exec_actions_flat.
  - symmetry. now apply skipped_block_flat.
Qed.

Lemma exec_blocks_flat (bs : list block) (df : frame) :
  exec_blocks bs df = run_gs (flatten bs) df.
Proof.
  revert df. induction bs as [|b bs IH]; simpl; intros df; auto.
  rewrite run_gs_app, <- exec_block_flat.
  destruct (exec_block df b); auto.
Qed.

(** *** No [KeyError]: every read is guarded *)

Lemma get_cols_total (cs : list string) (df : frame) :
  (forall c, In c cs -> has_col c df = true) -> exists vs, get_cols cs df = Some vs.
Proof.
  induction cs as [|c cs IH]; simpl; intros H; [now eexists|].
  destruct IH as [vs Hvs]; [intros; apply H; now right|].
  specialize (H c (or_introl eq_refl)). unfold has_col in H.
  destruct (get_col c df); [|discriminate]. rewrite Hvs. now eexists.
Qed.

Lemma eval_operand_total (o : operand) (df : frame) :
  (forall c, In c (operand_reads o) -> has_col c df = true) ->
  exists v, eval_operand df o = Some v.
Proof.
  destruct o as [c|cs|a b]; simpl; intros H.
  - specialize (H c (or_introl eq_refl)). unfold has_col in H.
    destruct (get_col c df); [now eexists | discriminate].
  - destruct (get_cols_total cs df H) as [vs ->]. now eexists.
  - pose proof (H a (or_introl eq_refl)) as Ha.
    pose proof (H b (or_intror (or_introl eq_refl))) as Hb.
    unfold has_col in Ha, Hb.
    destruct (get_col a df), (get_col b df); try discriminate. now eexists.
Qed.

Lemma eval_total (e : expr) (df : frame) :
  (forall c, In c (reads e) -> has_col c df = true) -> exists v, eval df e = Some v.
Proof.
  destruct e as [o|num den]; simpl; intros H.
  - now apply eval_operand_total.
  - destruct (eval_operand_total num df) as [n ->].
    { intros c Hc. apply H. apply in_or_app. now left. }
    assert (Hd : has_col den df = true).
    { apply H. apply in_or_app. right. now left. }
    unfold has_col in Hd. destruct (get_col den df); [now eexists | discriminate].
Qed.

Lemma exec_actions_total (acts : list action) :
  forall (known : list string) (df : frame),
  actions_closed known acts = true ->
  (forall c, In c known -> has_col c df = true) ->
  exists df', exec_actions acts df = Some df'.
Proof.
  induction acts as [|a acts IH]; simpl; intros known df Hcl Hk; [now eexists|].
  destruct a as [out e|c out e]; apply andb_prop in Hcl as [Hr Hcl]; simpl.
  - destruct (eval_total e df) as [v Hv].
    { intros c Hc. apply Hk. apply mem_In.
      rewrite forallb_forall in Hr. now apply Hr. }
    unfold assign. rewrite Hv. simpl. apply (IH (out :: known)); auto.
    intros c [<-|Hc]; [apply has_col_set_same | apply has_col_set_mono; auto].
  - destruct (has_col c df) eqn:Ec; [|now apply (IH known)].
    destruct (eval_total e df) as [v Hv].
    { intros x Hx. rewrite forallb_forall in Hr. specialize (Hr x Hx).
      apply (proj1 (mem_In x (c :: known))) in Hr. destruct Hr as [<-|Hr]; auto. }
    unfold assign. rewrite Hv. simpl. apply (IH known); auto.
    intros x Hx. apply has_col_set_mono; auto.
Qed.

Lemma exec_blocks_total (bs : list block) :
  forallb block_closed bs = true ->
  forall df, exists df', exec_blocks bs df = Some df'.
Proof.
  induction bs as [|b bs IH]; simpl; intros Hcl df; [now eexists|].
  apply andb_prop in Hcl as [Hb Hbs].
  assert (exists d, exec_block df b = Some d) as [d ->].
  { unfold exec_block. destruct (forallb _ (requires b)) eqn:E; [|now eexists].
    apply (exec_actions_total (actions b) (requires b)); auto.
    now rewrite forallb_forall in E. }
  now apply IH.
Qed.

(** The source program passes both static checks. *)
Lemma indicator_blocks_closed : forallb block_closed indicator_blocks = true.
Proof. vm_compute. reflexivity. Qed.

Lemma indicator_blocks_ordered : ordered (flatten indicator_blocks) = true.
Proof. vm_compute. reflexivity. Qed.

Lemma derive_total (df : frame) : exists df', derive df = Some df'.
Proof. apply exec_blocks_total, indicator_blocks_closed. Qed.

End DerivedFacts.

(** ** Arithmetic on cells *)

Section NumberFacts.

Lemma Qltb_true (x y : Q) : Qltb x y = true <-> (x < y)%Q.
Proof.
  unfold Qltb. rewrite negb_true_iff. split.
  - intros H. apply Qnot_le_lt. intros Hle. apply Qle_bool_iff in Hle. congruence.
  - intros H. destruct (Qle_bool y x) eqn:E; auto.
    apply Qle_bool_iff in E. exfalso. apply (Qlt_not_le _ _ H E).
Qed.

Lemma Qeq_bool_false_of_pos (y : Q) : (0 < y)%Q -> Qeq_bool y 0 = false.
Proof.
  intros H. destruct (Qeq_bool y 0) eqn:E; auto.
  apply Qeq_bool_iff in E. rewrite E in H. exfalso. apply (Qlt_irrefl _ H).
Qed.

Lemma pct_bounds (n d : Q) :
  (0 < d)%Q -> (0 <= n)%Q -> (n <= d)%Q ->
  (0 <= n / d * 100)%Q /\ (n / d * 100 <= 100)%Q.
Proof.
  intros Hd H0 H1.
  assert (A : (0 <= n / d)%Q) by (apply Qle_shift_div_l; auto; lra).
  assert (B : (n / d <= 1)%Q) by (apply Qle_shift_div_r; auto; lra).
  split; lra.
Qed.

Lemma xadd_finite (a b : xnum) :
  is_finite a = true -> is_finite b = true -> is_finite (xadd a b) = true.
Proof. destruct a, b; simpl; auto. Qed.

Lemma fillna0_finite (a : xnum) : is_finite a = true -> fillna0 a = a.
Proof. destruct a; simpl; auto; discriminate. Qed.

(** [safe_divide] on one row, positive finite denominator *)
Lemma safe_divide_cell_pos (qn qd : Q) :
  (0 < qd)%Q ->
  safe_divide_cell zero (Fin qn) (Fin qd) = Fin (Qred (Qred (qn / qd) * 100)).
Proof.
  intros Hd. unfold safe_divide_cell, gt0, xdiv, hundred. simpl.
  rewrite (proj2 (Qltb_true 0 qd) Hd). simpl.
  now rewrite Qeq_bool_false_of_pos.
Qed.

Lemma safe_divide_cell_nonpos (n d : xnum) :
  gt0 d = false -> safe_divide_cell zero n d = zero.
Proof. intros H. unfold safe_divide_cell. now rewrite H. Qed.

Lemma safe_divide_cell_finite (n d : xnum) :
  is_finite n = true -> is_finite d = true ->
  is_finite (safe_divide_cell zero n d) = true.
Proof.
  destruct n as [qn| | |], d as [qd| | |]; simpl; try discriminate. intros _ _.
  destruct (gt0 (Fin qd)) eqn:E.
  - apply Qltb_true in E. now rewrite safe_divide_cell_pos.
  - now rewrite safe_divide_cell_nonpos.
Qed.

End NumberFacts.

(** ** Derived Indicator Calculator on tables without NaN or infinities *)

Section DerivedFinite.

Let finite_series (v : series) : Prop := Forall (fun a => is_finite a = true) v.

Lemma zip_xadd_finite (v w : series) :
  finite_series v -> finite_series w -> finite_series (zip_with xadd v w).
Proof.
  unfold finite_series. intros Hv Hw. apply zip_with_Forall. intros a b Ha Hb.
  rewrite Forall_forall in Hv, Hw. apply xadd_finite; auto.
Qed.

Lemma map_fillna0_finite (v : series) : finite_series v -> map fillna0 v = v.
Proof.
  unfold finite_series. induction 1; simpl; auto.
  rewrite fillna0_finite by assumption. now f_equal.
Qed.

Lemma sum_axis1_finite (cs : list series) :
  Forall finite_series cs -> finite_series (sum_axis1 cs).
Proof.
  destruct cs as [|c rest]; simpl; [constructor|].
  intros H. inversion H as [|? ? Hc Hrest]; subst.
  rewrite (map_fillna0_finite c Hc). clear H.
  revert c Hc. induction Hrest as [|r rest Hr _ IH]; simpl; intros c Hc; auto.
  apply IH. rewrite (map_fillna0_finite r Hr). now apply zip_xadd_finite.
Qed.

Lemma get_cols_finite (cs : list string) (df : frame) (vs : list series) :
  all_finite df -> get_cols cs df = Some vs -> Forall finite_series vs.
Proof.
  intros Hdf. revert vs. induction cs as [|c cs IH]; simpl; intros vs.
  - intros [= <-]. constructor.
  - destruct (get_col c df) as [v|] eqn:Ev; [|discriminate].
    destruct (get_cols cs df) as [ws|]; [|discriminate].
    intros [= <-]. constructor; auto.
    eapply all_finite_get; eauto.
Qed.

Lemma eval_operand_finite (o : operand) (df : frame) (v : series) :
  all_finite df -> eval_operand df o = Some v -> finite_series v.
Proof.
  intros Hdf. destruct o as [c|cs|a b]; simpl.
  - intros H. eapply all_finite_get; eauto.
  - destruct (get_cols cs df) as [vs|] eqn:E; simpl; [|discriminate].
    intros [= <-]. apply sum_axis1_finite. eapply get_cols_finite; eauto.
  - destruct (get_col a df) as [va|] eqn:Ea; [|discriminate].
    destruct (get_col b df) as [vb|] eqn:Eb; [|discriminate].
    intros [= <-]. apply zip_xadd_finite; eapply all_finite_get; eauto.
Qed.

Lemma eval_finite (e : expr) (df : frame) (v : series) :
  all_finite df -> eval df e = Some v -> finite_series v.
Proof.
  intros Hdf. destruct e as [o|num den]; simpl.
  - now apply eval_operand_finite.
  - destruct (eval_operand df num) as [n|] eqn:En; [|discriminate].
    destruct (get_col den df) as [d|] eqn:Ed; [|discriminate].
    intros [= <-]. unfold safe_divide. apply zip_with_Forall. intros a b Ha Hb.
    pose proof (eval_operand_finite num df n Hdf En) as Hn.
    pose proof (all_finite_get den d df Hdf Ed) as Hd.
    unfold finite_series in Hn. rewrite Forall_forall in Hn, Hd.
    apply safe_divide_cell_finite; auto.
Qed.

Lemma run_gs_finite (gs : list gassign) (df df' : frame) :
  all_finite df -> run_gs gs df = Some df' -> all_finite df'.
Proof.
  revert df. induction gs as [|g gs IH]; simpl; intros df Hdf.
  - now intros [= <-].
  - destruct (run_g df g) as [df1|] eqn:E; [|discriminate].
    apply IH. unfold run_g, assign in E. destruct (forallb _ _).
    + destruct (eval df (rhs g)) as [v|] eqn:Ev; simpl in E; [|discriminate].
      injection E as <-. apply all_finite_set; auto.
      eapply eval_finite; eauto.
    + now injection E as <-.
Qed.

Lemma derive_finite (df df' : frame) :
  all_finite df -> derive df = Some df' -> all_finite df'.
Proof.
  unfold derive. rewrite exec_blocks_flat. apply run_gs_finite.
Qed.

End DerivedFinite.

(** ** Risk scorer: which columns are written, and in what order *)

Section Writes.

Lemma writes_app (s s1 s2 : frame) (w1 w2 : list string) :
  writes s w1 s1 -> writes s1 w2 s2 -> writes s (w1 ++ w2) s2.
Proof.
  induction 1; simpl; intros H2; auto.
  econstructor. eauto.
Qed.

Lemma writes_one (s : frame) (c : string) (v : series) :
  writes s [c] (set_col c v s).
Proof. econstructor. constructor. Qed.

Lemma writes_frame (s s' : frame) (ws : list string) (c : string) :
  writes s ws s' -> ~ In c ws -> get_col c s' = get_col c s.
Proof.
  induction 1 as [|s c' v ws s' _ IH]; simpl; intros Hc; auto.
  rewrite IH by tauto. apply get_col_set_other. intros ->. tauto.
Qed.

Lemma writes_has_col_mono (s s' : frame) (ws : list string) (c : string) :
  writes s ws s' -> has_col c s = true -> has_col c s' = true.
Proof.
  induction 1 as [|s c' v ws s' _ IH]; auto.
  intros H. apply IH. now apply has_col_set_mono.
Qed.

Lemma writes_has_written (s s' : frame) (ws : list string) (c : string) :
  writes s ws s' -> In c ws -> has_col c s' = true.
Proof.
  induction 1 as [|s c' v ws s' Hw IH]; simpl; [tauto|].
  intros [->|Hin]; auto.
  eapply writes_has_col_mono; eauto. apply has_col_set_same.
Qed.

Lemma set_col_absent {V} (c : string) (v : V) (df : table V) :
  has_col c df = false -> set_col c v df = (df ++ [(c, v)])%list.
Proof.
  unfold has_col. induction df as [|[n w] rest IH]; simpl; auto.
  destruct (String.eqb c n); [discriminate|].
  intros H. now rewrite IH.
Qed.

Lemma has_col_app {V} (c : string) (d1 d2 : table V) :
  has_col c (d1 ++ d2) = has_col c d1 || has_col c d2.
Proof.
  unfold has_col. induction d1 as [|[n w] rest IH]; simpl; auto.
  destruct (String.eqb c n); auto.
Qed.

(** Writing fresh, pairwise distinct names appends them in order. *)
Lemma writes_fresh (s s' : frame) (ws : list string) :
  writes s ws s' -> NoDup ws -> (forall c, In c ws -> has_col c s = false) ->
  exists ext, s' = (s ++ ext)%list /\ columns ext = ws.
Proof.
  induction 1 as [s|s c v ws s' _ IH]; intros Hnd Hfresh.
  - exists []. now rewrite app_nil_r.
  - inversion Hnd as [|? ? Hnotin Hnd']; subst.
    rewrite set_col_absent in IH by (apply Hfresh; now left).
    destruct IH as (ext & -> & Hcols); auto.
    + intros c' Hc'. rewrite has_col_app, Hfresh by now right. simpl.
      unfold has_col. simpl. destruct (String.eqb c' c) eqn:E; auto.
      apply String.eqb_eq in E. subst. contradiction.
    + exists ((c, v) :: ext). rewrite <- app_assoc. simpl. split; auto.
      unfold columns in *. simpl. now f_equal.
Qed.

Lemma subseq_refl {A} (l : list A) : subseq l l.
Proof. induction l; [apply subseq_nil | now apply subseq_keep]. Qed.

Lemma subseq_nil_l {A} (l : list A) : subseq [] l.
Proof. induction l; constructor; auto. Qed.

Lemma subseq_In {A} (l m : list A) (x : A) : subseq l m -> In x l -> In x m.
Proof.
  induction 1; simpl; auto.
  intros [->|H']; auto.
Qed.

Lemma subseq_NoDup {A} (l m : list A) : subseq l m -> NoDup m -> NoDup l.
Proof.
  induction 1 as [|x l m Hs IH|x l m Hs IH]; intros Hnd; auto.
  - inversion Hnd; auto.
  - inversion Hnd as [|? ? Hn Hnd']; subst. constructor; auto.
    intros Hin. apply Hn. eapply subseq_In; eauto.
Qed.

Lemma subseq_filter {A} (p : A -> bool) (l : list A) : subseq (filter p l) l.
Proof.
  induction l as [|a l IH]; simpl; [constructor|].
  destruct (p a); [now apply subseq_keep | now apply subseq_skip].
Qed.

Lemma subseq_map {A B} (f : A -> B) (l m : list A) :
  subseq l m -> subseq (map f l) (map f m).
Proof.
  induction 1; simpl;
    [apply subseq_nil | now apply subseq_skip | now apply subseq_keep].
Qed.

Lemma subseq_app {A} (l1 m1 l2 m2 : list A) :
  subseq l1 m1 -> subseq l2 m2 -> subseq (l1 ++ l2) (m1 ++ m2).
Proof.
  induction 1; simpl; intros H2; auto;
    [apply subseq_skip | apply subseq_keep]; auto.
Qed.

Lemma subseq_flat_map {A B} (f g : A -> list B) (l : list A) :
  (forall a, In a l -> subseq (f a) (g a)) -> subseq (flat_map f l) (flat_map g l).
Proof.
  induction l as [|a l IH]; simpl; intros H; [constructor|].
  apply subseq_app; auto.
Qed.

End Writes.

Section ScorerFacts.

Variable sqrtQ : Q -> Q.

Lemma nodupb_NoDup (l : list string) : nodupb l = true -> NoDup l.
Proof.
  induction l as [|c l IH]; simpl; [constructor|].
  intros H. apply andb_prop in H as [Hc Hl]. constructor; auto.
  apply negb_true_iff in Hc. now apply (proj1 (mem_false c l)).
Qed.

Lemma written_names_NoDup : NoDup written_names.
Proof. apply nodupb_NoDup. vm_compute. reflexivity. Qed.

Lemma group_names_NoDup : NoDup (flat_map full_group_columns risk_groups).
Proof. apply nodupb_NoDup. vm_compute. reflexivity. Qed.

Lemma factors_not_written (f : string) :
  In f all_risk_factors -> ~ In f written_names.
Proof.
  intros Hf. apply mem_false.
  assert (H : forallb (fun f => negb (mem f written_names)) all_risk_factors = true)
    by (vm_compute; reflexivity).
  rewrite forallb_forall in H. now apply negb_true_iff, H.
Qed.

Lemma group_columns_subseq (s : frame) (group : string * list string) :
  subseq (group_columns s group) (full_group_columns group).
Proof.
  unfold group_columns, full_group_columns.
  remember (filter (fun f => has_col f s) (snd group)) as av eqn:E.
  destruct av as [|a l]; [apply subseq_nil_l|].
  apply subseq_app; [|apply subseq_refl].
  apply subseq_map. rewrite E. apply subseq_filter.
Qed.

Lemma group_columns_written (s : frame) (group : string * list string) (c : string) :
  In group risk_groups -> In c (group_columns s group) -> In c written_names.
Proof.
  intros Hg Hc. unfold written_names. apply in_or_app. left.
  apply in_flat_map. exists group. split; auto.
  eapply subseq_In; eauto. apply group_columns_subseq.
Qed.

Lemma standardize_writes (s : frame) (f : string) :
  has_col f s = true -> writes s [std_name f] (standardize sqrtQ s f).
Proof.
  unfold has_col, standardize. destruct (get_col f s) as [v|]; [|discriminate].
  intros _. destruct (gt0 _); apply writes_one.
Qed.

Lemma fold_standardize_writes (fs : list string) (s : frame) :
  (forall f, In f fs -> has_col f s = true) ->
  writes s (map std_name fs) (fold_left (standardize sqrtQ) fs s).
Proof.
  revert s. induction fs as [|f fs IH]; simpl; intros s H; [constructor|].
  pose proof (standardize_writes s f (H f (or_introl eq_refl))) as Hw.
  apply (writes_app s _ _ [std_name f] _ Hw). apply IH.
  intros f' Hf'. eapply writes_has_col_mono; eauto.
Qed.

Lemma score_group_writes (s : frame) (group : string * list string) :
  writes s (group_columns s group) (score_group sqrtQ s group).
Proof.
  destruct group as [g fs]. unfold group_columns, score_group. cbn [fst snd].
  remember (filter (fun f => has_col f s) fs) as av eqn:E.
  destruct av as [|a l]; [constructor|].
  eapply writes_app; [|apply writes_one].
  apply fold_standardize_writes. intros f Hf.
  rewrite E in Hf. now apply filter_In in Hf as [_ Hf].
Qed.

Lemma group_columns_stable (s s' : frame) (ws : list string) (group : string * list string) :
  writes s ws s' -> (forall c, In c ws -> In c written_names) ->
  In group risk_groups ->
  group_columns s' group = group_columns s group.
Proof.
  intros Hw Hws Hg. unfold group_columns.
  assert (E : filter (fun f => has_col f s') (snd group)
              = filter (fun f => has_col f s) (snd group)).
  { apply filter_ext_in. intros f Hf. unfold has_col.
    rewrite (writes_frame s s' ws f Hw); auto.
    intros Hin. apply (factors_not_written f); auto.
    unfold all_risk_factors. apply in_flat_map. now exists group. }
  now rewrite E.
Qed.

Lemma fold_score_group_writes (groups : list (string * list string)) (s0 s : frame)
      (w0 : list string) :
  (forall g, In g groups -> In g risk_groups) ->
  writes s0 w0 s -> (forall c, In c w0 -> In c written_names) ->
  writes s0 (w0 ++ flat_map (group_columns s0) groups)
         (fold_left (score_group sqrtQ) groups s).
Proof.
  revert s w0.
  induction groups as [|grp groups IH]; cbn [flat_map fold_left]; intros s w0 Hin Hw Hw0.
  - now rewrite app_nil_r.
  - assert (Hgrp : In grp risk_groups) by (apply Hin; now left).
    rewrite app_assoc. apply IH.
    + intros g Hg. apply Hin. now right.
    + rewrite <- (group_columns_stable s0 s w0 grp Hw Hw0 Hgrp).
      eapply writes_app; eauto. apply score_group_writes.
    + intros c Hc. apply in_app_or in Hc as [Hc|Hc]; auto.
      eapply group_columns_written; eauto.
Qed.

(** The numeric part of the scorer assigns the columns of the categories
    with a factor present, in order. *)
Lemma scorer_writes (df : frame) :
  writes df (flat_map (group_columns df) risk_groups)
         (fold_left (score_group sqrtQ) risk_groups df).
Proof.
  apply (fold_score_group_writes risk_groups df df []); auto.
  - constructor.
  - intros c [].
Qed.

Lemma scorer_writes_subseq (df : frame) :
  subseq (flat_map (group_columns df) risk_groups)
         (flat_map full_group_columns risk_groups).
Proof. apply subseq_flat_map. intros; apply group_columns_subseq. Qed.

Lemma get_col_lift (c : string) (df : frame) :
  get_col c (lift df) = option_map Numeric (get_col c df).
Proof.
  induction df as [|[n v] rest IH]; simpl; auto.
  destruct (String.eqb c n); auto.
Qed.

Lemma has_col_lift (c : string) (df : frame) : has_col c (lift df) = has_col c df.
Proof. unfold has_col. rewrite get_col_lift. now destruct (get_col c df). Qed.

Lemma columns_lift (df : frame) : columns (lift df) = columns df.
Proof.
  unfold columns, lift. rewrite map_map. apply map_ext. now intros [n v].
Qed.

Lemma lift_app (d1 d2 : frame) : lift (d1 ++ d2) = lift d1 ++ lift d2.
Proof. unfold lift. apply map_app. Qed.

End ScorerFacts.

(** ** Reshaper: rows, columns and cells of the pivot *)

Section ReshaperFacts.

Lemma key_eqb_eq (a b : string * string) : key_eqb a b = true <-> a = b.
Proof.
  destruct a as [a1 a2], b as [b1 b2]. unfold key_eqb. simpl.
  rewrite andb_true_iff, !String.eqb_eq. split.
  - intros [-> ->]. reflexivity.
  - intros [= -> ->]. auto.
Qed.

Lemma values_for_In (k : string * string) (c : string) (rows : list mapped_row) (x : xnum) :
  In x (values_for k c rows) <->
  exists m, In m rows /\ key m = k /\ friendly_name m = c /\ value m = x.
Proof.
  unfold values_for. rewrite in_map_iff. split.
  - intros (m & <- & Hm). apply filter_In in Hm as [Hin Hm].
    apply andb_prop in Hm as [Hk Hc]. apply key_eqb_eq in Hk. apply String.eqb_eq in Hc.
    exists m. auto.
  - intros (m & Hin & Hk & Hc & <-). exists m. split; auto.
    apply filter_In. split; auto. apply andb_true_iff. split.
    + now apply key_eqb_eq.
    + now apply String.eqb_eq.
Qed.

Lemma first_notna_spec (v : series) :
  notna (first_notna v) = true <-> exists x, In x v /\ notna x = true.
Proof.
  induction v as [|x v IH]; simpl.
  - split; [discriminate | intros (x & [] & _)].
  - destruct (notna x) eqn:E.
    + rewrite E. split; auto. intros _. exists x. auto.
    + rewrite IH. split.
      * intros (y & Hy & Hn). exists y. auto.
      * intros (y & [<-|Hy] & Hn); [congruence|]. exists y. auto.
Qed.

(** A mapped row survives the pivot when its cell has a numeric estimate. *)
Lemma surviving_spec (rows : list mapped_row) (k : string * string) (c : string) :
  (exists m, In m (filter (fun m => notna (first_notna
                       (values_for (key m) (friendly_name m) rows))) rows)
             /\ key m = k /\ friendly_name m = c)
  <-> exists m, In m rows /\ key m = k /\ friendly_name m = c /\ notna (value m) = true.
Proof.
  split.
  - intros (m & Hm & Hk & Hc). apply filter_In in Hm as [Hin Hn].
    apply first_notna_spec in Hn as (x & Hx & Hn).
    apply values_for_In in Hx as (m' & Hin' & Hk' & Hc' & <-).
    exists m'. repeat split; auto; congruence.
  - intros (m & Hin & Hk & Hc & Hn). exists m. repeat split; auto.
    apply filter_In. split; auto. apply first_notna_spec.
    exists (value m). split; auto. apply values_for_In. exists m. auto.
Qed.

Lemma pivot_index_NoDup (rows : list mapped_row) : NoDup (index (pivot rows)).
Proof.
  unfold pivot. simpl.
  eapply Permutation_NoDup; [apply KeySort.Permuted_sort|]. apply NoDup_nodup.
Qed.

Lemma pivot_index_In (rows : list mapped_row) (k : string * string) :
  In k (index (pivot rows)) <->
  exists m, In m rows /\ key m = k /\ notna (value m) = true.
Proof.
  unfold pivot. simpl. split.
  - intros H. apply (Permutation_in _ (Permutation_sym (KeySort.Permuted_sort _))) in H.
    apply nodup_In, in_map_iff in H as (m & Hk & Hm).
    destruct (proj1 (surviving_spec rows k (friendly_name m))) as (m' & A & B & C & D).
    { exists m. auto. }
    exists m'. auto.
  - intros (m & Hin & Hk & Hn).
    apply (Permutation_in _ (KeySort.Permuted_sort _)).
    apply nodup_In, in_map_iff.
    destruct (proj2 (surviving_spec rows k (friendly_name m))) as (m' & A & B & C).
    { exists m. auto. }
    exists m'. auto.
Qed.

Lemma pivot_columns_In (rows : list mapped_row) (c : string) :
  In c (columns (data (pivot rows))) <->
  exists m, In m rows /\ friendly_name m = c /\ notna (value m) = true.
Proof.
  unfold pivot, columns. simpl. rewrite map_map. simpl. rewrite map_id. split.
  - intros H. apply (Permutation_in _ (Permutation_sym (NameSort.Permuted_sort _))) in H.
    apply nodup_In, in_map_iff in H as (m & Hc & Hm).
    destruct (proj1 (surviving_spec rows (key m) c)) as (m' & A & B & C & D).
    { exists m. auto. }
    exists m'. auto.
  - intros (m & Hin & Hc & Hn).
    apply (Permutation_in _ (NameSort.Permuted_sort _)).
    apply nodup_In, in_map_iff.
    destruct (proj2 (surviving_spec rows (key m) c)) as (m' & A & B & C).
    { exists m. auto. }
    exists m'. auto.
Qed.

Lemma get_col_tabulate {V} (f : string -> V) (cols : list string) (c : string) (v : V) :
  get_col c (map (fun c => (c, f c)) cols) = Some v -> v = f c.
Proof.
  induction cols as [|c0 cols IH]; simpl; [discriminate|].
  destruct (String.eqb c c0) eqn:E; auto.
  apply String.eqb_eq in E. subst. now intros [= <-].
Qed.

(** Each cell is the first numeric estimate of its (GEOID, NAME) row and
    friendly name, or 0 when there is none. *)
Lemma pivot_cell (rows : list mapped_row) (c : string) (col : series) (i : nat)
      (k : string * string) :
  get_col c (data (pivot rows)) = Some col ->
  nth_error (index (pivot rows)) i = Some k ->
  nth_error col i = Some (fillna0 (first_notna (values_for k c rows))).
Proof.
  unfold pivot. simpl. intros Hc Hk.
  apply get_col_tabulate in Hc. subst col.
  rewrite nth_error_map, Hk. reflexivity.
Qed.

Lemma map_rows_filter (rows : list long_row) :
  map_rows (filter is_mapped rows) = map_rows rows.
Proof.
  unfold map_rows. induction rows as [|r rows IH]; simpl; auto.
  unfold is_mapped at 1.
  destruct (dict_get (variable r) variable_mapping) eqn:E; simpl.
  - rewrite E. simpl. now f_equal.
  - exact IH.
Qed.

Lemma map_rows_In (rows : list long_row) (m : mapped_row) :
  In m (map_rows rows) <->
  exists r name, In r rows /\ dict_get (variable r) variable_mapping = Some name
                 /\ m = MappedRow (GEOID r, NAME r) name (to_numeric (estimate r)).
Proof.
  unfold map_rows. rewrite in_flat_map. split.
  - intros (r & Hin & Hm).
    destruct (dict_get (variable r) variable_mapping) as [name|] eqn:E; [|contradiction].
    destruct Hm as [<-|[]]. exists r, name. auto.
  - intros (r & name & Hin & E & ->). exists r. split; auto. rewrite E. now left.
Qed.

(** The wide table is the pivot of the mapped rows; without any it is empty. *)
Lemma transform_is_pivot (rows : list long_row) :
  transform_to_wide_format rows = pivot (map_rows rows).
Proof.
  unfold transform_to_wide_format. destruct rows as [|r rows]; [reflexivity|].
  destruct (map_rows (r :: rows)); reflexivity.
Qed.

End ReshaperFacts.

(** ** Fetcher: the paging loop *)

Section FetcherFacts.

Variable row : Type.
Variable max_rows batch_limit : nat.
Variable api : endpoint row.

Let loop := fetch_loop max_rows batch_limit api.

Lemma Forall_removelast {A} (P : A -> Prop) (l : list A) :
  Forall P l -> Forall P (removelast l).
Proof.
  induction 1 as [|a l Ha Hl IH]; simpl; auto.
  destruct l; auto.
Qed.

Lemma invariant_result (st : fetch_state row) :
  paging_invariant max_rows batch_limit st -> paging_result max_rows batch_limit st.
Proof.
  intros (A & B & C & D & E). repeat split; auto. now apply Forall_removelast.
Qed.

Lemma pages_of_snoc (l : list (request row)) (r : request row) :
  pages_of (l ++ [r]) = pages_of l ++ match answer r with
                                     | Page data => data
                                     | RequestException => []
                                     end.
Proof. unfold pages_of. rewrite flat_map_app. simpl. now rewrite app_nil_r. Qed.

Lemma concat_snoc {A} (l : list (list A)) (d : list A) :
  List.concat (l ++ [d]) = List.concat l ++ d.
Proof. rewrite concat_app. simpl. now rewrite app_nil_r. Qed.

Lemma fetch_loop_result (fuel : nat) (st : fetch_state row) :
  honours_limit api -> paging_invariant max_rows batch_limit st ->
  paging_result max_rows batch_limit (loop fuel st).
Proof.
  intros Hapi. revert st. induction fuel as [|fuel IH]; intros st Hinv.
  - now apply invariant_result.
  - unfold loop in *. cbn [fetch_loop].
    destruct (Nat.ltb (total_rows st) max_rows) eqn:Elt; [|now apply invariant_result].
    apply Nat.ltb_lt in Elt.
    set (batch_size := Nat.min batch_limit (max_rows - total_rows st)).
    destruct (Nat.leb batch_size 0) eqn:Eb; [now apply invariant_result|].
    apply Nat.leb_gt in Eb.
    destruct Hinv as (A & B & C & D & E).
    assert (Hask : asks_within batch_limit (Request batch_size (offset st)
                      (api (List.length (log st)) batch_size (offset st)))).
    { unfold asks_within. simpl. unfold batch_size in *. lia. }
    destruct (api (List.length (log st)) batch_size (offset st)) as [data|] eqn:Eresp.
    + pose proof (Hapi _ _ _ _ Eresp) as Hlen.
      destruct (Nat.ltb 0 (List.length data)) eqn:Epos.
      * assert (Hnext : total_rows st + List.length data = List.length
                  (List.concat (all_data st ++ [data]))
                /\ List.concat (all_data st ++ [data])
                   = pages_of (log st ++ [Request batch_size (offset st) (Page data)])
                /\ total_rows st + List.length data <= max_rows).
        { rewrite concat_snoc, pages_of_snoc, length_app. simpl.
          repeat split; try congruence. unfold batch_size in Hlen. lia. }
        destruct Hnext as (A' & B' & E').
        destruct (Nat.ltb (List.length data) batch_size) eqn:Eshort.
        -- repeat split; simpl; auto.
           ++ now rewrite removelast_last.
           ++ apply Forall_app. split; auto.
        -- apply IH. repeat split; simpl; auto.
           ++ apply Forall_app. split; auto. constructor; auto.
              unfold full_page. simpl. apply Nat.ltb_ge in Eshort. lia.
           ++ apply Forall_app. split; auto.
      * apply Nat.ltb_ge in Epos.
        assert (data = []) by (destruct data; simpl in *; [auto | lia]). subst data.
        repeat split; simpl; auto.
        -- rewrite pages_of_snoc. simpl. now rewrite app_nil_r.
        -- now rewrite removelast_last.
        -- apply Forall_app. split; auto.
    + repeat split; simpl; auto.
      * rewrite pages_of_snoc. simpl. now rewrite app_nil_r.
      * now rewrite removelast_last.
      * apply Forall_app. split; auto.
Qed.

(** The fuel never runs out: any amount from [max_rows - total_rows] on
    gives the same final state. *)
Lemma fetch_loop_fuel (f1 f2 : nat) (st : fetch_state row) :
  max_rows - total_rows st <= f1 -> max_rows - total_rows st <= f2 ->
  loop f1 st = loop f2 st.
Proof.
  unfold loop. revert f2 st. induction f1 as [|f1 IH]; intros f2 st H1 H2.
  - assert (E : Nat.ltb (total_rows st) max_rows = false) by (apply Nat.ltb_ge; lia).
    destruct f2; cbn [fetch_loop]; [reflexivity | now rewrite E].
  - destruct f2 as [|f2].
    + assert (E : Nat.ltb (total_rows st) max_rows = false) by (apply Nat.ltb_ge; lia).
      cbn [fetch_loop]. now rewrite E.
    + cbn [fetch_loop].
      destruct (Nat.ltb (total_rows st) max_rows) eqn:Elt; auto.
      destruct (Nat.leb _ 0); auto.
      destruct (api _ _ _) as [data|]; auto.
      destruct (Nat.ltb 0 (List.length data)) eqn:Epos; auto.
      destruct (Nat.ltb (List.length data) _); auto.
      apply Nat.ltb_lt in Epos. apply IH; simpl; lia.
Qed.

End FetcherFacts.

(** ** Aggregator: counts per key *)

Section AggregatorFacts.

Lemma count_occ_keys_of (keyf : entity -> option (list string)) (es : list entity)
      (k : list string) :
  count_occ klist_dec (keys_of keyf es) k = List.length (filter (has_key keyf k) es).
Proof.
  unfold keys_of, has_key. induction es as [|e es IH]; simpl; auto.
  destruct (keyf e) as [k'|]; simpl; auto.
  destruct (klist_dec k' k); simpl; auto.
Qed.

Lemma lookup_count_tabulate (f : list string -> nat) (ks : list (list string))
      (k : list string) :
  lookup_count k (map (fun k => (k, f k)) ks) = if in_dec klist_dec k ks then Some (f k) else None.
Proof.
  induction ks as [|k0 ks IH]; simpl; auto.
  destruct (klist_dec k k0) as [->|Hne].
  - destruct (klist_dec k0 k0); [reflexivity | congruence].
  - rewrite IH. destruct (klist_dec k0 k); [congruence|].
    destruct (in_dec klist_dec k ks); reflexivity.
Qed.

(** The count merged into a totals row is the size of the group, 0 for a
    key without records. *)
Lemma merged_count (keyf : entity -> option (list string)) (es : list entity)
      (k : list string) :
  match lookup_count k (groupby_size keyf es) with
  | Some n => n
  | None => 0
  end = List.length (filter (has_key keyf k) es).
Proof.
  unfold groupby_size. rewrite lookup_count_tabulate.
  rewrite <- count_occ_keys_of.
  destruct (in_dec _ _ _) as [Hin|Hnin]; auto.
  symmetry. apply count_occ_not_In. intros Hk. apply Hnin.
  apply (Permutation_in _ (KeyListSort.Permuted_sort _)). now apply nodup_In.
Qed.

Lemma keys_of_without_unmatched (keyf : entity -> option (list string))
      (es : list entity) :
  (forall e, unmatched e = true -> keyf e = None) ->
  keys_of keyf (filter (fun e => negb (unmatched e)) es) = keys_of keyf es.
Proof.
  intros H. unfold keys_of. induction es as [|e es IH]; simpl; auto.
  destruct (unmatched e) eqn:E; simpl.
  - now rewrite (H e E).
  - now rewrite IH.
Qed.

Lemma unmatched_no_key (e : entity) :
  unmatched e = true ->
  tract_key e = None /\ zip_key e = None /\ type_key e = None.
Proof.
  unfold unmatched, tract_key, zip_key, type_key.
  destruct (tract_id e), (tract_name e), (zip_code e), (type_value e);
    simpl; intros H; try discriminate; auto.
Qed.

Lemma groupby_without_unmatched (keyf : entity -> option (list string))
      (es : list entity) :
  (forall e, unmatched e = true -> keyf e = None) ->
  groupby_size keyf (filter (fun e => negb (unmatched e)) es) = groupby_size keyf es.
Proof.
  intros H. unfold groupby_size. now rewrite keys_of_without_unmatched.
Qed.

(** The summaries do not depend on the unmatched records. *)
Lemma summaries_ignore_unmatched (ds : list (string * joined_dataset))
      (tracts : list (string * string)) :
  create_summary_tables (without_unmatched ds) tracts = create_summary_tables ds tracts.
Proof.
  unfold create_summary_tables, without_unmatched.
  assert (H1 : forall (keyf : entity -> option (list string)) (flag : joined_dataset -> bool)
                      (pre : string),
             (forall e, unmatched e = true -> keyf e = None) ->
             (forall a b c l, flag (JoinedDataset a b c l) = flag (JoinedDataset a b c [])) ->
             flat_map (fun '(name, gdf) =>
                         if flag gdf then [((pre ++ name)%string, groupby_size keyf (entities gdf))]
                         else [])
               (map (fun '(name, gdf) =>
                       (name, JoinedDataset (has_tract_id gdf) (has_zip_code gdf)
                                (has_type_col gdf)
                                (filter (fun e => negb (unmatched e)) (entities gdf)))) ds)
             = flat_map (fun '(name, gdf) =>
                         if flag gdf then [((pre ++ name)%string, groupby_size keyf (entities gdf))]
                         else []) ds).
  { intros keyf flag pre Hk Hflag. induction ds as [|[name [a b c l]] ds IH]; simpl; auto.
    rewrite IH. rewrite (Hflag a b c (filter _ l)), <- (Hflag a b c l).
    destruct (flag _); simpl; auto. now rewrite groupby_without_unmatched. }
  pose proof (H1 tract_key has_tract_id ""
                (fun e He => proj1 (unmatched_no_key e He))
                (fun _ _ _ _ => eq_refl)) as Ht.
  pose proof (H1 zip_key has_zip_code ""
                (fun e He => proj1 (proj2 (unmatched_no_key e He)))
                (fun _ _ _ _ => eq_refl)) as Hz.
  pose proof (H1 type_key (fun g => has_tract_id g && has_type_col g) "tract_type_summary_"
                (fun e He => proj2 (proj2 (unmatched_no_key e He)))
                (fun _ _ _ _ => eq_refl)) as Hy.
  simpl in Ht, Hz. rewrite Ht, Hz, Hy. reflexivity.
Qed.

End AggregatorFacts.

(** ** Orchestrator: which failures are contained *)

Section OrchestratorFacts.

Variable cfg : config.
Variable env : collaborators.

Lemma get_col_map_values {V W} (f : V -> W) (k : string) (t : table V) :
  get_col k (map (fun '(n, v) => (n, f v)) t) = option_map f (get_col k t).
Proof.
  induction t as [|[n v] rest IH]; simpl; auto.
  destruct (String.eqb k n); auto.
Qed.

(** A source block returns whenever its switch can be read; it touches
    only its own key of [collected_data]; and if the source is enabled and
    its collector is missing or its attempt raises, the fallback is stored. *)
Lemma collect_source_spec (switch : string) (available : bool) (data_key : string)
      (attempt : state -> outcome stored) (fallback : stored) (st : state) (b : bool) :
  lookup cfg "data_sources" switch = Returns b ->
  exists st',
    collect_source cfg switch available data_key attempt fallback st = Returns st'
    /\ analysis_results st' = analysis_results st
    /\ spatial_data st' = spatial_data st
    /\ (forall k, k <> data_key ->
          get_col k (collected_data st') = get_col k (collected_data st))
    /\ (b = true -> available = false \/ raised (attempt st) = true ->
          get_col data_key (collected_data st') = Some fallback)
    /\ (b = true -> forall v, attempt st = Returns v ->
          available = true -> get_col data_key (collected_data st') = Some v).
Proof.
  intros Hl. unfold collect_source. rewrite Hl. simpl.
  destruct b; simpl.
  - destruct available; simpl.
    + destruct (attempt st) as [v|e] eqn:Ea; eexists; (split; [reflexivity|]);
        simpl; repeat split; auto;
        try (intros k Hk; now apply get_col_set_other).
      * intros _ [H|H]; discriminate.
      * intros _ v' [= <-] _. apply get_col_set_same.
      * intros _ _. apply get_col_set_same.
      * intros _ v' H. discriminate.
    + eexists. split; [reflexivity|]. simpl. repeat split; auto.
      * intros k Hk. now apply get_col_set_other.
      * intros _ _. apply get_col_set_same.
      * intros _ v _ H. discriminate.
  - eexists. split; [reflexivity|]. repeat split; auto; intros H; discriminate.
Qed.


Lemma analysis_phase_returns (st : state) :
  exists st', analyze_social_isolation cfg env st = Returns st'
              /\ collected_data st' = collected_data st.
Proof.
  unfold analyze_social_isolation.
  destruct (negb (acs_data_empty st) && isolation_analyzer env);
    [|eexists; split; reflexivity].
  eexists. split; [reflexivity|].
  destruct (housing_indicators env); auto.
  destruct (isolation_indicators env); auto.
  destruct (lookup cfg "analysis_options" "calculate_risk_scores") as [[|]|]; auto.
  - destruct (risk_scores env); auto;
      destruct (lookup cfg "analysis_options" "create_composite_indices") as [[|]|]; auto;
      destruct (composite_analysis env); auto.
  - destruct (lookup cfg "analysis_options" "create_composite_indices") as [[|]|]; auto.
    destruct (composite_analysis env); auto.
Qed.

Lemma report_step_collected (k : string) (r : outcome nat) (st : state) :
  collected_data (report_step k r st) = collected_data st.
Proof. destruct r; reflexivity. Qed.


End OrchestratorFacts.

(** ** Derived Indicator Calculator: ranges, missing columns, re-runs *)

Lemma pct_row_safe_divide (n d : xnum) :
  pct_row n d (replace_special (safe_divide_cell zero n d)).
Proof.
  split; [apply replace_special_finite|]. split.
  - intros H. now rewrite safe_divide_cell_nonpos.
  - intros qn qd -> -> Hd. rewrite safe_divide_cell_pos by assumption. simpl.
    eexists. split; [reflexivity|].
    assert (E : (Qred (Qred (qn / qd) * 100) == qn / qd * 100)%Q)
      by (now rewrite !Qred_correct).
    split; [exact E|]. intros H0 H1. rewrite E. now apply pct_bounds.
Qed.

Lemma percentage_indicator_in (out : string) (num : operand) (den : string)
      (G : list string) :
  In (out, num, den, G) percentage_indicators ->
  In (GAssign G out (Pct num den)) (flatten indicator_blocks).
Proof.
  unfold percentage_indicators. intros H.
  apply in_flat_map in H as (g & Hg & Hin).
  destruct g as [G' t' [o|n' d']]; simpl in Hin; [contradiction|].
  destruct Hin as [[= <- <- <- <-]|[]]. exact Hg.
Qed.

Lemma denominators_are_sources :
  forallb (fun '(_, _, den, _) => negb (mem den derived_names)) percentage_indicators = true.
Proof. vm_compute. reflexivity. Qed.

Lemma derive_keeps_sources (t t' : frame) (c : string) :
  derive t = Some t' -> ~ In c derived_names -> get_col c t' = get_col c t.
Proof.
  unfold derive. rewrite exec_blocks_flat. intros H Hc.
  eapply run_gs_frame; eauto.
Qed.

(** C1, as stated, fails: nothing clamps a percentage.  With
    [Owner_Occupied = 300] and [Total_Occupied_Units = 100] (denominator
    > 0) the calculator returns [Percent_Owner_Occupied = 300], outside
    [0, 100]. *)
Lemma percent_not_clamped :
  get_col "Total_Occupied_Units" over_table = Some [Fin 100]
  /\ (exists t1, calculate_derived_indicators over_table = Some t1
                 /\ get_col "Percent_Owner_Occupied" t1 = Some [Fin 300])
  /\ ~ (300 <= 100)%Q.
Proof.
  split; [reflexivity|]. split.
  - eexists. split; [vm_compute; reflexivity | reflexivity].
  - intros H. vm_compute in H. now apply H.
Qed.

(** *** The two presence-tested rates of the housing-quality step *)

Lemma rate_cell_pos (qn qd : Q) :
  (0 < qd)%Q ->
  xmul (xdiv (Fin qn) (Fin qd)) hundred = Fin (Qred (Qred (qn / qd) * 100)).
Proof.
  intros Hd. unfold xdiv, hundred. now rewrite Qeq_bool_false_of_pos.
Qed.

Lemma overcrowding_rate_other (c : string) (df : frame) :
  c <> "Overcrowding_Rate" -> get_col c (overcrowding_rate df) = get_col c df.
Proof.
  intros Hc. unfold overcrowding_rate. destruct (filter _ _); auto.
  now apply get_col_set_other.
Qed.

Lemma renter_rate_other (c : string) (df : frame) :
  c <> "Renter_Rate" -> get_col c (renter_rate df) = get_col c df.
Proof.
  intros Hc. unfold renter_rate.
  destruct (get_col "Renter_Occupied" df); auto.
  destruct (get_col "Occupied_Units" df); auto.
  now apply get_col_set_other.
Qed.

Lemma mobile_home_rate_other (c : string) (df : frame) :
  c <> "Mobile_Home_Rate" -> get_col c (mobile_home_rate df) = get_col c df.
Proof.
  intros Hc. unfold mobile_home_rate. destruct (get_col "Mobile_Home" df); auto.
  now apply get_col_set_other.
Qed.

Lemma old_housing_rate_other (c : string) (df : frame) :
  c <> "Old_Housing_Rate" -> get_col c (old_housing_rate df) = get_col c df.
Proof.
  intros Hc. unfold old_housing_rate. destruct (filter _ _); auto.
  now apply get_col_set_other.
Qed.

Lemma cost_burden_rate_other (c : string) (df : frame) :
  c <> "High_Housing_Cost_Burden_Rate" ->
  get_col c (high_housing_cost_burden_rate df) = get_col c df.
Proof.
  intros Hc. unfold high_housing_cost_burden_rate. destruct (filter _ _); auto.
  now apply get_col_set_other.
Qed.

Lemma vacancy_rate_other (c : string) (df : frame) :
  c <> "Housing_Vacancy_Rate" -> get_col c (housing_vacancy_rate df) = get_col c df.
Proof.
  intros Hc. unfold housing_vacancy_rate.
  destruct (get_col "Total_Housing_Units" df); auto.
  destruct (get_col "Occupied_Units" df); auto.
  now apply get_col_set_other.
Qed.

Lemma renter_rate_column (t : frame) (r o : series) :
  get_col "Renter_Occupied" t = Some r -> get_col "Occupied_Units" t = Some o ->
  get_col "Renter_Rate" (calculate_housing_quality_indicators t)
  = Some (zip_with (fun n d => xmul (xdiv n d) hundred) r o).
Proof.
  intros Hr Ho. unfold calculate_housing_quality_indicators.
  set (d3 := mobile_home_rate _).
  assert (Hsrc : forall c, In c ["Renter_Occupied"; "Occupied_Units"] ->
            get_col c d3 = get_col c t).
  { intros c Hc. subst d3.
    rewrite mobile_home_rate_other, old_housing_rate_other, cost_burden_rate_other,
      vacancy_rate_other; auto;
      simpl in Hc; destruct Hc as [<-|[<-|[]]]; discriminate. }
  rewrite overcrowding_rate_other by discriminate.
  unfold renter_rate.
  rewrite (Hsrc "Renter_Occupied"), (Hsrc "Occupied_Units"), Hr, Ho by (simpl; auto).
  apply get_col_set_same.
Qed.

Lemma vacancy_rate_column (t : frame) (tot o : series) :
  get_col "Total_Housing_Units" t = Some tot -> get_col "Occupied_Units" t = Some o ->
  get_col "Housing_Vacancy_Rate" (calculate_housing_quality_indicators t)
  = Some (map fillna0
            (zip_with (fun n d => xmul (xdiv n d) hundred) (zip_with xsub tot o) tot)).
Proof.
  intros Ht Ho. unfold calculate_housing_quality_indicators.
  rewrite overcrowding_rate_other, renter_rate_other, mobile_home_rate_other,
    old_housing_rate_other, cost_burden_rate_other by discriminate.
  unfold housing_vacancy_rate. rewrite Ht, Ho. apply get_col_set_same.
Qed.

(** C1 (amended).  For every table and every percentage indicator the
    calculator computes in this run (its guard columns are present), each
    row of the output column is a finite number, never NaN or infinite; it
    is exactly 0 when the row's denominator is not > 0; and when the
    denominator is > 0 it is [numerator / denominator * 100], which lies in
    [0, 100] when [0 <= numerator <= denominator].  The numerator is the
    operand as the run evaluated it; the denominator is a source column of
    the input table.  In the analyzer, [Renter_Rate] and
    [Housing_Vacancy_Rate] satisfy the same equation and bound in every row
    whose denominator is a number > 0. *)
Theorem derived_percentage_rows :
  (forall (t t1 : frame) (out : string) (num : operand) (den : string) (G : list string),
     In (out, num, den, G) percentage_indicators ->
     calculate_derived_indicators t = Some t1 ->
     forallb (fun c => has_col c t1) G = true ->
     exists t' nums dens cells,
       derive t = Some t'
       /\ eval_operand t' num = Some nums
       /\ get_col den t = Some dens
       /\ get_col out t1 = Some cells
       /\ List.length cells = Nat.min (List.length nums) (List.length dens)
       /\ forall i n d c,
            nth_error nums i = Some n -> nth_error dens i = Some d ->
            nth_error cells i = Some c -> pct_row n d c)
  /\ (forall (t : frame) (r o : series),
        get_col "Renter_Occupied" t = Some r -> get_col "Occupied_Units" t = Some o ->
        exists cells,
          get_col "Renter_Rate" (calculate_housing_quality_indicators t) = Some cells
          /\ List.length cells = Nat.min (List.length r) (List.length o)
          /\ forall i qn qd,
               nth_error r i = Some (Fin qn) -> nth_error o i = Some (Fin qd) ->
               (0 < qd)%Q ->
               exists qc, nth_error cells i = Some (Fin qc)
                          /\ (qc == qn / qd * 100)%Q
                          /\ ((0 <= qn)%Q -> (qn <= qd)%Q -> (0 <= qc)%Q /\ (qc <= 100)%Q))
  /\ (forall (t : frame) (tot o : series),
        get_col "Total_Housing_Units" t = Some tot -> get_col "Occupied_Units" t = Some o ->
        exists cells,
          get_col "Housing_Vacancy_Rate" (calculate_housing_quality_indicators t) = Some cells
          /\ List.length cells = Nat.min (List.length tot) (List.length o)
          /\ forall i qt qo,
               nth_error tot i = Some (Fin qt) -> nth_error o i = Some (Fin qo) ->
               (0 < qt)%Q ->
               exists qc, nth_error cells i = Some (Fin qc)
                          /\ (qc == (qt - qo) / qt * 100)%Q
                          /\ ((0 <= qo)%Q -> (qo <= qt)%Q -> (0 <= qc)%Q /\ (qc <= 100)%Q)).
Proof.
  split; [|split].
  - intros t t1 out num den G Hin Hcalc HG. unfold calculate_derived_indicators in Hcalc.
    destruct (derive t) as [t'|] eqn:Hd; [|discriminate].
    simpl in Hcalc. injection Hcalc as <-.
    assert (HG' : forallb (fun c => has_col c t') G = true).
    { rewrite <- HG. apply forallb_pointwise. intros c. now rewrite has_col_replace. }
    pose proof Hd as Hrun. unfold derive in Hrun. rewrite exec_blocks_flat in Hrun.
    destruct (run_gs_consistent _ indicator_blocks_ordered t t' Hrun _
                (percentage_indicator_in out num den G Hin)) as [Hset _].
    destruct (Hset HG') as (v & Hev & Hget). simpl in Hev, Hget.
    destruct (eval_operand t' num) as [nums|] eqn:En; [|discriminate].
    destruct (get_col den t') as [dens|] eqn:Ed; [|discriminate].
    injection Hev as <-.
    assert (Hsrc : ~ In den derived_names).
    { pose proof denominators_are_sources as Hs. rewrite forallb_forall in Hs.
      specialize (Hs _ Hin). simpl in Hs. apply negb_true_iff in Hs.
      now apply mem_false. }
    exists t', nums, dens, (map replace_special (safe_divide nums dens)).
    split; [reflexivity|]. split; [exact En|]. split.
    { rewrite <- Ed. symmetry. now apply derive_keeps_sources. }
    split. { rewrite get_col_replace, Hget. reflexivity. }
    split. { rewrite length_map. apply zip_with_length. }
    intros i n d c Hn Hdn Hc.
    rewrite nth_error_map in Hc.
    destruct (nth_error (safe_divide nums dens) i) as [x|] eqn:Ex; [|discriminate].
    injection Hc as <-.
    apply zip_with_nth in Ex as (a & b & Ha & Hb & ->).
    rewrite Hn in Ha. rewrite Hdn in Hb. injection Ha as <-. injection Hb as <-.
    apply pct_row_safe_divide.
  - intros t r o Hr Ho. eexists. split; [exact (renter_rate_column t r o Hr Ho)|].
    split; [apply zip_with_length|].
    intros i qn qd Hn Hd Hpos. exists (Qred (Qred (qn / qd) * 100)).
    assert (E : (Qred (Qred (qn / qd) * 100) == qn / qd * 100)%Q)
      by (now rewrite !Qred_correct).
    split; [|split; [exact E|]].
    + apply zip_with_nth. exists (Fin qn), (Fin qd). repeat split; auto.
      symmetry. now apply rate_cell_pos.
    + intros H0 H1. rewrite E. now apply pct_bounds.
  - intros t tot o Ht Ho. eexists. split; [exact (vacancy_rate_column t tot o Ht Ho)|].
    split.
    { rewrite length_map, !zip_with_length. lia. }
    intros i qt qo Hn Hd Hpos.
    exists (Qred (Qred (Qred (qt + Qred (- qo)) / qt) * 100)).
    assert (E : (Qred (Qred (Qred (qt + Qred (- qo)) / qt) * 100)
                 == (qt - qo) / qt * 100)%Q).
    { rewrite !Qred_correct. reflexivity. }
    split; [|split; [exact E|]].
    + rewrite nth_error_map.
      assert (Hz : nth_error (zip_with (fun n d => xmul (xdiv n d) hundred)
                                (zip_with xsub tot o) tot) i
                   = Some (Fin (Qred (Qred (Qred (qt + Qred (- qo)) / qt) * 100)))).
      { apply zip_with_nth. exists (Fin (Qred (qt + Qred (- qo)))), (Fin qt).
        repeat split; auto.
        - apply zip_with_nth. exists (Fin qt), (Fin qo). repeat split; auto.
        - symmetry. now apply rate_cell_pos. }
      rewrite Hz. reflexivity.
    + intros H0 H1. rewrite E.
      apply pct_bounds; auto; lra.
Qed.

Lemma scenario_2 : calculate_derived_indicators tenure_table = Some tenure_derived.
Proof. vm_compute. reflexivity. Qed.

Lemma derived_percentage_rows_witness :
  exists t' nums dens cells,
    derive tenure_table = Some t'
    /\ eval_operand t' (Col "Owner_Occupied") = Some nums
    /\ get_col "Total_Occupied_Units" tenure_table = Some dens
    /\ get_col "Percent_Owner_Occupied" tenure_derived = Some cells
    /\ List.length cells = Nat.min (List.length nums) (List.length dens)
    /\ forall i n d c,
         nth_error nums i = Some n -> nth_error dens i = Some d ->
         nth_error cells i = Some c -> pct_row n d c.
Proof.
  apply (proj1 derived_percentage_rows tenure_table tenure_derived
           "Percent_Owner_Occupied" (Col "Owner_Occupied") "Total_Occupied_Units"
           ["Owner_Occupied"; "Renter_Occupied"; "Total_Occupied_Units"]%string).
  - vm_compute. tauto.
  - vm_compute. reflexivity.
  - vm_compute. reflexivity.
Defined.

(** C2, as stated, fails in the analyzer: a table with [Mobile_Home] but no
    [Total_Housing_Units] still gains [Mobile_Home_Rate], computed over the
    default denominator 1 of [df.get('Total_Housing_Units', 1)]. *)
Lemma analyzer_defaults_missing_denominator :
  has_col "Total_Housing_Units" [("Mobile_Home"%string, [Fin 5])] = false
  /\ get_col "Mobile_Home_Rate"
       (calculate_housing_quality_indicators [("Mobile_Home"%string, [Fin 5])])
     = Some [Fin 500].
Proof. split; vm_compute; reflexivity. Qed.

(** C2 (amended).  [calculate_derived_indicators] never raises, and for each
    of its guarded assignments, when a column of the guard is absent the
    target column is not added: it is absent from the output if it was
    absent from the input (and otherwise is only passed through the closing
    replace).  Source columns are neither added nor removed, so a table
    missing [Total_Occupied_Units] gains neither [Percent_Owner_Occupied]
    nor [Percent_Renter_Occupied].  In the analyzer the same holds for
    [Housing_Vacancy_Rate] and [Renter_Rate], whose source columns are
    tested for presence: [Housing_Vacancy_Rate] is not added when
    [Total_Housing_Units] or [Occupied_Units] is absent, [Renter_Rate] is
    not added when [Renter_Occupied] or [Occupied_Units] is absent. *)
Theorem missing_source_skips_indicator (t : frame) :
  exists t1,
    calculate_derived_indicators t = Some t1
    /\ (forall g c, In g (flatten indicator_blocks) -> In c (guards g) ->
          has_col c t1 = false ->
          get_col (target g) t1
          = option_map (map replace_special) (get_col (target g) t))
    /\ (forall c, ~ In c derived_names -> has_col c t1 = has_col c t)
    /\ (has_col "Total_Occupied_Units" t = false ->
          has_col "Percent_Owner_Occupied" t1 = has_col "Percent_Owner_Occupied" t
          /\ has_col "Percent_Renter_Occupied" t1 = has_col "Percent_Renter_Occupied" t)
    /\ (has_col "Total_Housing_Units" t = false \/ has_col "Occupied_Units" t = false ->
          get_col "Housing_Vacancy_Rate" (calculate_housing_quality_indicators t)
          = get_col "Housing_Vacancy_Rate" t)
    /\ (has_col "Renter_Occupied" t = false \/ has_col "Occupied_Units" t = false ->
          get_col "Renter_Rate" (calculate_housing_quality_indicators t)
          = get_col "Renter_Rate" t).
Proof.
  destruct (derive_total t) as [t' Hd].
  exists (replace_inf_nan t').
  assert (Hcalc : calculate_derived_indicators t = Some (replace_inf_nan t'))
    by (unfold calculate_derived_indicators; now rewrite Hd).
  pose proof Hd as Hrun. unfold derive in Hrun. rewrite exec_blocks_flat in Hrun.
  assert (Hskip : forall g c, In g (flatten indicator_blocks) -> In c (guards g) ->
            has_col c (replace_inf_nan t') = false ->
            get_col (target g) (replace_inf_nan t')
            = option_map (map replace_special) (get_col (target g) t)).
  { intros g c Hg Hc Habs. rewrite has_col_replace in Habs.
    destruct (run_gs_consistent _ indicator_blocks_ordered t t' Hrun g Hg) as [_ Hno].
    rewrite get_col_replace. f_equal. apply Hno.
    destruct (forallb _ (guards g)) eqn:E; auto.
    rewrite forallb_forall in E. specialize (E c Hc). congruence. }
  assert (Hsrc : forall c, ~ In c derived_names ->
            has_col c (replace_inf_nan t') = has_col c t).
  { intros c Hc. rewrite has_col_replace. unfold has_col.
    now rewrite (derive_keeps_sources t t' c Hd Hc). }
  split; [exact Hcalc|]. split; [exact Hskip|]. split; [exact Hsrc|]. split.
  - intros Habs.
    assert (Habs' : has_col "Total_Occupied_Units" (replace_inf_nan t') = false).
    { rewrite Hsrc; auto. apply mem_false. vm_compute. reflexivity. }
    split.
    + assert (Hin : In (GAssign ["Owner_Occupied"; "Renter_Occupied"; "Total_Occupied_Units"]%string
                          "Percent_Owner_Occupied"
                          (Pct (Col "Owner_Occupied") "Total_Occupied_Units"))
                       (flatten indicator_blocks))
        by (vm_compute; repeat (try (left; reflexivity); right)).
      pose proof (Hskip _ "Total_Occupied_Units"%string Hin) as H.
      cbn [guards target] in H. unfold has_col at 1 2. rewrite H; auto.
      * now destruct (get_col "Percent_Owner_Occupied" t).
      * simpl. tauto.
    + assert (Hin : In (GAssign ["Owner_Occupied"; "Renter_Occupied"; "Total_Occupied_Units"]%string
                          "Percent_Renter_Occupied"
                          (Pct (Col "Renter_Occupied") "Total_Occupied_Units"))
                       (flatten indicator_blocks))
        by (vm_compute; repeat (try (left; reflexivity); right)).
      pose proof (Hskip _ "Total_Occupied_Units"%string Hin) as H.
      cbn [guards target] in H. unfold has_col at 1 2. rewrite H; auto.
      * now destruct (get_col "Percent_Renter_Occupied" t).
      * simpl. tauto.
  - split.
    + intros Habs.
      assert (Hvac : housing_vacancy_rate t = t).
      { unfold housing_vacancy_rate. unfold has_col in Habs.
        destruct (get_col "Total_Housing_Units" t); auto.
        destruct (get_col "Occupied_Units" t); auto.
        destruct Habs; discriminate. }
      unfold calculate_housing_quality_indicators.
      rewrite overcrowding_rate_other, renter_rate_other, mobile_home_rate_other,
        old_housing_rate_other, cost_burden_rate_other by discriminate.
      now rewrite Hvac.
    + intros Habs. unfold calculate_housing_quality_indicators.
      set (d4 := mobile_home_rate _).
      assert (Hd4 : forall c, c <> "Mobile_Home_Rate" -> c <> "Old_Housing_Rate" ->
                      c <> "High_Housing_Cost_Burden_Rate" ->
                      c <> "Housing_Vacancy_Rate" -> get_col c d4 = get_col c t).
      { intros c H1 H2 H3 H4. subst d4.
        now rewrite mobile_home_rate_other, old_housing_rate_other,
          cost_burden_rate_other, vacancy_rate_other. }
      assert (Hrent : renter_rate d4 = d4).
      { unfold renter_rate.
        rewrite (Hd4 "Renter_Occupied"), (Hd4 "Occupied_Units") by discriminate.
        unfold has_col in Habs.
        destruct (get_col "Renter_Occupied" t); auto.
        destruct (get_col "Occupied_Units" t); auto.
        destruct Habs; discriminate. }
      rewrite overcrowding_rate_other, Hrent by discriminate.
      apply Hd4; discriminate.
Qed.

(** Scenario 3 of the specification: no [Total_Occupied_Units], no tenure
    percentages. *)
Lemma scenario_3 :
  calculate_derived_indicators
    [("Owner_Occupied"%string, [Fin 300]); ("Renter_Occupied"%string, [Fin 700])]
  = Some [("Owner_Occupied"%string, [Fin 300]); ("Renter_Occupied"%string, [Fin 700])].
Proof. vm_compute. reflexivity. Qed.

(** C3, as stated, fails on a table holding NaN: the first run computes
    [NaN + 5], gets the default 0, and the closing replace turns the NaN
    source cell into 0; the second run then computes [(0 + 5) / 10 * 100 = 50]
    and changes the already-computed column. *)
Lemma rerun_changes_nan_table :
  calculate_derived_indicators nan_children_table = Some nan_children_once
  /\ calculate_derived_indicators nan_children_once = Some nan_children_twice
  /\ nan_children_once <> nan_children_twice.
Proof.
  split; [vm_compute; reflexivity|]. split; [vm_compute; reflexivity|].
  intros H. discriminate H.
Qed.

(** C3 (amended).  On every table whose cells are all numbers (no NaN, no
    infinity) the calculator returns a table, and run again on that table
    it returns the same table, without error: no column changes, none is
    added, none moves. *)
Theorem derived_indicators_idempotent (t : frame) :
  all_finite t ->
  exists t1,
    calculate_derived_indicators t = Some t1
    /\ calculate_derived_indicators t1 = Some t1.
Proof.
  intros Hfin. destruct (derive_total t) as [t' Hd].
  pose proof (derive_finite t t' Hfin Hd) as Hfin'.
  exists t'. unfold calculate_derived_indicators. split.
  - rewrite Hd. simpl. now rewrite replace_finite_id.
  - assert (Hd' : derive t' = Some t').
    { unfold derive in *. rewrite exec_blocks_flat in *.
      exact (run_gs_idempotent _ t t' indicator_blocks_ordered Hd). }
    rewrite Hd'. simpl. now rewrite replace_finite_id.
Qed.

Lemma derived_indicators_idempotent_witness :
  exists t1,
    calculate_derived_indicators tenure_table = Some t1
    /\ calculate_derived_indicators t1 = Some t1.
Proof.
  apply (derived_indicators_idempotent tenure_table).
  unfold tenure_table, all_finite. repeat constructor.
Defined.

(** ** Risk scorer: frame and zero-variance behaviour *)

Section ScorerClaims.

Variable sqrtQ : Q -> Q.

Lemma filter_all_false {A} (p : A -> bool) (l : list A) :
  (forall x, In x l -> p x = false) -> filter p l = [].
Proof.
  induction l as [|a l IH]; simpl; intros H; auto.
  rewrite (H a) by now left. apply IH. intros; apply H; now right.
Qed.

Lemma filter_some_true {A} (p : A -> bool) (l : list A) (x : A) :
  In x l -> p x = true -> filter p l <> [].
Proof.
  intros Hin Hp E. assert (H : In x (filter p l)) by (apply filter_In; auto).
  rewrite E in H. contradiction.
Qed.

Lemma flat_map_nonempty {A B} (f : A -> list B) (l : list A) :
  flat_map f l <> [] -> exists a, In a l /\ f a <> [].
Proof.
  induction l as [|a l IH]; simpl; [congruence|].
  destruct (f a) as [|b bs] eqn:E.
  - intros H. destruct (IH H) as (a' & Hin & Hne). exists a'. auto.
  - intros _. exists a. split; auto. congruence.
Qed.

Lemma group_columns_last (df : frame) (group : string * list string) :
  group_columns df group <> [] -> In (fst group) (group_columns df group).
Proof.
  unfold group_columns. destruct (filter _ (snd group)); [congruence|].
  intros _. apply in_or_app. right. now left.
Qed.

(** Some category score is written as soon as anything is. *)
Lemma written_category (df : frame) :
  flat_map (group_columns df) risk_groups <> [] ->
  exists g, In g risk_components /\ In g (flat_map (group_columns df) risk_groups).
Proof.
  intros H. apply flat_map_nonempty in H as (grp & Hin & Hne).
  exists (fst grp). split.
  - change risk_components with (map fst risk_groups). now apply in_map.
  - apply in_flat_map. exists grp. split; auto. now apply group_columns_last.
Qed.

Lemma index_names_not_group_names (c : string) :
  In c ["Social_Isolation_Risk_Index"; "Risk_Category"] ->
  ~ In c (flat_map full_group_columns risk_groups).
Proof.
  intros Hc. apply mem_false.
  assert (H : forallb (fun c => negb (mem c (flat_map full_group_columns risk_groups)))
                ["Social_Isolation_Risk_Index"; "Risk_Category"] = true)
    by (vm_compute; reflexivity).
  rewrite forallb_forall in H. now apply negb_true_iff, H.
Qed.

Lemma components_written (g : string) : In g risk_components -> In g written_names.
Proof.
  intros Hg. apply mem_In.
  assert (H : forallb (fun c => mem c written_names) risk_components = true)
    by (vm_compute; reflexivity).
  rewrite forallb_forall in H. now apply H.
Qed.

(** C10, as stated, fails on an input that already has a column the scorer
    writes: the input column [Poverty_Rate_std = [7; 7; 7]] comes back as the
    z-scores [[-1; 0; 1]] of [Poverty_Rate]. *)
Lemma scorer_overwrites_named_column :
  is_empty table_with_std_column = false
  /\ get_col "Poverty_Rate_std" table_with_std_column = Some [Fin 7; Fin 7; Fin 7]
  /\ get_col "Poverty_Rate_std"
       (develop_isolation_risk_model approx_sqrt table_with_std_column)
     = Some (Numeric [Fin (-1); Fin 0; Fin 1]).
Proof. repeat split; vm_compute; reflexivity. Qed.

(** C10 (amended).  For every non-empty input table none of whose columns
    bears a name the scorer assigns, the returned table is the input table,
    unchanged, followed by appended columns only: for each risk category
    with at least one factor present, one ["<factor>_std"] column per present
    factor and then the category score; and, when at least one category
    score exists, [Social_Isolation_Risk_Index] and [Risk_Category].  The
    ["_std"] helper columns remain in the result. *)
Theorem scorer_only_appends (df : frame) :
  is_empty df = false ->
  (forall c, In c written_names -> has_col c df = false) ->
  exists added,
    develop_isolation_risk_model sqrtQ df = lift df ++ added
    /\ columns added = appended_columns df.
Proof.
  intros Hne Hfresh. unfold develop_isolation_risk_model. rewrite Hne.
  set (W := flat_map (group_columns df) risk_groups).
  pose proof (scorer_writes sqrtQ df) as Hw. fold W in Hw.
  assert (HWsub : forall c, In c W -> In c (flat_map full_group_columns risk_groups)).
  { intros c. apply subseq_In, scorer_writes_subseq. }
  assert (HWwritten : forall c, In c W -> In c written_names).
  { intros c Hc. unfold written_names. apply in_or_app. left. auto. }
  destruct (writes_fresh df _ W Hw) as (ext & Hfinal & Hcols).
  { eapply subseq_NoDup; [apply scorer_writes_subseq | apply group_names_NoDup]. }
  { intros c Hc. auto. }
  rewrite Hfinal. unfold appended_columns. fold W.
  destruct W as [|w0 W'] eqn:EW.
  - (* nothing written: no category column exists *)
    assert (ext = []) by (destruct ext; [auto | discriminate]). subst ext.
    rewrite app_nil_r.
    rewrite filter_all_false.
    + exists []. now rewrite app_nil_r.
    + intros g Hg. apply Hfresh. now apply components_written.
  - (* something written: a category score is among it *)
    rewrite <- EW in *.
    destruct (written_category df) as (g & Hg & HgW).
    { fold W. rewrite EW. discriminate. }
    remember (filter (fun c => has_col c (df ++ ext)) risk_components) as comps eqn:Ec.
    destruct comps as [|c0 comps'].
    { exfalso. symmetry in Ec. revert Ec. apply (filter_some_true _ _ g); auto.
      rewrite has_col_app. apply orb_true_iff. right.
      apply has_col_In. rewrite Hcols. exact HgW. }
    rewrite Ec. clear Ec c0 comps'.
    set (index := mean_axis1 _ _).
    assert (Habs : forall c, In c ["Social_Isolation_Risk_Index"; "Risk_Category"] ->
                     has_col c (df ++ ext) = false).
    { intros c Hc. rewrite has_col_app. apply orb_false_iff. split.
      - apply Hfresh. unfold written_names. apply in_or_app. now right.
      - destruct (has_col c ext) eqn:E; auto.
        apply has_col_In in E. rewrite Hcols in E.
        exfalso. apply (index_names_not_group_names c Hc). auto. }
    rewrite (set_col_absent "Social_Isolation_Risk_Index").
    2:{ apply Habs. simpl. auto. }
    rewrite !lift_app. rewrite set_col_absent.
    2:{ rewrite !has_col_app, !has_col_lift. rewrite <- has_col_app.
        rewrite Habs by (simpl; auto). reflexivity. }
    rewrite <- !app_assoc. eexists. split; [reflexivity|].
    unfold columns. rewrite !map_app. fold (columns (lift ext)).
    rewrite columns_lift, Hcols. reflexivity.
Qed.

(** *** Row counts *)

Lemma get_col_In {V} (c : string) (v : V) (s : table V) :
  get_col c s = Some v -> In (c, v) s.
Proof.
  induction s as [|[n w] rest IH]; simpl; [discriminate|].
  destruct (String.eqb c n) eqn:E.
  - apply String.eqb_eq in E. subst. intros [= ->]. now left.
  - intros H. right. auto.
Qed.

Lemma in_set_col {V} (c c' : string) (v v' : V) (s : table V) :
  In (c', v') (set_col c v s) -> (c', v') = (c, v) \/ In (c', v') s.
Proof.
  induction s as [|[n w] rest IH]; simpl.
  - intros [H|[]]. left. now symmetry.
  - destruct (String.eqb c n) eqn:E; simpl.
    + apply String.eqb_eq in E. subst. intros [H|H]; [left; now symmetry | auto].
    + intros [H|H]; auto. destruct (IH H); auto.
Qed.

Lemma uniform_nrows (n : nat) (s : frame) : uniform n s -> nrows s = n.
Proof.
  intros [Hne H]. destruct s as [|[c v] rest]; [congruence|].
  simpl. apply (H c). now left.
Qed.

Lemma uniform_set (n : nat) (s : frame) (c : string) (v : series) :
  uniform n s -> List.length v = n -> uniform n (set_col c v s).
Proof.
  intros [Hne H] Hv. split.
  - destruct s as [|[c0 v0] rest]; simpl; [discriminate|].
    destruct (String.eqb c c0); discriminate.
  - intros c' v' Hin. apply in_set_col in Hin as [[= -> ->]|Hin]; eauto.
Qed.

Lemma standardize_uniform (n : nat) (s : frame) (f : string) :
  uniform n s -> uniform n (standardize sqrtQ s f).
Proof.
  intros Hu. unfold standardize.
  destruct (get_col f s) as [v|] eqn:Ev; auto.
  destruct (gt0 _); apply uniform_set; auto.
  - rewrite length_map. destruct Hu as [_ H]. apply (H f). now apply get_col_In.
  - rewrite repeat_length. now apply uniform_nrows.
Qed.

Lemma fold_standardize_uniform (n : nat) (fs : list string) (s : frame) :
  uniform n s -> uniform n (fold_left (standardize sqrtQ) fs s).
Proof.
  revert s. induction fs as [|f fs IH]; simpl; intros s Hu; auto.
  apply IH. now apply standardize_uniform.
Qed.

Lemma mean_axis1_length (n : nat) (cs : list series) :
  List.length (mean_axis1 n cs) = n.
Proof. unfold mean_axis1. now rewrite length_map, length_seq. Qed.

Lemma score_group_uniform (n : nat) (s : frame) (group : string * list string) :
  uniform n s -> uniform n (score_group sqrtQ s group).
Proof.
  intros Hu. destruct group as [g fs]. unfold score_group.
  destruct (filter _ fs) as [|a l]; auto.
  pose proof (fold_standardize_uniform n (a :: l) s Hu) as Hu1.
  apply uniform_set; auto.
  rewrite mean_axis1_length. now apply uniform_nrows.
Qed.

Lemma scorer_uniform (n : nat) (df : frame) :
  uniform n df -> uniform n (fold_left (score_group sqrtQ) risk_groups df).
Proof.
  intros Hu. cbn [fold_left risk_groups]. now repeat apply score_group_uniform.
Qed.

End ScorerClaims.

(** C4.  The z-score step in binary64 on a listed factor whose column holds
    0.1 in each of three rows, a column of zero standard deviation: the
    computed mean is 0.10000000000000002, the float next above 0.1, the
    computed standard deviation is about 1.7e-17 and positive, the test
    [std_val > 0] succeeds, and the standardized value stored in every row
    is about -0.8165 instead of 0.  On the column holding 5.0 in each of
    three rows the computed standard deviation is 0 and the standardized
    value is 0 in every row. *)
Theorem constant_tenths_standardized_nonzero :
  Binary64.tenths = repeat Binary64.tenth 3
  /\ Binary64.f64_mean Binary64.tenths = Binary64.tenths_mean
  /\ Binary64.f64_std Binary64.tenths = Binary64.tenths_std
  /\ PrimFloat.ltb Binary64.f64_zero (Binary64.f64_std Binary64.tenths) = true
  /\ Binary64.standardize_column Binary64.tenths
     = repeat Binary64.tenths_score 3
  /\ PrimFloat.ltb Binary64.tenths_score Binary64.f64_zero = true
  /\ Binary64.f64_std Binary64.fives = Binary64.f64_zero
  /\ Binary64.standardize_column Binary64.fives = repeat Binary64.f64_zero 3.
Proof. repeat split; vm_compute; reflexivity. Qed.

(** Scenario 5: a constant poverty rate of 5 beside a varying factor.  The
    deviations of 5 from the mean 5 are exactly 0 in binary64 as well. *)
Lemma scenario_5 :
  develop_isolation_risk_model approx_sqrt constant_factor_table
  = [("Poverty_Rate", Numeric [Fin 5; Fin 5; Fin 5]);
     ("Old_Housing_Rate", Numeric [Fin 1; Fin 2; Fin 3]);
     ("Old_Housing_Rate_std", Numeric [Fin (-1); Fin 0; Fin 1]);
     ("Housing_Risk", Numeric [Fin (-1); Fin 0; Fin 1]);
     ("Poverty_Rate_std", Numeric [Fin 0; Fin 0; Fin 0]);
     ("Economic_Risk", Numeric [Fin 0; Fin 0; Fin 0]);
     ("Social_Isolation_Risk_Index", Numeric [Fin (-1 # 2); Fin 0; Fin (1 # 2)]);
     ("Risk_Category", Categorical [Some Low_Risk; Some Moderate_Risk; Some Moderate_Risk])].
Proof. vm_compute. reflexivity. Qed.

Lemma scorer_only_appends_witness :
  exists added,
    develop_isolation_risk_model approx_sqrt constant_factor_table
    = lift constant_factor_table ++ added
    /\ columns added = appended_columns constant_factor_table.
Proof.
  apply (scorer_only_appends approx_sqrt constant_factor_table).
  - reflexivity.
  - intros c Hc. vm_compute in Hc.
    repeat (destruct Hc as [<-|Hc]; [reflexivity|]). contradiction.
Defined.

(** ** Reshaper: uniqueness of rows, Scenario 1 *)

(** C6, as stated, fails: the pivot index is [['GEOID', 'NAME']], so a GEOID
    that arrives under two NAME values takes two rows of the wide table. *)
Lemma geoid_repeated_across_names :
  GEOID_column (transform_to_wide_format two_name_rows)
  = ["22033000100"; "22033000100"]
  /\ ~ NoDup (GEOID_column (transform_to_wide_format two_name_rows)).
Proof.
  assert (E : GEOID_column (transform_to_wide_format two_name_rows)
              = ["22033000100"; "22033000100"]) by (vm_compute; reflexivity).
  split; [exact E|]. rewrite E. intros H.
  inversion H as [|? ? Hn _]; subst. apply Hn. now left.
Qed.

Lemma NoDup_nth_error_inj {A} (l : list A) (i j : nat) (x : A) :
  NoDup l -> nth_error l i = Some x -> nth_error l j = Some x -> i = j.
Proof.
  intros Hnd Hi Hj.
  apply (proj1 (NoDup_nth_error l) Hnd).
  - apply nth_error_Some. congruence.
  - congruence.
Qed.

(** C6 (amended).  For every long-format input the wide table holds each
    (GEOID, NAME) pair in exactly one row; a GEOID all of whose input rows
    carry one NAME therefore occupies at most one row.  Duplicate
    (key, friendly name) entries are resolved by keeping the first numeric
    estimate in input order. *)
Theorem pivot_rows_unique (rows : list long_row) :
  NoDup (index (transform_to_wide_format rows))
  /\ (forall g,
        (forall r1 r2, In r1 rows -> In r2 rows ->
                       GEOID r1 = g -> GEOID r2 = g -> NAME r1 = NAME r2) ->
        forall i j,
          nth_error (GEOID_column (transform_to_wide_format rows)) i = Some g ->
          nth_error (GEOID_column (transform_to_wide_format rows)) j = Some g ->
          i = j)
  /\ (forall c col i k,
        get_col c (data (transform_to_wide_format rows)) = Some col ->
        nth_error (index (transform_to_wide_format rows)) i = Some k ->
        nth_error col i
        = Some (fillna0 (first_notna (values_for k c (map_rows rows))))).
Proof.
  rewrite transform_is_pivot.
  pose proof (pivot_index_NoDup (map_rows rows)) as Hnd.
  split; [exact Hnd|]. split.
  - intros g Hname i j Hi Hj. unfold GEOID_column in *.
    rewrite nth_error_map in Hi, Hj.
    destruct (nth_error (index (pivot (map_rows rows))) i) as [[g1 n1]|] eqn:Ei;
      [|discriminate].
    destruct (nth_error (index (pivot (map_rows rows))) j) as [[g2 n2]|] eqn:Ej;
      [|discriminate].
    simpl in Hi, Hj. injection Hi as ->. injection Hj as ->.
    assert (Hsrc : forall n, In (g, n) (index (pivot (map_rows rows))) ->
              exists r, In r rows /\ GEOID r = g /\ NAME r = n).
    { intros n Hin. apply pivot_index_In in Hin as (m & Hm & Hk & _).
      apply map_rows_In in Hm as (r & name & Hr & _ & ->). simpl in Hk.
      injection Hk as <- <-. exists r. auto. }
    destruct (Hsrc n1 (nth_error_In _ _ Ei)) as (r1 & A1 & B1 & C1).
    destruct (Hsrc n2 (nth_error_In _ _ Ej)) as (r2 & A2 & B2 & C2).
    assert (Hn : n1 = n2) by (rewrite <- C1, <- C2; now apply Hname).
    rewrite Hn in Ei.
    exact (NoDup_nth_error_inj _ i j (g, n2) Hnd Ei Ej).
  - intros c col i k. apply pivot_cell.
Qed.

(** C8, as stated, fails: a non-numeric estimate is coerced to null, not to
    zero, and [aggfunc='first'] skips nulls, so the cell keeps the later
    numeric value 7 and not a zero standing for the first value. *)
Lemma non_numeric_is_skipped_not_zeroed :
  transform_to_wide_format text_then_number_rows
  = WideTable [("22033000100", tract_1_name)] [("Total_Population", [Fin 7])]
  /\ Fin 7 <> zero.
Proof. split; [vm_compute; reflexivity | discriminate]. Qed.

(** C8 (amended).  The Reshaper drops the rows whose variable code has no
    mapping entry; it coerces estimates to numbers, a non-numeric estimate
    counting as missing; the wide table has one row per (GEOID, NAME) pair
    and one column per friendly name for which some mapped row holds a
    number; each cell is the first number of its (key, friendly name) entries
    in input order, or zero when there is none.  The two rows of Scenario 1
    (sharing one NAME) pivot to exactly one row with GEOID 22033000100,
    Total_Population 1000 and Total_Housing_Units 500, and an empty input
    gives an empty table. *)
Theorem reshaper_contract (rows : list long_row) :
  transform_to_wide_format rows = transform_to_wide_format (filter is_mapped rows)
  /\ (forall k, In k (index (transform_to_wide_format rows)) <->
        exists r name, In r rows /\ (GEOID r, NAME r) = k
                       /\ dict_get (variable r) variable_mapping = Some name
                       /\ notna (to_numeric (estimate r)) = true)
  /\ (forall c, In c (columns (data (transform_to_wide_format rows))) <->
        exists r, In r rows /\ dict_get (variable r) variable_mapping = Some c
                  /\ notna (to_numeric (estimate r)) = true)
  /\ NoDup (index (transform_to_wide_format rows))
  /\ (forall c col i k,
        get_col c (data (transform_to_wide_format rows)) = Some col ->
        nth_error (index (transform_to_wide_format rows)) i = Some k ->
        nth_error col i
        = Some (fillna0 (first_notna (values_for k c (map_rows rows)))))
  /\ transform_to_wide_format scenario_1_rows
     = WideTable [("22033000100", tract_1_name)]
                 [("Total_Housing_Units", [Fin 500]); ("Total_Population", [Fin 1000])]
  /\ transform_to_wide_format [] = empty_table.
Proof.
  split; [|split; [|split; [|split; [|split; [|split]]]]].
  - now rewrite !transform_is_pivot, map_rows_filter.
  - intros k. rewrite transform_is_pivot, pivot_index_In. split.
    + intros (m & Hm & Hk & Hn). apply map_rows_In in Hm as (r & name & Hr & E & ->).
      simpl in *. exists r, name. auto.
    + intros (r & name & Hr & Hk & E & Hn).
      exists (MappedRow (GEOID r, NAME r) name (to_numeric (estimate r))).
      simpl. repeat split; auto. apply map_rows_In. exists r, name. auto.
  - intros c. rewrite transform_is_pivot, pivot_columns_In. split.
    + intros (m & Hm & Hc & Hn). apply map_rows_In in Hm as (r & name & Hr & E & ->).
      simpl in *. subst name. exists r. auto.
    + intros (r & Hr & E & Hn).
      exists (MappedRow (GEOID r, NAME r) c (to_numeric (estimate r))).
      simpl. repeat split; auto. apply map_rows_In. exists r, c. auto.
  - rewrite transform_is_pivot. apply pivot_index_NoDup.
  - rewrite transform_is_pivot. intros c col i k. apply pivot_cell.
  - vm_compute. reflexivity.
  - reflexivity.
Qed.

(** ** Fetcher: row cap and stopping *)

(** C5, as stated, fails: the loop never truncates what it received.  With
    page size 2 and cap 2, an endpoint that ignores [$limit] and sends three
    rows makes the fetcher return three rows. *)
Lemma cap_exceeded_by_oversized_page :
  fst (collect_api_data 2 2 static_file) = [1; 2; 3]
  /\ ~ List.length (fst (collect_api_data 2 2 static_file)) <= 2.
Proof.
  assert (E : fst (collect_api_data 2 2 static_file) = [1; 2; 3]) by reflexivity.
  split; [exact E|]. rewrite E. simpl. lia.
Qed.

(** C5 (amended).  When the endpoint never returns more rows than the
    request's [$limit], the fetcher returns at most [max_rows] rows, namely
    the rows of the pages it received, in order; every request asks for
    between 1 and [batch_limit] rows; and every request but the last was
    answered by a full page, so paging stops at the first short or empty page,
    at a failed request, or when the cap is reached.  With page size 2, cap 5
    and an endpoint answering 2, 2 and 1 rows it issues exactly 3 requests and
    returns exactly 5 rows. *)
Theorem paginated_fetch_bounded (row : Type) (max_rows batch_limit : nat)
        (api : endpoint row) :
  honours_limit api ->
  List.length (fst (collect_api_data max_rows batch_limit api)) <= max_rows
  /\ fst (collect_api_data max_rows batch_limit api)
     = pages_of (snd (collect_api_data max_rows batch_limit api))
  /\ Forall (asks_within batch_limit) (snd (collect_api_data max_rows batch_limit api))
  /\ Forall full_page (removelast (snd (collect_api_data max_rows batch_limit api)))
  /\ List.length (snd (collect_api_data 5 2 mock_221)) = 3
  /\ List.length (fst (collect_api_data 5 2 mock_221)) = 5.
Proof.
  intros Hapi. unfold collect_api_data. simpl fst. simpl snd.
  destruct (fetch_loop_result row max_rows batch_limit api max_rows initial_state Hapi)
    as (A & B & C & D & E).
  { unfold paging_invariant. simpl. repeat split; auto. lia. }
  repeat split; auto.
  now rewrite <- A.
Qed.

Lemma table_endpoint_honours_limit (row : Type) (remote : list row) :
  honours_limit (table_endpoint remote).
Proof.
  intros n limit off data [= <-]. rewrite length_firstn. lia.
Qed.

Lemma paginated_fetch_bounded_witness :
  List.length (fst (collect_api_data 5 2 (table_endpoint [1; 2; 3; 4; 5; 6; 7]))) <= 5
  /\ fst (collect_api_data 5 2 (table_endpoint [1; 2; 3; 4; 5; 6; 7]))
     = pages_of (snd (collect_api_data 5 2 (table_endpoint [1; 2; 3; 4; 5; 6; 7])))
  /\ Forall (asks_within 2)
            (snd (collect_api_data 5 2 (table_endpoint [1; 2; 3; 4; 5; 6; 7])))
  /\ Forall full_page
            (removelast (snd (collect_api_data 5 2 (table_endpoint [1; 2; 3; 4; 5; 6; 7]))))
  /\ List.length (snd (collect_api_data 5 2 mock_221)) = 3
  /\ List.length (fst (collect_api_data 5 2 mock_221)) = 5.
Proof.
  apply (paginated_fetch_bounded nat 5 2 (table_endpoint [1; 2; 3; 4; 5; 6; 7])).
  intros n limit off data [= <-]. rewrite length_firstn. lia.
Defined.

(** ** Aggregator: null keys *)

(** C9, as stated, fails in its second half: the summary tables carry no
    unmatched count.  A joined set with one unmatched record gives exactly
    the tables of the same set without it, so nothing in the output tells
    the two apart. *)
Lemma unmatched_records_unreported :
  unmatched_count blight_with_unmatched = 1
  /\ unmatched_count blight_matched = 0
  /\ create_summary_tables blight_with_unmatched one_tract
     = create_summary_tables blight_matched one_tract
  /\ create_summary_tables blight_with_unmatched one_tract
     = SummaryTables
         (Some [TotalRow ["22033000100"; "Census Tract 1"] [("blight_count", 2)] 2])
         (Some [TotalRow ["70802"] [("blight_count", 2)] 2])
         [].
Proof. repeat split; vm_compute; reflexivity. Qed.

(** C9 (amended).  For every spatially joined entity set, each count in the
    per-tract and per-ZIP totals is the number of records of that dataset
    whose key columns equal the row's key, so records with a null key are
    counted nowhere; the total is the sum of the row's counts; and the summary
    tables are the same as for the input without its unmatched records: these
    are left out of the output, no unmatched count is produced. *)
Theorem null_keys_excluded (ds : list (string * joined_dataset))
        (tracts : list (string * string)) :
  create_summary_tables (without_unmatched ds) tracts = create_summary_tables ds tracts
  /\ (forall rows r,
        tract_totals (create_summary_tables ds tracts) = Some rows -> In r rows ->
        counts r
        = map (fun '(name, gdf) =>
                 ((name ++ "_count")%string,
                  List.length (filter (has_key tract_key (row_key r)) (entities gdf))))
              (filter (fun '(_, gdf) => has_tract_id gdf) ds)
        /\ total_incidents r = list_sum (map snd (counts r)))
  /\ (forall rows r,
        zip_totals (create_summary_tables ds tracts) = Some rows -> In r rows ->
        counts r
        = map (fun '(name, gdf) =>
                 ((name ++ "_count")%string,
                  List.length (filter (has_key zip_key (row_key r)) (entities gdf))))
              (filter (fun '(_, gdf) => has_zip_code gdf) ds)
        /\ total_incidents r = list_sum (map snd (counts r))).
Proof.
  split; [apply summaries_ignore_unmatched|].
  assert (Hrow : forall (keyf : entity -> option (list string))
                        (flag : joined_dataset -> bool) base r,
            In r (combine base
                    (flat_map (fun '(name, gdf) =>
                                 if flag gdf
                                 then [(name, groupby_size keyf (entities gdf))] else [])
                              ds)) ->
            counts r
            = map (fun '(name, gdf) =>
                     ((name ++ "_count")%string,
                      List.length (filter (has_key keyf (row_key r)) (entities gdf))))
                  (filter (fun '(_, gdf) => flag gdf) ds)
            /\ total_incidents r = list_sum (map snd (counts r))).
  { intros keyf flag base r Hin. unfold combine in Hin.
    apply (Permutation_in _ (Permutation_sym (TotalSort.Permuted_sort _))) in Hin.
    apply in_map_iff in Hin as (k & <- & _). simpl. split; auto.
    clear. induction ds as [|[name gdf] ds IH]; simpl; auto.
    destruct (flag gdf); simpl; auto.
    rewrite merged_count. now f_equal. }
  unfold create_summary_tables. simpl. split.
  - intros rows r Hrows Hin.
    destruct (flat_map _ ds) as [|s0 ss] eqn:E in Hrows; [discriminate|].
    injection Hrows as <-. rewrite <- E in Hin. now apply (Hrow tract_key has_tract_id) in Hin.
  - intros rows r Hrows Hin.
    destruct (flat_map _ ds) as [|s0 ss] eqn:E in Hrows; [discriminate|].
    injection Hrows as <-. rewrite <- E in Hin. now apply (Hrow zip_key has_zip_code) in Hin.
Qed.

(** ** Orchestrator: failures and the results summary *)




Lemma default_switches_present : switches_present default_config.
Proof.
  intros k Hk. simpl in Hk.
  repeat (destruct Hk as [<-|Hk]; [eexists; reflexivity|]). contradiction.
Qed.


(** The failed health source in the summary of that run *)
Lemma health_failure_recorded :
  exists summary,
    run_comprehensive_analysis default_config health_down = Returns summary
    /\ get_col "health_data" (data_collection_summary summary) = Some (false, 0)
    /\ get_col "acs_data" (data_collection_summary summary) = Some (true, 10).
Proof. eexists. split; [vm_compute; reflexivity|]. split; reflexivity. Qed.

(* ================================================================== *)
(** * Part III. Further properties                                     *)
(* ================================================================== *)

(** ** Further properties of the paging loop ([collect_api_data]) *)

Section FetcherExtras.

Variable row : Type.
Variable max_rows batch_limit : nat.

Lemma firstn_plus_skipn {A} (a b : nat) (l : list A) :
  firstn (a + b) l = firstn a l ++ firstn b (skipn a l).
Proof.
  revert l. induction a as [|a IH]; intros l; simpl; auto.
  destruct l as [|x l]; simpl.
  - now rewrite firstn_nil.
  - now rewrite IH.
Qed.

Lemma fetch_table_loop (remote : list row) (fuel : nat) (st : fetch_state row) :
  0 < batch_limit ->
  offset st = total_rows st ->
  List.concat (all_data st) = firstn (offset st) remote ->
  offset st <= List.length remote ->
  total_rows st <= max_rows ->
  max_rows - total_rows st <= fuel ->
  List.concat (all_data (fetch_loop max_rows batch_limit (table_endpoint remote) fuel st))
  = firstn max_rows remote.
Proof.
  intros Hb. revert st.
  induction fuel as [|fuel IH]; intros st Hoff Hcat Hlen Hmax Hfuel.
  - simpl. rewrite Hcat. f_equal. lia.
  - simpl. destruct (Nat.ltb_spec (total_rows st) max_rows) as [Hlt|Hge].
    2:{ rewrite Hcat. f_equal. lia. }
    destruct (Nat.leb_spec (Nat.min batch_limit (max_rows - total_rows st)) 0) as [H0|Hpos].
    { lia. }
    unfold table_endpoint at 1.
    set (batch := Nat.min batch_limit (max_rows - total_rows st)) in *.
    assert (Hd : List.length (firstn batch (skipn (offset st) remote))
                 = Nat.min batch (List.length remote - offset st)).
    { now rewrite length_firstn, length_skipn. }
    destruct (Nat.ltb_spec 0 (List.length (firstn batch (skipn (offset st) remote))))
      as [Hne|He].
    + destruct (Nat.ltb_spec (List.length (firstn batch (skipn (offset st) remote))) batch)
        as [Hshort|Hfull]; simpl.
      * rewrite concat_app. simpl. rewrite app_nil_r, Hcat, <- firstn_plus_skipn.
        rewrite !firstn_all2; auto; lia.
      * apply IH; simpl.
        -- lia.
        -- rewrite concat_app. simpl.
           now rewrite app_nil_r, Hcat, <- firstn_plus_skipn.
        -- lia.
        -- lia.
        -- lia.
    + simpl. rewrite Hcat. rewrite !firstn_all2; auto; lia.
Qed.

Lemma fetch_loop_log_length (api : endpoint row) (fuel : nat) (st : fetch_state row) :
  List.length (log (fetch_loop max_rows batch_limit api fuel st))
  <= List.length (log st) + fuel.
Proof.
  revert st. induction fuel as [|fuel IH]; intros st; simpl; [lia|].
  destruct (Nat.ltb (total_rows st) max_rows); [|lia].
  destruct (Nat.leb (Nat.min batch_limit (max_rows - total_rows st)) 0); [lia|].
  destruct (api (List.length (log st)) _ (offset st)) as [data|]; simpl.
  - destruct (Nat.ltb 0 (List.length data)); simpl.
    + destruct (Nat.ltb (List.length data) _); simpl.
      * rewrite length_app. simpl. lia.
      * etransitivity; [apply IH|]. simpl. rewrite length_app. simpl. lia.
    + rewrite length_app. simpl. lia.
  - rewrite length_app. simpl. lia.
Qed.

Lemma offsets_from_snoc (start : nat) (l : list nat) (b : nat) :
  offsets_from start (l ++ [b]) = offsets_from start l ++ [start + list_sum l].
Proof.
  revert start. induction l as [|a l IH]; intros start; simpl.
  - f_equal. lia.
  - rewrite IH. do 3 f_equal. lia.
Qed.

Lemma windows_step (st : fetch_state row) (r : request row) :
  windows_invariant st -> req_offset r = offset st ->
  Forall answered_in_full (removelast (log st ++ [r]))
  /\ map req_offset (log st ++ [r]) = offsets_from 0 (map req_limit (log st ++ [r])).
Proof.
  intros (A & B & C) Hr. split.
  - now rewrite removelast_last.
  - rewrite !map_app. simpl. rewrite offsets_from_snoc, C, Hr, B. reflexivity.
Qed.

Lemma fetch_loop_windows (api : endpoint row) (fuel : nat) (st : fetch_state row) :
  windows_invariant st ->
  windows_result (fetch_loop max_rows batch_limit api fuel st).
Proof.
  revert st. induction fuel as [|fuel IH]; intros st Hinv.
  - destruct Hinv as (A & B & C). split; auto. now apply Forall_removelast.
  - assert (Hstay : windows_result st).
    { destruct Hinv as (A & B & C). split; auto. now apply Forall_removelast. }
    simpl. destruct (Nat.ltb (total_rows st) max_rows); auto.
    destruct (Nat.leb_spec (Nat.min batch_limit (max_rows - total_rows st)) 0); auto.
    set (batch := Nat.min batch_limit (max_rows - total_rows st)) in *.
    destruct (api (List.length (log st)) batch (offset st)) as [data|] eqn:E.
    + destruct (Nat.ltb_spec 0 (List.length data)) as [Hne|He].
      * destruct (Nat.ltb_spec (List.length data) batch) as [Hshort|Hfull].
        -- unfold windows_result. simpl. now apply windows_step.
        -- apply IH. destruct Hinv as (A & B & C). repeat split; simpl.
           ++ apply Forall_app. split; auto. constructor; auto.
              unfold answered_in_full. simpl. lia.
           ++ rewrite map_app, list_sum_app. simpl. lia.
           ++ rewrite !map_app. simpl. rewrite offsets_from_snoc, C, B. reflexivity.
      * unfold windows_result. simpl. now apply windows_step.
    + unfold windows_result. simpl. now apply windows_step.
Qed.

End FetcherExtras.

(** X1. Against an endpoint that serves a remote table in windows ([$limit]
    rows from [$offset] on), and with a positive batch size, the rows
    returned are exactly the first [max_rows] rows of the remote table, in
    order: none skipped, none repeated. *)
Theorem fetch_table_exact (row : Type) (max_rows batch_limit : nat) (remote : list row) :
  0 < batch_limit ->
  fst (collect_api_data max_rows batch_limit (table_endpoint remote))
  = firstn max_rows remote.
Proof.
  intros Hb. unfold collect_api_data. simpl.
  apply fetch_table_loop; simpl; auto; lia.
Qed.

Lemma fetch_table_exact_witness :
  fst (collect_api_data 5 2 (table_endpoint [1; 2; 3; 4; 5; 6; 7]))
  = firstn 5 [1; 2; 3; 4; 5; 6; 7].
Proof. apply (fetch_table_exact nat 5 2 [1; 2; 3; 4; 5; 6; 7]). lia. Defined.

(** X2. Whatever the endpoint answers, the loop ends within [max_rows]
    turns: it issues at most [max_rows] requests, and letting it run for
    any larger number of turns changes nothing. *)
Theorem fetch_requests_bounded (row : Type) (max_rows batch_limit : nat)
        (api : endpoint row) :
  List.length (snd (collect_api_data max_rows batch_limit api)) <= max_rows
  /\ forall turns, max_rows <= turns ->
       fetch_loop max_rows batch_limit api turns initial_state
       = fetch_loop max_rows batch_limit api max_rows initial_state.
Proof.
  split.
  - unfold collect_api_data. simpl.
    apply (fetch_loop_log_length row max_rows batch_limit api max_rows initial_state).
  - intros turns Ht. apply fetch_loop_fuel; simpl; lia.
Qed.

(** X3. Whatever the endpoint answers, the requests ask for consecutive
    windows: the first [$offset] is 0 and each later one is the sum of the
    [$limit] values before it; and every request but the last was answered
    by a non-empty page of at least [$limit] rows, so a failed request, an
    empty page or a short page is always the last request made. *)
Theorem fetch_windows_contiguous (row : Type) (max_rows batch_limit : nat)
        (api : endpoint row) :
  map req_offset (snd (collect_api_data max_rows batch_limit api))
  = offsets_from 0 (map req_limit (snd (collect_api_data max_rows batch_limit api)))
  /\ Forall answered_in_full
            (removelast (snd (collect_api_data max_rows batch_limit api))).
Proof.
  unfold collect_api_data. simpl.
  destruct (fetch_loop_windows row max_rows batch_limit api max_rows initial_state)
    as [A B].
  - repeat split; simpl; auto.
  - split; auto.
Qed.

(** ** Further properties of the summary tables ([create_summary_tables]) *)

Section AggregatorExtras.

Lemma indicator_sum_one (a : list string) (ks : list (list string)) :
  NoDup ks -> In a ks ->
  list_sum (map (fun k => if klist_dec a k then 1 else 0) ks) = 1.
Proof.
  induction 1 as [|k ks Hk Hnd IH]; intros Hin; [contradiction|].
  simpl. destruct (klist_dec a k) as [->|Hne].
  - f_equal. clear IH Hin. induction ks as [|x ks IH]; simpl; auto.
    destruct (klist_dec k x) as [->|_].
    + exfalso. apply Hk. now left.
    + apply IH.
      * intros H. apply Hk. now right.
      * now inversion Hnd.
  - destruct Hin as [->|Hin]; [congruence|]. now apply IH.
Qed.

Lemma list_sum_map_add {A} (f g : A -> nat) (l : list A) :
  list_sum (map (fun x => f x + g x) l) = list_sum (map f l) + list_sum (map g l).
Proof. induction l as [|x l IH]; simpl; auto. rewrite IH. lia. Qed.

Lemma count_occ_total (l : list (list string)) (ks : list (list string)) :
  NoDup ks -> incl l ks ->
  list_sum (map (count_occ klist_dec l) ks) = List.length l.
Proof.
  intros Hnd. induction l as [|a l IH]; intros Hincl.
  - simpl. clear Hnd Hincl. induction ks as [|k ks IH]; simpl; auto.
  - rewrite (map_ext (count_occ klist_dec (a :: l))
               (fun k => (if klist_dec a k then 1 else 0) + count_occ klist_dec l k)).
    + rewrite list_sum_map_add, indicator_sum_one, IH; auto.
      * intros x Hx. apply Hincl. now right.
      * apply Hincl. now left.
    + intros k. simpl. destruct (klist_dec a k); auto.
Qed.

Lemma groupby_size_keys (keyf : entity -> option (list string)) (es : list entity) :
  map fst (groupby_size keyf es) = KeyListSort.sort (nodup klist_dec (keys_of keyf es)).
Proof. unfold groupby_size. rewrite map_map. simpl. apply map_id. Qed.

Lemma keys_of_In (keyf : entity -> option (list string)) (es : list entity)
      (k : list string) :
  In k (keys_of keyf es) <-> exists e, In e es /\ keyf e = Some k.
Proof.
  unfold keys_of. rewrite in_flat_map. split.
  - intros (e & He & Hk). exists e. split; auto.
    destruct (keyf e); simpl in Hk; [|contradiction].
    destruct Hk as [->|[]]. reflexivity.
  - intros (e & He & Hk). exists e. split; auto. rewrite Hk. now left.
Qed.

Lemma groupby_size_key_In (keyf : entity -> option (list string)) (es : list entity)
      (k : list string) :
  In k (map fst (groupby_size keyf es)) <-> exists e, In e es /\ keyf e = Some k.
Proof.
  rewrite groupby_size_keys, <- keys_of_In.
  split; intros H.
  - apply (Permutation_in k (Permutation_sym (KeyListSort.Permuted_sort _))) in H.
    now apply nodup_In in H.
  - apply (Permutation_in k (KeyListSort.Permuted_sort _)). now apply nodup_In.
Qed.

Lemma total_leb_trans :
  RelationClasses.Transitive (fun x y : total_row => is_true (total_leb x y)).
Proof.
  intros a b c. unfold is_true, total_leb. rewrite !Nat.leb_le. lia.
Qed.

Lemma combine_sorted (base : list (list string))
      (summaries : list (string * list (list string * nat))) :
  Sorted.StronglySorted (fun a b : total_row => total_incidents b <= total_incidents a)
    (combine base summaries).
Proof.
  unfold combine.
  eapply Sorted.StronglySorted_ind with
    (P := fun l => Sorted.StronglySorted
                     (fun a b : total_row => total_incidents b <= total_incidents a) l);
    [ constructor | | apply TotalSort.StronglySorted_sort, total_leb_trans ].
  intros a l _ IH Hall. constructor; auto.
  eapply Forall_impl; [|exact Hall].
  intros b Hb. now apply Nat.leb_le.
Qed.

Lemma combine_keys (base : list (list string))
      (summaries : list (string * list (list string * nat))) :
  Permutation (map row_key (combine base summaries)) base.
Proof.
  unfold combine. symmetry.
  etransitivity; [|apply Permutation_map, TotalSort.Permuted_sort].
  rewrite map_map. simpl. now rewrite map_id.
Qed.

End AggregatorExtras.

(** X4. Group sizes account for every keyed record exactly once: the keys
    of [groupby(keys).size()] are distinct, every size is positive, and the
    sizes add up to the number of records whose key columns are all
    non-null. *)
Theorem groupby_size_partition (keyf : entity -> option (list string))
        (es : list entity) :
  NoDup (map fst (groupby_size keyf es))
  /\ (forall k n, In (k, n) (groupby_size keyf es) -> 0 < n)
  /\ list_sum (map snd (groupby_size keyf es))
     = List.length (filter (fun e => match keyf e with Some _ => true | None => false end) es).
Proof.
  assert (Hnd : NoDup (KeyListSort.sort (nodup klist_dec (keys_of keyf es)))).
  { eapply Permutation_NoDup; [apply KeyListSort.Permuted_sort|apply NoDup_nodup]. }
  split; [|split].
  - now rewrite groupby_size_keys.
  - intros k n Hin. unfold groupby_size in Hin. apply in_map_iff in Hin.
    destruct Hin as (k' & [= <- <-] & Hk).
    apply (Permutation_in _ (Permutation_sym (KeyListSort.Permuted_sort _))) in Hk.
    apply nodup_In in Hk. now apply count_occ_In.
  - unfold groupby_size. rewrite map_map. simpl.
    rewrite count_occ_total; auto.
    + unfold keys_of. clear Hnd. induction es as [|e es IH]; simpl; auto.
      destruct (keyf e); simpl; auto.
    + intros k Hk. apply (Permutation_in k (KeyListSort.Permuted_sort _)).
      now apply nodup_In.
Qed.

(** X5. When at least one dataset carries tract ids, [tract_totals] has
    exactly one row per row of the census tract table, whether or not any
    record fell in the tract; without such a dataset no [tract_totals]
    table is made. *)
Theorem tract_totals_cover_tracts (ds : list (string * joined_dataset))
        (tracts : list (string * string)) :
  match tract_totals (create_summary_tables ds tracts) with
  | Some rows =>
      existsb (fun '(_, gdf) => has_tract_id gdf) ds = true
      /\ Permutation (map row_key rows)
                     (map (fun '(geoid, namelsad) => [geoid; namelsad]) tracts)
  | None => existsb (fun '(_, gdf) => has_tract_id gdf) ds = false
  end.
Proof.
  unfold create_summary_tables. simpl.
  assert (H : forall l : list (string * joined_dataset),
             match flat_map (fun '(name, gdf) =>
                     if has_tract_id gdf
                     then [(name, groupby_size tract_key (entities gdf))] else []) l with
             | [] => existsb (fun '(_, gdf) => has_tract_id gdf) l = false
             | _ :: _ => existsb (fun '(_, gdf) => has_tract_id gdf) l = true
             end).
  { induction l as [|[name gdf] l IH]; simpl; auto.
    destruct (has_tract_id gdf); simpl; auto. }
  specialize (H ds).
  destruct (flat_map _ ds) as [|s ss]; auto.
  split; auto. apply combine_keys.
Qed.

(** X6. Both totals tables are ordered by [total_incidents], largest
    first: every row's total is at least the total of every row below it. *)
Theorem totals_sorted_descending (ds : list (string * joined_dataset))
        (tracts : list (string * string)) (rows : list total_row) :
  tract_totals (create_summary_tables ds tracts) = Some rows
  \/ zip_totals (create_summary_tables ds tracts) = Some rows ->
  Sorted.StronglySorted (fun a b : total_row => total_incidents b <= total_incidents a) rows.
Proof.
  unfold create_summary_tables. simpl. intros [H|H].
  - destruct (flat_map _ ds) in H; [discriminate|].
    injection H as <-. apply combine_sorted.
  - destruct (flat_map _ ds) in H; [discriminate|].
    injection H as <-. apply combine_sorted.
Qed.

Lemma totals_sorted_descending_witness :
  Sorted.StronglySorted (fun a b : total_row => total_incidents b <= total_incidents a)
    [TotalRow ["22033000200"; "Census Tract 2"]
       [("crime_count", 2); ("blight_count", 1)] 3;
     TotalRow ["22033000100"; "Census Tract 1"]
       [("crime_count", 1); ("blight_count", 0)] 1;
     TotalRow ["22033000300"; "Census Tract 3"]
       [("crime_count", 0); ("blight_count", 0)] 0]%string.
Proof.
  apply (totals_sorted_descending crime_and_blight three_tracts).
  left. vm_compute. reflexivity.
Defined.

(** X7. [zip_totals] has one row per distinct ZIP code found in the
    records of the datasets that carry a ZIP column, and no other row: a
    ZIP code without records does not appear. *)
Theorem zip_totals_keys (ds : list (string * joined_dataset))
        (tracts : list (string * string)) (rows : list total_row) :
  zip_totals (create_summary_tables ds tracts) = Some rows ->
  NoDup (map row_key rows)
  /\ forall k, In k (map row_key rows) <->
       exists name gdf e, In (name, gdf) ds /\ has_zip_code gdf = true
                          /\ In e (entities gdf) /\ zip_key e = Some k.
Proof.
  unfold create_summary_tables. simpl. intros H.
  set (zs := flat_map (fun '(name, gdf) =>
               if has_zip_code gdf
               then [(name, groupby_size zip_key (entities gdf))] else []) ds) in *.
  destruct zs as [|z zs'] eqn:Ez; [discriminate|]. rewrite <- Ez in H. clear Ez z zs'.
  injection H as <-.
  set (all_zips := KeyListSort.sort
         (nodup klist_dec (flat_map (fun '(_, summary) => map fst summary) zs))).
  assert (Hperm : Permutation (map row_key (combine all_zips zs)) all_zips)
    by apply combine_keys.
  assert (Hnd : NoDup all_zips).
  { eapply Permutation_NoDup; [apply KeyListSort.Permuted_sort|apply NoDup_nodup]. }
  split.
  - eapply Permutation_NoDup; [symmetry; exact Hperm|exact Hnd].
  - intros k. split.
    + intros Hk. apply (Permutation_in k Hperm) in Hk.
      apply (Permutation_in k (Permutation_sym (KeyListSort.Permuted_sort _))) in Hk.
      apply nodup_In in Hk. apply in_flat_map in Hk.
      destruct Hk as ([name summary] & Hs & Hk).
      unfold zs in Hs. apply in_flat_map in Hs.
      destruct Hs as ([name' gdf] & Hd & Hs).
      destruct (has_zip_code gdf) eqn:Hz; [|contradiction].
      destruct Hs as [[= <- <-]|[]].
      apply groupby_size_key_In in Hk. destruct Hk as (e & He & Hke).
      exists name', gdf, e. auto.
    + intros (name & gdf & e & Hd & Hz & He & Hke).
      apply (Permutation_in k (Permutation_sym Hperm)).
      apply (Permutation_in k (KeyListSort.Permuted_sort _)).
      apply nodup_In. apply in_flat_map.
      exists (name, groupby_size zip_key (entities gdf)). split.
      * unfold zs. apply in_flat_map. exists (name, gdf). split; auto.
        rewrite Hz. now left.
      * apply groupby_size_key_In. exists e. auto.
Qed.

Lemma zip_totals_keys_witness :
  NoDup (map row_key [TotalRow ["70802"] [("blight_count", 2)] 2])
  /\ forall k, In k (map row_key [TotalRow ["70802"] [("blight_count", 2)] 2]) <->
       exists name gdf e, In (name, gdf) blight_matched /\ has_zip_code gdf = true
                          /\ In e (entities gdf) /\ zip_key e = Some k.
Proof.
  apply (zip_totals_keys blight_matched one_tract). vm_compute. reflexivity.
Defined.

(** ** Further properties of the reshaper ([transform_to_wide_format]) *)

Section StringOrder.

Lemma ascii_compare_lt_trans (a b c : ascii) :
  Ascii.compare a b = Lt -> Ascii.compare b c = Lt -> Ascii.compare a c = Lt.
Proof.
  unfold Ascii.compare. rewrite !N.compare_lt_iff. apply N.lt_trans.
Qed.

Lemma string_compare_lt_trans (s1 : string) :
  forall s2 s3, String.compare s1 s2 = Lt -> String.compare s2 s3 = Lt ->
                String.compare s1 s3 = Lt.
Proof.
  induction s1 as [|c1 s1 IH]; intros [|c2 s2] [|c3 s3]; simpl; try congruence.
  destruct (Ascii.compare c1 c2) eqn:E12; try discriminate;
    destruct (Ascii.compare c2 c3) eqn:E23; try discriminate; intros H1 H2.
  - apply Ascii.compare_eq_iff in E12, E23. subst.
    assert (E : Ascii.compare c3 c3 = Eq) by (unfold Ascii.compare; apply N.compare_refl).
    rewrite E. eauto.
  - apply Ascii.compare_eq_iff in E12. subst. now rewrite E23.
  - apply Ascii.compare_eq_iff in E23. subst. now rewrite E12.
  - now rewrite (ascii_compare_lt_trans _ _ _ E12 E23).
Qed.

Lemma string_compare_refl (s : string) : String.compare s s = Eq.
Proof.
  induction s as [|c s IH]; simpl; auto.
  assert (E : Ascii.compare c c = Eq) by (unfold Ascii.compare; apply N.compare_refl).
  now rewrite E.
Qed.

Lemma string_leb_trans (s1 s2 s3 : string) :
  String.leb s1 s2 = true -> String.leb s2 s3 = true -> String.leb s1 s3 = true.
Proof.
  unfold String.leb.
  destruct (String.compare s1 s2) eqn:E12; try discriminate;
    destruct (String.compare s2 s3) eqn:E23; try discriminate; intros _ _.
  - apply String.compare_eq_iff in E12, E23. subst. now rewrite string_compare_refl.
  - apply String.compare_eq_iff in E12. subst. now rewrite E23.
  - apply String.compare_eq_iff in E23. subst. now rewrite E12.
  - now rewrite (string_compare_lt_trans _ _ _ E12 E23).
Qed.

Lemma key_leb_trans (a b c : string * string) :
  key_leb a b = true -> key_leb b c = true -> key_leb a c = true.
Proof.
  destruct a as [a1 a2], b as [b1 b2], c as [c1 c2]. unfold key_leb. simpl.
  destruct (String.compare a1 b1) eqn:E12; try discriminate;
    destruct (String.compare b1 c1) eqn:E23; try discriminate; intros H1 H2.
  - apply String.compare_eq_iff in E12, E23. subst.
    rewrite string_compare_refl. eapply string_leb_trans; eauto.
  - apply String.compare_eq_iff in E12. subst. now rewrite E23.
  - apply String.compare_eq_iff in E23. subst. now rewrite E12.
  - now rewrite (string_compare_lt_trans _ _ _ E12 E23).
Qed.

Lemma append_inj_l (s a b : string) : (s ++ a = s ++ b)%string -> a = b.
Proof. induction s as [|c s IH]; simpl; intros H; auto. injection H as H. auto. Qed.

Lemma append_assoc (a b c : string) : ((a ++ b) ++ c = a ++ (b ++ c))%string.
Proof. induction a as [|x a IH]; simpl; auto. now rewrite IH. Qed.

End StringOrder.

Section ReshaperExtras.

Lemma dict_get_snoc {V} (k k' : string) (v : V) (d : list (string * V)) :
  dict_get k (d ++ [(k', v)]) = if String.eqb k k' then Some v else dict_get k d.
Proof. unfold dict_get. rewrite fold_left_app. reflexivity. Qed.

Lemma dict_get_In {V} (k : string) (v : V) (d : list (string * V)) :
  dict_get k d = Some v -> In (k, v) d.
Proof.
  induction d as [|[k' v'] d IH] using rev_ind; [discriminate|].
  rewrite dict_get_snoc. destruct (String.eqb_spec k k') as [->|Hne]; intros H.
  - injection H as ->. apply in_or_app. right. now left.
  - apply in_or_app. left. auto.
Qed.

Lemma pivot_column_value (rows : list mapped_row) (c : string) (col : series) :
  get_col c (data (pivot rows)) = Some col ->
  col = map (fun k => fillna0 (first_notna (values_for k c rows))) (index (pivot rows)).
Proof.
  unfold pivot. simpl. intros H.
  apply (get_col_tabulate
           (fun c => map (fun k => fillna0 (first_notna (values_for k c rows)))
                         (KeySort.sort (nodup key_dec (map key
                            (filter (fun m => notna (first_notna
                               (values_for (key m) (friendly_name m) rows))) rows)))))) in H.
  exact H.
Qed.

Lemma fillna0_notna (a : xnum) : notna (fillna0 a) = true.
Proof. destruct a; reflexivity. Qed.

End ReshaperExtras.

(** X8. The wide table comes out sorted: its rows by (GEOID, NAME) and its
    value columns by name, each entry ordered before every later one
    (code-point order), whatever the order of the input rows. *)
Theorem wide_table_sorted (rows : list long_row) :
  Sorted.StronglySorted (fun a b => key_leb a b = true)
    (index (transform_to_wide_format rows))
  /\ Sorted.StronglySorted (fun a b => String.leb a b = true)
       (columns (data (transform_to_wide_format rows))).
Proof.
  rewrite transform_is_pivot. unfold pivot. simpl. split.
  - apply (KeySort.StronglySorted_sort). intros a b c. apply key_leb_trans.
  - unfold columns. rewrite map_map. simpl. rewrite map_id.
    apply (NameSort.StronglySorted_sort). intros a b c. apply string_leb_trans.
Qed.

(** X9. The wide table is rectangular and has no missing cell: every value
    column has one cell per index row, and none of them is NaN. *)
Theorem wide_table_rectangular (rows : list long_row) (c : string) (col : series) :
  get_col c (data (transform_to_wide_format rows)) = Some col ->
  List.length col = List.length (index (transform_to_wide_format rows))
  /\ Forall (fun a => notna a = true) col.
Proof.
  rewrite transform_is_pivot. intros H. apply pivot_column_value in H. subst col.
  split.
  - apply length_map.
  - apply Forall_forall. intros a Ha. apply in_map_iff in Ha.
    destruct Ha as (k & <- & _). apply fillna0_notna.
Qed.

Lemma wide_table_rectangular_witness :
  List.length [Fin 1000] = List.length (index (transform_to_wide_format scenario_1_rows))
  /\ Forall (fun a => notna a = true) [Fin 1000].
Proof.
  apply (wide_table_rectangular scenario_1_rows "Total_Population" [Fin 1000]).
  vm_compute. reflexivity.
Defined.

(** X10. The wide table is empty exactly when no input row has both a
    mapped variable code and an estimate that reads as a non-null number;
    in particular, input that consists of unmapped or non-numeric rows only
    gives the empty table rather than an error. *)
Theorem wide_table_empty_iff (rows : list long_row) :
  transform_to_wide_format rows = empty_table
  <-> forall r, In r rows -> is_mapped r = true -> notna (to_numeric (estimate r)) = false.
Proof.
  rewrite transform_is_pivot. split.
  - intros H r Hr Hm.
    destruct (notna (to_numeric (estimate r))) eqn:E; auto. exfalso.
    unfold is_mapped in Hm.
    destruct (dict_get (variable r) variable_mapping) as [name|] eqn:Ed; [|discriminate].
    assert (Hin : In (GEOID r, NAME r) (index (pivot (map_rows rows)))).
    { apply pivot_index_In.
      exists (MappedRow (GEOID r, NAME r) name (to_numeric (estimate r))).
      repeat split; auto. apply map_rows_In. exists r, name. auto. }
    rewrite H in Hin. exact Hin.
  - intros H. unfold pivot.
    assert (E : filter (fun m => notna (first_notna
                   (values_for (key m) (friendly_name m) (map_rows rows))))
                  (map_rows rows) = []).
    { apply filter_all_false. intros m Hm.
      destruct (notna (first_notna _)) eqn:E; auto. exfalso.
      apply first_notna_spec in E. destruct E as (x & Hx & Hnx).
      apply values_for_In in Hx. destruct Hx as (m' & Hm' & _ & _ & Hv).
      apply map_rows_In in Hm'. destruct Hm' as (r & name & Hr & Hd & ->).
      simpl in Hv. subst x.
      rewrite (H r Hr) in Hnx; [discriminate|].
      unfold is_mapped. now rewrite Hd. }
    rewrite E. reflexivity.
Qed.

(** X11. [variable_mapping] knows every ACS code of [create_variable_mapping]
    with and without the ['E'] suffix and nothing else, and no two codes
    share a friendly name, so two different variables never land in the
    same column of the wide table. *)
Theorem variable_mapping_exact :
  (forall code name, In (code, name) base_mapping ->
     dict_get code variable_mapping = Some name
     /\ dict_get (code ++ "E")%string variable_mapping = Some name)
  /\ (forall v name, dict_get v variable_mapping = Some name ->
        exists code, In (code, name) base_mapping /\ (v = code \/ v = (code ++ "E")%string))
  /\ (forall c1 c2 name, In (c1, name) base_mapping -> In (c2, name) base_mapping ->
        c1 = c2).
Proof.
  split; [|split].
  - assert (H : forallb (fun '(code, name) =>
                   match dict_get code variable_mapping,
                         dict_get (code ++ "E")%string variable_mapping with
                   | Some a, Some b => String.eqb a name && String.eqb b name
                   | _, _ => false
                   end) base_mapping = true) by (vm_compute; reflexivity).
    intros code name Hin.
    rewrite forallb_forall in H. specialize (H _ Hin). cbv beta iota in H.
    destruct (dict_get code variable_mapping) as [a|]; [|discriminate].
    destruct (dict_get (code ++ "E")%string variable_mapping) as [b|]; [|discriminate].
    apply andb_prop in H. destruct H as [Ha Hb].
    apply String.eqb_eq in Ha, Hb. now subst.
  - intros v name H. apply dict_get_In in H.
    unfold variable_mapping in H. apply in_flat_map in H.
    destruct H as ([code name'] & Hin & H). exists code.
    destruct H as [[= <- <-]|[[= <- <-]|[]]]; auto.
  - assert (H : forallb (fun '(c1, n1) =>
                   forallb (fun '(c2, n2) => negb (String.eqb n1 n2) || String.eqb c1 c2)
                           base_mapping) base_mapping = true) by (vm_compute; reflexivity).
    intros c1 c2 name H1 H2.
    rewrite forallb_forall in H. specialize (H _ H1). cbv beta iota in H.
    rewrite forallb_forall in H. specialize (H _ H2). cbv beta iota in H.
    rewrite String.eqb_refl in H. simpl in H. now apply String.eqb_eq.
Qed.

(** ** Properties of the ACS table collectors *)

Section CollectorExtras.

Lemma melt_tracts_In (df : census_frame) (r : long_row) :
  In r (melt_tracts df) ->
  exists state county tract,
    In (state, county, tract) (geo df)
    /\ GEOID r = ((state ++ county) ++ tract)%string
    /\ NAME r = tract_label tract.
Proof.
  unfold melt_tracts. rewrite in_flat_map. intros ([var col] & _ & Hr).
  revert col Hr. induction (geo df) as [|[[s c] t] g IH]; intros [|e col] Hr;
    simpl in Hr; try contradiction.
  destruct Hr as [<-|Hr].
  - exists s, c, t. simpl. auto.
  - destruct (IH col Hr) as (s' & c' & t' & Hin & H). exists s', c', t'. simpl. auto.
Qed.

Lemma collected_rows (acs5_get : list string -> outcome census_frame)
      (cenpy_available : bool) (variables_index : outcome (list string))
      (table : string) (r : long_row) :
  In r (collect_detailed_table acs5_get cenpy_available variables_index table) ->
  exists vars df, acs5_get vars = Returns df /\ In r (melt_tracts df).
Proof.
  unfold collect_detailed_table, collect_table_basic.
  destruct (negb cenpy_available).
  - destruct (get_common_variables table) as [|v vs]; [contradiction|].
    destruct (acs5_get (v :: vs)) as [df|] eqn:E; [|contradiction]. eauto.
  - destruct variables_index as [variables|]; [|contradiction].
    destruct (filter _ variables) as [|v vs]; [contradiction|].
    destruct (acs5_get (firstn 50 (v :: vs))) as [df|] eqn:E; [|contradiction]. eauto.
Qed.

(** The variable code of a melted row is the name of a value column. *)
Lemma melt_tracts_variable (df : census_frame) (r : long_row) :
  In r (melt_tracts df) -> In (variable r) (columns (value_cols df)).
Proof.
  unfold melt_tracts. rewrite in_flat_map. intros ([var col] & Hc & Hr).
  assert (Hv : forall g cells,
            In r (zip_with (fun '(state, county, tract) est =>
                              LongRow ((state ++ county) ++ tract) (tract_label tract)
                                      var est) g cells) ->
            variable r = var).
  { induction g as [|[[s c] t] g IH]; intros [|e cells] Hin;
      simpl in Hin; try contradiction.
    destruct Hin as [<-|Hin]; [reflexivity | eauto]. }
  apply Hv in Hr.
  rewrite Hr. unfold columns. apply (in_map fst) in Hc. exact Hc.
Qed.

(** Every predefined variable is a key of the reshaper's mapping under both
    of its spellings. *)
Lemma common_table_vars_mapped (table : string) (vars : list string) (v : string) :
  In (table, vars) common_table_vars -> In v vars ->
  String.prefix (table ++ "_") v = true
  /\ (exists name, dict_get v variable_mapping = Some name)
  /\ (exists name, dict_get (v ++ "E")%string variable_mapping = Some name).
Proof.
  assert (H : forallb (fun '(t, vars) =>
                 forallb (fun v => String.prefix (t ++ "_") v
                                   && match dict_get v variable_mapping with
                                      | Some _ => true
                                      | None => false
                                      end
                                   && match dict_get (v ++ "E")%string variable_mapping with
                                      | Some _ => true
                                      | None => false
                                      end) vars) common_table_vars = true)
    by (vm_compute; reflexivity).
  intros E Hv.
  rewrite forallb_forall in H. specialize (H _ E). cbv beta iota in H.
  rewrite forallb_forall in H. specialize (H _ Hv).
  apply andb_prop in H. destruct H as [H He].
  apply andb_prop in H. destruct H as [Hp Hm]. split; [exact Hp|]. split.
  - destruct (dict_get v variable_mapping) as [name|]; [eauto|discriminate].
  - destruct (dict_get (v ++ "E")%string variable_mapping) as [name|]; [eauto|discriminate].
Qed.

Lemma zip_with_length_eq {A B C} (f : A -> B -> C) (l : list A) (m : list B) :
  List.length m = List.length l -> List.length (zip_with f l m) = List.length l.
Proof. intros H. rewrite zip_with_length. lia. Qed.

End CollectorExtras.

(** X12. Melting an answer with one estimate per tract in every value
    column gives one long row per tract and variable, each carrying the
    GEOID [state + county + tract] and the name built from the tract
    code. *)
Theorem melt_one_row_per_cell (df : census_frame) :
  (forall var col, In (var, col) (value_cols df) ->
                   List.length col = List.length (geo df)) ->
  List.length (melt_tracts df) = List.length (value_cols df) * List.length (geo df)
  /\ forall r, In r (melt_tracts df) ->
       exists state county tract,
         In (state, county, tract) (geo df)
         /\ GEOID r = ((state ++ county) ++ tract)%string
         /\ NAME r = tract_label tract.
Proof.
  intros Hrect. split; [|apply melt_tracts_In].
  unfold melt_tracts. induction (value_cols df) as [|[var col] vs IH]; simpl; auto.
  rewrite length_app, IH.
  - rewrite zip_with_length_eq; auto. apply (Hrect var). now left.
  - intros v c Hin. apply (Hrect v). now right.
Qed.

Lemma melt_one_row_per_cell_witness :
  List.length (melt_tracts two_tract_answer)
  = List.length (value_cols two_tract_answer) * List.length (geo two_tract_answer)
  /\ forall r, In r (melt_tracts two_tract_answer) ->
       exists state county tract,
         In (state, county, tract) (geo two_tract_answer)
         /\ GEOID r = ((state ++ county) ++ tract)%string
         /\ NAME r = tract_label tract.
Proof.
  apply (melt_one_row_per_cell two_tract_answer).
  simpl. intros var col [[= <- <-]|[[= <- <-]|[]]]; reflexivity.
Defined.

(** X13. Rows gathered by the detailed-table collector for any list of
    tables, when every answer carries one state and one county code, reshape
    into a wide table in which no GEOID occurs twice: there the tract name
    is a function of the tract code. *)
Theorem detailed_tables_unique_geoid
        (acs5_get : list string -> outcome census_frame)
        (cenpy_available : bool) (variables_index : outcome (list string))
        (tables : list string) (state county : string) :
  (forall vars df s c t, acs5_get vars = Returns df -> In (s, c, t) (geo df) ->
                         s = state /\ c = county) ->
  NoDup (GEOID_column
           (transform_to_wide_format
              (flat_map (collect_detailed_table acs5_get cenpy_available variables_index)
                        tables))).
Proof.
  intros Hgeo. unfold GEOID_column.
  set (rows := flat_map _ tables).
  assert (Hrow : forall r, In r rows ->
            exists t, GEOID r = ((state ++ county) ++ t)%string /\ NAME r = tract_label t).
  { intros r Hr. unfold rows in Hr. apply in_flat_map in Hr.
    destruct Hr as (table & _ & Hr). apply collected_rows in Hr.
    destruct Hr as (vars & df & Hget & Hr). apply melt_tracts_In in Hr.
    destruct Hr as (s & c & t & Hin & Hg & Hn).
    destruct (Hgeo vars df s c t Hget Hin) as [-> ->]. eauto. }
  rewrite transform_is_pivot.
  apply Finite.Injective_map_NoDup_in; [|apply pivot_index_NoDup].
  intros [g1 n1] [g2 n2] H1 H2 Hfst. simpl in Hfst. subst g2.
  apply pivot_index_In in H1, H2.
  destruct H1 as (m1 & Hm1 & Hk1 & _), H2 as (m2 & Hm2 & Hk2 & _).
  apply map_rows_In in Hm1, Hm2.
  destruct Hm1 as (r1 & name1 & Hr1 & _ & ->), Hm2 as (r2 & name2 & Hr2 & _ & ->).
  simpl in Hk1, Hk2. injection Hk1 as Hg1 Hn1. injection Hk2 as Hg2 Hn2.
  destruct (Hrow r1 Hr1) as (t1 & Hg1' & Hn1'), (Hrow r2 Hr2) as (t2 & Hg2' & Hn2').
  assert (t1 = t2).
  { apply (append_inj_l (state ++ county)). congruence. }
  subst. f_equal. congruence.
Qed.

Lemma detailed_tables_unique_geoid_witness :
  NoDup (GEOID_column
           (transform_to_wide_format
              (flat_map (collect_detailed_table two_tract_endpoint false (Raises "unused"))
                        ["B01003"; "B25001"]))).
Proof.
  apply (detailed_tables_unique_geoid two_tract_endpoint false (Raises "unused")
           ["B01003"; "B25001"] "22" "033").
  intros vars df s c t [= <-]. simpl.
  intros [[= <- <- <-]|[[= <- <- <-]|[]]]; split; reflexivity.
Defined.

(** X14. Every variable the basic collector asks for belongs to the table
    it is listed under and has a friendly name in the reshaper's mapping.
    The variable codes of the rows it gathers are the names of the answer's
    value columns: when each of these is a requested variable, with or
    without the ['E'] suffix, every row gathered has a mapped variable code
    and the reshaper drops none of them as unmapped.  A table without a
    predefined list yields no variable and no row. *)
Theorem common_variables_mapped (table : string) :
  (forall v, In v (get_common_variables table) ->
     String.prefix (table ++ "_") v = true
     /\ exists name, dict_get v variable_mapping = Some name)
  /\ (forall acs5_get df,
        acs5_get (get_common_variables table) = Returns df ->
        (forall col, In col (columns (value_cols df)) ->
           exists v, In v (get_common_variables table)
                     /\ (col = v \/ col = (v ++ "E")%string)) ->
        forall r, In r (collect_table_basic acs5_get table) -> is_mapped r = true)
  /\ (dict_get table common_table_vars = None ->
      forall acs5_get, collect_table_basic acs5_get table = []).
Proof.
  assert (Hvars : forall v, In v (get_common_variables table) ->
            String.prefix (table ++ "_") v = true
            /\ (exists name, dict_get v variable_mapping = Some name)
            /\ (exists name, dict_get (v ++ "E")%string variable_mapping = Some name)).
  { intros v Hv. unfold get_common_variables in Hv.
    destruct (dict_get table common_table_vars) as [vars|] eqn:E; [|contradiction].
    apply dict_get_In in E. now apply (common_table_vars_mapped table vars). }
  split; [|split].
  - intros v Hv. destruct (Hvars v Hv) as (Hp & Hm & _). auto.
  - intros acs5_get df Hget Hcols r Hr.
    unfold collect_table_basic in Hr.
    destruct (get_common_variables table) as [|v0 vs] eqn:Ev; [contradiction|].
    rewrite Hget in Hr.
    apply melt_tracts_variable in Hr.
    destruct (Hcols _ Hr) as (v & Hv & Hcol).
    destruct (Hvars v Hv) as (_ & [name Hm] & [nameE HmE]).
    unfold is_mapped. destruct Hcol as [-> | ->].
    + now rewrite Hm.
    + now rewrite HmE.
  - intros E acs5_get. unfold collect_table_basic, get_common_variables.
    now rewrite E.
Qed.

Lemma common_variables_mapped_witness :
  List.length (collect_table_basic echo_endpoint "B25003") = 6
  /\ forall r, In r (collect_table_basic echo_endpoint "B25003") -> is_mapped r = true.
Proof.
  split; [reflexivity|].
  destruct (common_variables_mapped "B25003") as (_ & H & _).
  apply (H echo_endpoint
           (CensusFrame [("22", "033", "000100"); ("22", "033", "000200")]
              (map (fun v => ((v ++ "E")%string, [Number (Fin 1); Number (Fin 2)]))
                   (get_common_variables "B25003")))).
  - reflexivity.
  - intros col Hc. vm_compute in Hc.
    destruct Hc as [<-|[<-|[<-|[]]]].
    + exists "B25003_001"%string. split; [vm_compute; auto | right; reflexivity].
    + exists "B25003_002"%string. split; [vm_compute; auto | right; reflexivity].
    + exists "B25003_003"%string. split; [vm_compute; auto | right; reflexivity].
Defined.

(** ** Properties of the municipal data cleaning ([filter_and_clean_data]) *)

Section CleanerExtras.

Lemma take_rows_subseq {A} (mask : list bool) (v : list A) : subseq (take_rows mask v) v.
Proof.
  revert v. induction mask as [|b mask IH]; intros [|x v]; simpl;
    try apply subseq_nil_l.
  destruct b.
  - apply subseq_keep, IH.
  - apply subseq_skip, IH.
Qed.

Lemma subseq_trans {A} (l m n : list A) : subseq l m -> subseq m n -> subseq l n.
Proof.
  intros H1 H2. revert l H1.
  induction H2 as [|x m n H2 IH|x m n H2 IH]; intros l H1.
  - exact H1.
  - apply subseq_skip. auto.
  - inversion H1; subst.
    + apply subseq_skip. auto.
    + apply subseq_keep. auto.
Qed.

Lemma get_col_select_rows (c : string) (mask : list bool) (df : data_frame) :
  get_col c (select_rows mask df) = option_map (take_rows mask) (get_col c df).
Proof. unfold select_rows. apply get_col_map_values. Qed.

Lemma take_rows_coordinates_l (lon lat : list raw) :
  Forall (fun c => isnull c = false)
    (take_rows (zip_with (fun a b => negb (isnull a) && negb (isnull b)) lon lat) lon).
Proof.
  revert lat. induction lon as [|a lon IH]; intros [|b lat]; simpl; auto.
  destruct (isnull a) eqn:Ea; simpl; auto.
  destruct (isnull b); simpl; auto.
Qed.

Lemma take_rows_coordinates_r (lon lat : list raw) :
  Forall (fun c => isnull c = false)
    (take_rows (zip_with (fun a b => negb (isnull a) && negb (isnull b)) lon lat) lat).
Proof.
  revert lat. induction lon as [|a lon IH]; intros [|b lat]; simpl; auto.
  destruct (isnull a) eqn:Ea; simpl; auto.
  destruct (isnull b) eqn:Eb; simpl; auto.
Qed.

Lemma blight_filter_col (c : string) (df : data_frame) (v : list raw) :
  get_col c (blight_filter df) = Some v ->
  exists v0, get_col c df = Some v0 /\ subseq v v0.
Proof.
  unfold blight_filter. destruct (get_col "parenttype" df) as [col|].
  - rewrite get_col_select_rows. destruct (get_col c df) as [v0|]; [|discriminate].
    simpl. intros [= <-]. exists v0. split; auto. apply take_rows_subseq.
  - intros H. exists v. split; auto. apply subseq_refl.
Qed.

Lemma blight_filter_has (c : string) (df : data_frame) :
  has_col c (blight_filter df) = has_col c df.
Proof.
  unfold blight_filter, has_col. destruct (get_col "parenttype" df) as [col|]; auto.
  rewrite get_col_select_rows. now destruct (get_col c df).
Qed.

Lemma frame_rows_tag (name : string) (df : data_frame) :
  df <> [] -> frame_rows (tag name df) = frame_rows df.
Proof.
  destruct df as [|[n v] df]; [congruence|]. intros _. unfold tag.
  cbn [set_col]. destruct (String.eqb "dataset_type" n); cbn [frame_rows]; auto.
  apply repeat_length.
Qed.

Lemma clean_get (name : string) (pre : data_frame -> data_frame)
      (datasets acc : table data_frame) (n : string) (df : data_frame) :
  get_col n (clean name pre datasets acc) = Some df ->
  (n = name /\ cleaned_from name pre datasets df) \/ get_col n acc = Some df.
Proof.
  unfold clean. destruct (get_col name datasets) as [raw_df|] eqn:Er; auto.
  destruct (frame_empty raw_df) eqn:Ee; auto.
  unfold dropna_coordinates.
  destruct (get_col "longitude" (pre raw_df)) as [lon|] eqn:Elon; auto.
  destruct (get_col "latitude" (pre raw_df)) as [lat|] eqn:Elat; auto.
  destruct (String.eqb_spec n name) as [->|Hne].
  - rewrite get_col_set_same. intros [= <-]. left. split; auto.
    exists raw_df, lon, lat. auto.
  - rewrite get_col_set_other; auto.
Qed.

Lemma cleaned_entry (datasets : table data_frame) (n : string) (df : data_frame) :
  get_col n (filter_and_clean_data datasets) = Some df ->
  (n = "crime" /\ cleaned_from "crime" (fun d => d) datasets df)
  \/ (n = "permits" /\ cleaned_from "permits" (fun d => d) datasets df)
  \/ (n = "blight" /\ cleaned_from "blight" blight_filter datasets df).
Proof.
  unfold filter_and_clean_data. intros H.
  apply clean_get in H. destruct H as [H|H]; auto.
  apply clean_get in H. destruct H as [H|H]; auto.
  apply clean_get in H. destruct H as [H|H]; auto.
  discriminate.
Qed.

Lemma cleaned_from_valid (name : string) (pre : data_frame -> data_frame)
      (datasets : table data_frame) (df : data_frame) :
  cleaned_from name pre datasets df ->
  (exists lon lat,
      get_col "longitude" df = Some lon /\ get_col "latitude" df = Some lat
      /\ Forall (fun c => isnull c = false) lon
      /\ Forall (fun c => isnull c = false) lat)
  /\ get_col "dataset_type" df = Some (repeat (Text name) (frame_rows df)).
Proof.
  intros (raw_df & lon & lat & Hr & He & Hlon & Hlat & ->).
  set (mask := zip_with _ lon lat). split.
  - exists (take_rows mask lon), (take_rows mask lat). unfold tag.
    rewrite !get_col_set_other by discriminate.
    rewrite !get_col_select_rows, Hlon, Hlat. simpl. repeat split; auto.
    + apply take_rows_coordinates_l.
    + apply take_rows_coordinates_r.
  - rewrite frame_rows_tag.
    + unfold tag. apply get_col_set_same.
    + intros E. assert (H : get_col "longitude" (select_rows mask (pre raw_df)) = None)
        by (rewrite E; reflexivity).
      rewrite get_col_select_rows, Hlon in H. discriminate.
Qed.

Lemma cleaned_from_subseq (name : string) (pre : data_frame -> data_frame)
      (datasets : table data_frame) (df : data_frame) (c : string) (v : list raw) :
  (forall d c v, get_col c (pre d) = Some v ->
                 exists v0, get_col c d = Some v0 /\ subseq v v0) ->
  cleaned_from name pre datasets df ->
  c <> "dataset_type" -> get_col c df = Some v ->
  exists raw_df v0, get_col name datasets = Some raw_df
                    /\ get_col c raw_df = Some v0 /\ subseq v v0.
Proof.
  intros Hpre (raw_df & lon & lat & Hr & He & Hlon & Hlat & ->) Hc.
  unfold tag. rewrite get_col_set_other by auto.
  rewrite get_col_select_rows.
  destruct (get_col c (pre raw_df)) as [v1|] eqn:E1; [|discriminate].
  simpl. intros [= <-].
  destruct (Hpre _ _ _ E1) as (v0 & E0 & Hs).
  exists raw_df, v0. repeat split; auto.
  eapply subseq_trans; [apply take_rows_subseq|exact Hs].
Qed.

End CleanerExtras.

(** X15. Every dataset in the cleaned dictionary has both coordinate
    columns, no row with a missing longitude or latitude, and a
    [dataset_type] column that holds the dataset's own name in every row. *)
Theorem cleaned_datasets_valid (datasets : table data_frame) (name : string)
        (df : data_frame) :
  get_col name (filter_and_clean_data datasets) = Some df ->
  (exists lon lat,
      get_col "longitude" df = Some lon /\ get_col "latitude" df = Some lat
      /\ Forall (fun c => isnull c = false) lon
      /\ Forall (fun c => isnull c = false) lat)
  /\ get_col "dataset_type" df = Some (repeat (Text name) (frame_rows df)).
Proof.
  intros H. apply cleaned_entry in H.
  destruct H as [[-> H]|[[-> H]|[-> H]]]; eapply cleaned_from_valid; eauto.
Qed.

Lemma cleaned_datasets_valid_witness :
  (exists lon lat,
      get_col "longitude"
        [("parenttype", [Text "BLIGHTED PROPERTIES"]); ("longitude", [Number (Fin (-91))]);
         ("latitude", [Number (Fin 30)]); ("dataset_type", [Text "blight"])] = Some lon
      /\ get_col "latitude"
           [("parenttype", [Text "BLIGHTED PROPERTIES"]); ("longitude", [Number (Fin (-91))]);
            ("latitude", [Number (Fin 30)]); ("dataset_type", [Text "blight"])] = Some lat
      /\ Forall (fun c => isnull c = false) lon
      /\ Forall (fun c => isnull c = false) lat)
  /\ get_col "dataset_type"
       [("parenttype", [Text "BLIGHTED PROPERTIES"]); ("longitude", [Number (Fin (-91))]);
        ("latitude", [Number (Fin 30)]); ("dataset_type", [Text "blight"])]
     = Some (repeat (Text "blight")
               (frame_rows
                  [("parenttype", [Text "BLIGHTED PROPERTIES"]);
                   ("longitude", [Number (Fin (-91))]);
                   ("latitude", [Number (Fin 30)]); ("dataset_type", [Text "blight"])])).
Proof.
  apply (cleaned_datasets_valid raw_municipal "blight"). vm_compute. reflexivity.
Defined.

(** X16. Cleaning only removes rows: every column of a cleaned dataset,
    [dataset_type] apart, is the column of the same name of the raw dataset
    with some cells left out and the others in their original order. *)
Theorem cleaning_only_removes_rows (datasets : table data_frame) (name c : string)
        (df : data_frame) (v : list raw) :
  get_col name (filter_and_clean_data datasets) = Some df ->
  c <> "dataset_type" ->
  get_col c df = Some v ->
  exists raw_df v0, get_col name datasets = Some raw_df
                    /\ get_col c raw_df = Some v0 /\ subseq v v0.
Proof.
  intros H Hc Hv. apply cleaned_entry in H.
  destruct H as [[-> H]|[[-> H]|[-> H]]].
  - eapply cleaned_from_subseq; eauto.
    intros d c' v' E. exists v'. split; auto. apply subseq_refl.
  - eapply cleaned_from_subseq; eauto.
    intros d c' v' E. exists v'. split; auto. apply subseq_refl.
  - eapply cleaned_from_subseq; eauto.
    intros d c' v' E. now apply blight_filter_col.
Qed.

Lemma cleaning_only_removes_rows_witness :
  exists raw_df v0, get_col "blight" raw_municipal = Some raw_df
                    /\ get_col "longitude" raw_df = Some v0
                    /\ subseq [Number (Fin (-91))] v0.
Proof.
  apply (cleaning_only_removes_rows raw_municipal "blight" "longitude"
           [("parenttype", [Text "BLIGHTED PROPERTIES"]); ("longitude", [Number (Fin (-91))]);
            ("latitude", [Number (Fin 30)]); ("dataset_type", [Text "blight"])]).
  - vm_compute. reflexivity.
  - discriminate.
  - vm_compute. reflexivity.
Defined.

(** X17. The cleaned dictionary has an entry for a dataset exactly when the
    dataset is one of blight, permits and crime, was collected non-empty,
    and has both a longitude and a latitude column; any other dataset is
    left out without an error. *)
Theorem cleaned_dataset_present_iff (datasets : table data_frame) (name : string) :
  has_col name (filter_and_clean_data datasets) = true
  <-> In name ["blight"; "permits"; "crime"]
      /\ exists raw_df, get_col name datasets = Some raw_df
                        /\ frame_empty raw_df = false
                        /\ has_col "longitude" raw_df = true
                        /\ has_col "latitude" raw_df = true.
Proof.
  split.
  - unfold has_col at 1.
    destruct (get_col name (filter_and_clean_data datasets)) as [df|] eqn:E;
      [|discriminate].
    intros _. apply cleaned_entry in E.
    destruct E as [[-> H]|[[-> H]|[-> H]]];
      destruct H as (raw_df & lon & lat & Hr & He & Hlon & Hlat & _);
      (split; [simpl; auto|]); exists raw_df; repeat split; auto.
    + unfold has_col. now rewrite Hlon.
    + unfold has_col. now rewrite Hlat.
    + unfold has_col. now rewrite Hlon.
    + unfold has_col. now rewrite Hlat.
    + rewrite <- blight_filter_has. unfold has_col. now rewrite Hlon.
    + rewrite <- blight_filter_has. unfold has_col. now rewrite Hlat.
  - intros (Hin & raw_df & Hr & He & Hlon & Hlat).
    assert (Hstep : forall pre acc,
               (forall c, has_col c (pre raw_df) = has_col c raw_df) ->
               has_col name (clean name pre datasets acc) = true).
    { intros pre acc Hpre. unfold clean, dropna_coordinates. rewrite Hr, He.
      rewrite <- (Hpre "longitude") in Hlon. rewrite <- (Hpre "latitude") in Hlat.
      unfold has_col in Hlon, Hlat.
      destruct (get_col "longitude" (pre raw_df)); [|discriminate].
      destruct (get_col "latitude" (pre raw_df)); [|discriminate].
      apply has_col_set_same. }
    assert (Hmono : forall n pre acc,
               has_col name acc = true -> has_col name (clean n pre datasets acc) = true).
    { intros n pre acc Hacc. unfold clean.
      destruct (get_col n datasets) as [d|]; auto.
      destruct (frame_empty d); auto.
      destruct (dropna_coordinates (pre d)); auto.
      now apply has_col_set_mono. }
    unfold filter_and_clean_data.
    destruct Hin as [<-|[<-|[<-|[]]]].
    + apply Hmono, Hmono, Hstep. intros c. apply blight_filter_has.
    + apply Hmono, Hstep. reflexivity.
    + apply Hstep. reflexivity.
Qed.

(** ** Properties of the indicator functions of the analyzer
       ([calculate_housing_quality_indicators],
        [calculate_social_isolation_indicators]) *)

Section AnalyzerExtras.

Lemma writes_columns (s s' : frame) (ws : list string) :
  writes s ws s' -> exists ext, columns s' = columns s ++ ext /\ incl ext ws.
Proof.
  induction 1 as [s|s c v ws s' H IH].
  - exists []. split; [now rewrite app_nil_r|apply incl_refl].
  - destruct IH as (ext & Hc & Hi).
    destruct (has_col c s) eqn:E.
    + exists ext. rewrite Hc, columns_set_col_present by auto.
      split; auto. now apply incl_tl.
    + exists (c :: ext). rewrite Hc, columns_set_col_absent by auto.
      rewrite <- app_assoc. split; auto.
      intros x [<-|Hx]; [now left|right; auto].
Qed.

Lemma assigns_refl (names : list string) (s : frame) : assigns names s s.
Proof. exists []. split; [intros x []|constructor]. Qed.

Lemma assigns_set (names : list string) (s : frame) (c : string) (v : series) :
  In c names -> assigns names s (set_col c v s).
Proof.
  intros Hc. exists [c]. split; [intros x [<-|[]]; auto|apply writes_one].
Qed.

Lemma assigns_trans (names : list string) (s1 s2 s3 : frame) :
  assigns names s1 s2 -> assigns names s2 s3 -> assigns names s1 s3.
Proof.
  intros (w1 & I1 & W1) (w2 & I2 & W2). exists (w1 ++ w2). split.
  - now apply incl_app.
  - eapply writes_app; eauto.
Qed.

Lemma assigns_frame (names : list string) (s s' : frame) (c : string) :
  assigns names s s' -> ~ In c names -> get_col c s' = get_col c s.
Proof.
  intros (ws & Hi & Hw) Hc. eapply writes_frame; eauto.
Qed.

Lemma assigns_columns (names : list string) (s s' : frame) :
  assigns names s s' -> exists ext, columns s' = columns s ++ ext /\ incl ext names.
Proof.
  intros (ws & Hi & Hw). destruct (writes_columns _ _ _ Hw) as (ext & Hc & He).
  exists ext. split; auto. eapply incl_tran; eauto.
Qed.

Lemma filled_rate_assigns (names : list string) (out num den : string) (df : frame) :
  In out names -> assigns names df (filled_rate out num den df).
Proof.
  intros Hin. unfold filled_rate.
  destruct (get_col num df); [|apply assigns_refl].
  destruct (get_col den df); [|apply assigns_refl].
  now apply assigns_set.
Qed.

Lemma filled_sum_rate_assigns (names : list string) (out : string) (p : string -> bool)
      (den : string) (df : frame) :
  In out names -> assigns names df (filled_sum_rate out p den df).
Proof.
  intros Hin. unfold filled_sum_rate.
  destruct (filter p (columns df)); [apply assigns_refl|now apply assigns_set].
Qed.

Lemma social_assigns (df : frame) :
  assigns social_indicator_names df (calculate_social_isolation_indicators df).
Proof.
  unfold calculate_social_isolation_indicators, digital_isolation_rate, no_vehicle_rate,
    disability_rate, language_isolation_rate, single_person_household_rate,
    elderly_living_alone_rate.
  repeat (eapply assigns_trans;
          [|first [apply filled_rate_assigns|apply filled_sum_rate_assigns];
            simpl; tauto]).
  apply assigns_refl.
Qed.

Lemma housing_step_assigns (df : frame) :
  assigns housing_indicator_names df (housing_vacancy_rate df)
  /\ assigns housing_indicator_names df (high_housing_cost_burden_rate df)
  /\ assigns housing_indicator_names df (old_housing_rate df)
  /\ assigns housing_indicator_names df (mobile_home_rate df)
  /\ assigns housing_indicator_names df (renter_rate df)
  /\ assigns housing_indicator_names df (overcrowding_rate df).
Proof.
  repeat split.
  - unfold housing_vacancy_rate.
    destruct (get_col "Total_Housing_Units" df); [|apply assigns_refl].
    destruct (get_col "Occupied_Units" df); [|apply assigns_refl].
    apply assigns_set; simpl; tauto.
  - unfold high_housing_cost_burden_rate.
    destruct (filter _ _); [apply assigns_refl|apply assigns_set; simpl; tauto].
  - unfold old_housing_rate.
    destruct (filter _ _); [apply assigns_refl|apply assigns_set; simpl; tauto].
  - unfold mobile_home_rate.
    destruct (get_col "Mobile_Home" _); [apply assigns_set; simpl; tauto|apply assigns_refl].
  - unfold renter_rate.
    destruct (get_col "Renter_Occupied" _); [|apply assigns_refl].
    destruct (get_col "Occupied_Units" _); [|apply assigns_refl].
    apply assigns_set; simpl; tauto.
  - unfold overcrowding_rate.
    destruct (filter _ _); [apply assigns_refl|apply assigns_set; simpl; tauto].
Qed.

Lemma housing_assigns (df : frame) :
  assigns housing_indicator_names df (calculate_housing_quality_indicators df).
Proof.
  unfold calculate_housing_quality_indicators.
  eapply assigns_trans; [|apply housing_step_assigns].
  eapply assigns_trans; [|apply housing_step_assigns].
  eapply assigns_trans; [|apply housing_step_assigns].
  eapply assigns_trans; [|apply housing_step_assigns].
  eapply assigns_trans; [|apply housing_step_assigns].
  apply housing_step_assigns.
Qed.

Lemma map_fillna0_notna (v : series) : Forall (fun a => notna a = true) (map fillna0 v).
Proof.
  apply Forall_forall. intros a Ha. apply in_map_iff in Ha.
  destruct Ha as (x & <- & _). now destruct x.
Qed.

Lemma filled_rate_fills (out num den : string) (df : frame) :
  fills out df (filled_rate out num den df).
Proof.
  unfold filled_rate, fills.
  destruct (get_col num df); auto. destruct (get_col den df); auto.
  right. eexists. split; [apply map_fillna0_notna|reflexivity].
Qed.

Lemma filled_sum_rate_fills (out : string) (p : string -> bool) (den : string)
      (df : frame) :
  fills out df (filled_sum_rate out p den df).
Proof.
  unfold filled_sum_rate, fills. destruct (filter p (columns df)); auto.
  right. eexists. split; [apply map_fillna0_notna|reflexivity].
Qed.

Lemma fills_kept (out : string) (s0 s s' : frame) :
  kept_or_filled s0 s -> fills out s s' -> kept_or_filled s0 s'.
Proof.
  intros Hk [->|(w & Hw & ->)]; auto.
  intros c v. destruct (String.eqb_spec c out) as [->|Hne].
  - rewrite get_col_set_same. intros [= <-]. auto.
  - rewrite get_col_set_other by auto. apply Hk.
Qed.

End AnalyzerExtras.

(** X18. Neither indicator function alters or drops a column of its input
    other than its own six outputs, and it keeps the input's column order:
    new indicator columns are added on the right. *)
Theorem indicator_functions_keep_input (df : frame) :
  ((forall c, ~ In c housing_indicator_names ->
      get_col c (calculate_housing_quality_indicators df) = get_col c df)
   /\ exists ext, columns (calculate_housing_quality_indicators df) = columns df ++ ext
                  /\ incl ext housing_indicator_names)
  /\ ((forall c, ~ In c social_indicator_names ->
         get_col c (calculate_social_isolation_indicators df) = get_col c df)
      /\ exists ext, columns (calculate_social_isolation_indicators df) = columns df ++ ext
                     /\ incl ext social_indicator_names).
Proof.
  split; split.
  - intros c Hc. eapply assigns_frame; [apply housing_assigns|exact Hc].
  - apply assigns_columns, housing_assigns.
  - intros c Hc. eapply assigns_frame; [apply social_assigns|exact Hc].
  - apply assigns_columns, social_assigns.
Qed.

(** X19. [calculate_social_isolation_indicators] never leaves a NaN of its
    own: each column of its result is either a column of the input, cell
    for cell, or has no NaN cell (a rate 0/0 is stored as 0; a rate x/0
    stays infinite). *)
Theorem social_indicators_no_nan (df : frame) (c : string) (v : series) :
  get_col c (calculate_social_isolation_indicators df) = Some v ->
  get_col c df = Some v \/ Forall (fun a => notna a = true) v.
Proof.
  revert c v. change (kept_or_filled df (calculate_social_isolation_indicators df)).
  unfold calculate_social_isolation_indicators, digital_isolation_rate, no_vehicle_rate,
    disability_rate, language_isolation_rate, single_person_household_rate,
    elderly_living_alone_rate.
  repeat (eapply fills_kept;
          [|first [apply filled_rate_fills|apply filled_sum_rate_fills]]).
  intros c v H. now left.
Qed.

Lemma social_indicators_no_nan_witness :
  get_col "Elderly_Living_Alone_Rate" isolation_table = Some [Fin 25; Fin 0]
  \/ Forall (fun a => notna a = true) [Fin 25; Fin 0].
Proof.
  apply (social_indicators_no_nan isolation_table "Elderly_Living_Alone_Rate").
  vm_compute. reflexivity.
Defined.

(** ** Row counts through the ACS strand *)

Section RowCounts.

Variable sqrtQ : Q -> Q.
Variable n : nat.

Lemma fold_zip_xadd_length (cs : list series) (acc : series) :
  List.length acc = n -> Forall (fun v => List.length v = n) cs ->
  List.length (fold_left (zip_with xadd) cs acc) = n.
Proof.
  revert acc. induction cs as [|c cs IH]; intros acc Ha Hcs; simpl; auto.
  apply IH; [|now apply Forall_inv_tail in Hcs].
  apply Forall_inv in Hcs. rewrite zip_with_length. lia.
Qed.

Lemma sum_axis1_length (cs : list series) :
  cs <> [] -> Forall (fun v => List.length v = n) cs -> List.length (sum_axis1 cs) = n.
Proof.
  destruct cs as [|c cs]; [congruence|]. intros _ H.
  pose proof (Forall_inv H) as Hc. apply Forall_inv_tail in H.
  unfold sum_axis1. apply fold_zip_xadd_length.
  - now rewrite length_map.
  - apply Forall_forall. intros v Hv. apply in_map_iff in Hv.
    destruct Hv as (w & <- & Hw). rewrite length_map.
    rewrite Forall_forall in H. auto.
Qed.

Lemma uniform_get (df : frame) (c : string) (v : series) :
  uniform n df -> get_col c df = Some v -> List.length v = n.
Proof. intros [_ H] Hg. apply (H c). now apply get_col_In. Qed.

Lemma select_lengths (df : frame) (cols : list string) :
  uniform n df -> Forall (fun v => List.length v = n) (select cols df).
Proof.
  intros Hu. unfold select. apply Forall_forall. intros v Hv.
  apply in_flat_map in Hv. destruct Hv as (c & _ & Hv).
  destruct (get_col c df) as [w|] eqn:E; [|contradiction].
  destruct Hv as [<-|[]]. eapply uniform_get; eauto.
Qed.

Lemma select_filter_nonempty (df : frame) (p : string -> bool) (c : string)
      (cols : list string) :
  filter p (columns df) = c :: cols -> select (c :: cols) df <> [].
Proof.
  intros E. assert (Hc : In c (filter p (columns df))) by (rewrite E; now left).
  apply filter_In in Hc. destruct Hc as [Hc _]. apply has_col_In in Hc.
  unfold has_col in Hc. unfold select. simpl.
  destruct (get_col c df); [discriminate|discriminate].
Qed.

Lemma rate_over_get_length (den : string) (df : frame) (num : series) :
  uniform n df -> List.length num = n -> List.length (rate_over_get den df num) = n.
Proof.
  intros Hu Hn. unfold rate_over_get. destruct (get_col den df) as [d|] eqn:E.
  - rewrite zip_with_length, Hn, (uniform_get _ _ _ Hu E). lia.
  - now rewrite length_map.
Qed.

Lemma sum_rate_length (den : string) (df : frame) (p : string -> bool) (c : string)
      (cols : list string) :
  uniform n df -> filter p (columns df) = c :: cols ->
  List.length (rate_over_get den df (sum_axis1 (select (c :: cols) df))) = n.
Proof.
  intros Hu E. apply rate_over_get_length; auto.
  apply sum_axis1_length.
  - eapply select_filter_nonempty; eauto.
  - now apply select_lengths.
Qed.

Lemma rate_length (df : frame) (a b : string) (x y : series)
      (f : xnum -> xnum -> xnum) :
  uniform n df -> get_col a df = Some x -> get_col b df = Some y ->
  List.length (zip_with f x y) = n.
Proof.
  intros Hu Ha Hb.
  rewrite zip_with_length, (uniform_get _ _ _ Hu Ha), (uniform_get _ _ _ Hu Hb). lia.
Qed.

Lemma housing_uniform (df : frame) :
  uniform n df -> uniform n (calculate_housing_quality_indicators df).
Proof.
  intros Hu. unfold calculate_housing_quality_indicators.
  assert (H1 : uniform n (housing_vacancy_rate df)).
  { unfold housing_vacancy_rate.
    destruct (get_col "Total_Housing_Units" df) as [t|] eqn:Et; auto.
    destruct (get_col "Occupied_Units" df) as [o|] eqn:Eo; auto.
    apply uniform_set; auto. rewrite length_map, zip_with_length, zip_with_length.
    rewrite (uniform_get _ _ _ Hu Et), (uniform_get _ _ _ Hu Eo). lia. }
  revert H1. generalize (housing_vacancy_rate df). clear df Hu. intros df Hu.
  assert (H2 : uniform n (high_housing_cost_burden_rate df)).
  { unfold high_housing_cost_burden_rate.
    destruct (filter _ (columns df)) as [|c cols] eqn:E; auto.
    apply uniform_set; auto. eapply sum_rate_length; eauto. }
  revert H2. generalize (high_housing_cost_burden_rate df). clear df Hu. intros df Hu.
  assert (H3 : uniform n (old_housing_rate df)).
  { unfold old_housing_rate.
    destruct (filter _ (columns df)) as [|c cols] eqn:E; auto.
    apply uniform_set; auto. eapply sum_rate_length; eauto. }
  revert H3. generalize (old_housing_rate df). clear df Hu. intros df Hu.
  assert (H4 : uniform n (mobile_home_rate df)).
  { unfold mobile_home_rate.
    destruct (get_col "Mobile_Home" df) as [m|] eqn:Em; auto.
    apply uniform_set; auto. apply rate_over_get_length; auto.
    eapply uniform_get; eauto. }
  revert H4. generalize (mobile_home_rate df). clear df Hu. intros df Hu.
  assert (H5 : uniform n (renter_rate df)).
  { unfold renter_rate.
    destruct (get_col "Renter_Occupied" df) as [r|] eqn:Er; auto.
    destruct (get_col "Occupied_Units" df) as [o|] eqn:Eo; auto.
    apply uniform_set; auto. eapply rate_length; eauto. }
  revert H5. generalize (renter_rate df). clear df Hu. intros df Hu.
  unfold overcrowding_rate.
  destruct (filter _ (columns df)) as [|c cols] eqn:E; auto.
  apply uniform_set; auto. eapply sum_rate_length; eauto.
Qed.

Lemma filled_rate_uniform (out num den : string) (df : frame) :
  uniform n df -> uniform n (filled_rate out num den df).
Proof.
  intros Hu. unfold filled_rate.
  destruct (get_col num df) as [x|] eqn:Ex; auto.
  destruct (get_col den df) as [y|] eqn:Ey; auto.
  apply uniform_set; auto. rewrite length_map. eapply rate_length; eauto.
Qed.

Lemma filled_sum_rate_uniform (out : string) (p : string -> bool) (den : string)
      (df : frame) :
  uniform n df -> uniform n (filled_sum_rate out p den df).
Proof.
  intros Hu. unfold filled_sum_rate.
  destruct (filter p (columns df)) as [|c cols] eqn:E; auto.
  apply uniform_set; auto. rewrite length_map. eapply sum_rate_length; eauto.
Qed.

Lemma social_uniform (df : frame) :
  uniform n df -> uniform n (calculate_social_isolation_indicators df).
Proof.
  intros Hu.
  unfold calculate_social_isolation_indicators, digital_isolation_rate, no_vehicle_rate,
    disability_rate, language_isolation_rate, single_person_household_rate,
    elderly_living_alone_rate.
  repeat first [apply filled_rate_uniform|apply filled_sum_rate_uniform]. exact Hu.
Qed.

Lemma uniform_not_empty (df : frame) : 0 < n -> uniform n df -> is_empty df = false.
Proof.
  intros Hn Hu. pose proof (uniform_nrows _ _ Hu) as Hr.
  destruct Hu as [Hne _]. destruct df as [|x df]; [congruence|].
  unfold is_empty. rewrite Hr. apply Nat.eqb_neq. lia.
Qed.

Lemma in_lift (df : frame) (c : string) (col : column) :
  In (c, col) (lift df) -> exists v, col = Numeric v /\ In (c, v) df.
Proof.
  unfold lift. intros H. apply in_map_iff in H. destruct H as ([c' v] & [= <- <-] & Hin).
  eauto.
Qed.

Lemma scored_lengths (df : frame) (c : string) (col : column) :
  uniform n df ->
  In (c, col) (develop_isolation_risk_model sqrtQ df) -> column_length col = n.
Proof.
  intros Hu. unfold develop_isolation_risk_model.
  assert (Hlift : forall d, uniform n d -> In (c, col) (lift d) -> column_length col = n).
  { intros d [_ Hd] Hin. apply in_lift in Hin. destruct Hin as (v & -> & Hin).
    simpl. eauto. }
  destruct (is_empty df); [now apply Hlift|].
  pose proof (scorer_uniform sqrtQ n df Hu) as Hs.
  set (d := fold_left (score_group sqrtQ) risk_groups df) in *.
  destruct (filter (fun c => has_col c d) risk_components) as [|a av]; [now apply Hlift|].
  intros Hin. apply in_set_col in Hin. destruct Hin as [[= -> ->]|Hin].
  - simpl. rewrite length_map, mean_axis1_length. now apply uniform_nrows.
  - apply (Hlift (set_col "Social_Isolation_Risk_Index"
                    (mean_axis1 (nrows d) (select (a :: av) d)) d)); auto.
    apply uniform_set; auto. rewrite mean_axis1_length. now apply uniform_nrows.
Qed.

End RowCounts.

(** X20. In the ACS strand of the analyzer's run, no stage changes the
    number of tracts: for a non-empty rectangular table all three stages
    run, and every column of every stored result (housing quality, social
    isolation, final analysis) has exactly one entry per input row. *)
Theorem acs_strand_keeps_rows (sqrtQ : Q -> Q) (n : nat) (acs_data : frame) :
  0 < n -> uniform n acs_data ->
  exists housing social final,
    acs_strand sqrtQ acs_data
    = [("housing_quality", lift housing); ("social_isolation", lift social);
       ("final_analysis", final)]
    /\ housing = calculate_housing_quality_indicators acs_data
    /\ social = calculate_social_isolation_indicators housing
    /\ final = develop_isolation_risk_model sqrtQ social
    /\ uniform n housing /\ uniform n social
    /\ forall c col, In (c, col) final -> column_length col = n.
Proof.
  intros Hn Hu.
  pose proof (housing_uniform n acs_data Hu) as Hh.
  pose proof (social_uniform n _ Hh) as Hs.
  exists (calculate_housing_quality_indicators acs_data),
         (calculate_social_isolation_indicators
            (calculate_housing_quality_indicators acs_data)),
         (develop_isolation_risk_model sqrtQ
            (calculate_social_isolation_indicators
               (calculate_housing_quality_indicators acs_data))).
  repeat split; auto; try apply Hh; try apply Hs.
  - unfold acs_strand.
    rewrite (uniform_not_empty n acs_data Hn Hu). cbn [negb].
    rewrite (uniform_not_empty n _ Hn Hh). cbn [negb].
    rewrite (uniform_not_empty n _ Hn Hs). cbn [negb].
    reflexivity.
  - intros c col. now apply scored_lengths.
Qed.

Lemma acs_strand_keeps_rows_witness :
  exists housing social final,
    acs_strand approx_sqrt isolation_table
    = [("housing_quality", lift housing); ("social_isolation", lift social);
       ("final_analysis", final)]
    /\ housing = calculate_housing_quality_indicators isolation_table
    /\ social = calculate_social_isolation_indicators housing
    /\ final = develop_isolation_risk_model approx_sqrt social
    /\ uniform 2 housing /\ uniform 2 social
    /\ forall c col, In (c, col) final -> column_length col = 2.
Proof.
  apply (acs_strand_keeps_rows approx_sqrt 2 isolation_table).
  - lia.
  - split; [discriminate|].
    intros c v H. simpl in H.
    repeat (destruct H as [[= <- <-]|H]; [reflexivity|]). contradiction.
Defined.

(** ** Further properties of the derived indicator calculator
       ([calculate_derived_indicators]) *)

Section CalculatorExtras.

Lemma run_g_assigns (names : list string) (g : gassign) (df df' : frame) :
  In (target g) names -> run_g df g = Some df' -> assigns names df df'.
Proof.
  intros Hin. unfold run_g, assign.
  destruct (forallb _ (guards g)).
  - destruct (eval df (rhs g)) as [v|]; [|discriminate].
    simpl. intros [= <-]. now apply assigns_set.
  - intros [= <-]. apply assigns_refl.
Qed.

Lemma run_gs_assigns (names : list string) (gs : list gassign) (df df' : frame) :
  incl (map target gs) names -> run_gs gs df = Some df' -> assigns names df df'.
Proof.
  revert df. induction gs as [|g gs IH]; intros df Hincl H; simpl in H.
  - injection H as <-. apply assigns_refl.
  - destruct (run_g df g) as [d|] eqn:E; [|discriminate].
    eapply assigns_trans.
    + eapply run_g_assigns; [|exact E]. apply Hincl. now left.
    + apply IH; auto. intros x Hx. apply Hincl. now right.
Qed.

Lemma derive_assigns (t t' : frame) :
  derive t = Some t' -> assigns derived_names t t'.
Proof.
  unfold derive. rewrite exec_blocks_flat. apply run_gs_assigns, incl_refl.
Qed.

Lemma get_cols_lengths (n : nat) (cs : list string) (df : frame) (vs : list series) :
  uniform n df -> get_cols cs df = Some vs ->
  Forall (fun v => List.length v = n) vs /\ List.length vs = List.length cs.
Proof.
  intros Hu. revert vs. induction cs as [|c cs IH]; intros vs H; simpl in H.
  - injection H as <-. auto.
  - destruct (get_col c df) as [v|] eqn:E; [|discriminate].
    destruct (get_cols cs df) as [ws|]; [|discriminate].
    injection H as <-. destruct (IH ws eq_refl) as [Hf Hl]. split.
    + constructor; auto. eapply uniform_get; eauto.
    + simpl. now rewrite Hl.
Qed.

Lemma eval_operand_length (n : nat) (o : operand) (df : frame) (v : series) :
  uniform n df -> operand_nonempty o = true -> eval_operand df o = Some v ->
  List.length v = n.
Proof.
  intros Hu Ho. destruct o as [c|cs|a b]; simpl.
  - intros H. eapply uniform_get; eauto.
  - destruct (get_cols cs df) as [vs|] eqn:E; [|discriminate].
    simpl. intros [= <-]. destruct (get_cols_lengths n cs df vs Hu E) as [Hf Hl].
    apply sum_axis1_length; auto.
    destruct cs; [discriminate|]. destruct vs; [discriminate|congruence].
  - destruct (get_col a df) as [va|] eqn:Ea; [|discriminate].
    destruct (get_col b df) as [vb|] eqn:Eb; [|discriminate].
    intros [= <-]. eapply rate_length; eauto.
Qed.

Lemma eval_length (n : nat) (e : expr) (df : frame) (v : series) :
  uniform n df -> expr_nonempty e = true -> eval df e = Some v -> List.length v = n.
Proof.
  intros Hu He. destruct e as [o|num den]; simpl.
  - now apply eval_operand_length.
  - destruct (eval_operand df num) as [x|] eqn:Ex; [|discriminate].
    destruct (get_col den df) as [d|] eqn:Ed; [|discriminate].
    intros [= <-]. unfold safe_divide. rewrite zip_with_length.
    rewrite (eval_operand_length n num df x Hu He Ex), (uniform_get n df den d Hu Ed). lia.
Qed.

Lemma run_gs_uniform (n : nat) (gs : list gassign) (df df' : frame) :
  forallb (fun g => expr_nonempty (rhs g)) gs = true ->
  uniform n df -> run_gs gs df = Some df' -> uniform n df'.
Proof.
  revert df. induction gs as [|g gs IH]; intros df Hok Hu H; simpl in H.
  - now injection H as <-.
  - simpl in Hok. apply andb_prop in Hok. destruct Hok as [Hg Hok].
    destruct (run_g df g) as [d|] eqn:E; [|discriminate].
    apply (IH d); auto.
    unfold run_g, assign in E. destruct (forallb _ (guards g)).
    + destruct (eval df (rhs g)) as [v|] eqn:Ev; [|discriminate].
      simpl in E. injection E as <-. apply uniform_set; auto.
      eapply eval_length; eauto.
    + now injection E as <-.
Qed.

Lemma replace_uniform (n : nat) (df : frame) :
  uniform n df -> uniform n (replace_inf_nan df).
Proof.
  intros [Hne H]. split.
  - destruct df; [congruence|discriminate].
  - intros c v Hin. unfold replace_inf_nan in Hin. apply in_map_iff in Hin.
    destruct Hin as ([c' w] & [= <- <-] & Hin). rewrite length_map. eauto.
Qed.

End CalculatorExtras.

(** X21. [calculate_derived_indicators] succeeds on every table, whichever
    columns it has (no lookup of a missing column is ever reached), and
    its result holds no NaN and no infinity in any column, input columns
    included. *)
Theorem derived_indicators_total_finite (t : frame) :
  exists t1, calculate_derived_indicators t = Some t1 /\ all_finite t1.
Proof.
  destruct (derive_total t) as (t' & Ht). exists (replace_inf_nan t').
  unfold calculate_derived_indicators. rewrite Ht. split; auto.
  apply replace_all_finite.
Qed.

(** X22. [calculate_derived_indicators] keeps every input column where it
    stands and adds only indicator columns, on the right; a column that is
    not one of its outputs keeps its values, except that NaN and infinite
    cells become 0. *)
Theorem derived_indicators_keep_input (t : frame) :
  exists t1 ext,
    calculate_derived_indicators t = Some t1
    /\ columns t1 = columns t ++ ext
    /\ incl ext derived_names
    /\ forall c, ~ In c derived_names ->
         get_col c t1 = option_map (map replace_special) (get_col c t).
Proof.
  destruct (derive_total t) as (t' & Ht).
  pose proof (derive_assigns t t' Ht) as Ha.
  destruct (assigns_columns _ _ _ Ha) as (ext & Hc & Hi).
  exists (replace_inf_nan t'), ext.
  unfold calculate_derived_indicators. rewrite Ht. repeat split; auto.
  - now rewrite columns_replace.
  - intros c Hc'. rewrite get_col_replace. f_equal.
    eapply assigns_frame; eauto.
Qed.

(** X23. [calculate_derived_indicators] keeps the number of rows: on a
    non-empty table whose columns all have [n] cells, every column of the
    result, derived or not, has [n] cells. *)
Theorem derived_indicators_keep_rows (n : nat) (t : frame) :
  uniform n t ->
  exists t1, calculate_derived_indicators t = Some t1 /\ uniform n t1.
Proof.
  intros Hu. destruct (derive_total t) as (t' & Ht). exists (replace_inf_nan t').
  unfold calculate_derived_indicators. rewrite Ht. split; auto.
  apply replace_uniform. unfold derive in Ht. rewrite exec_blocks_flat in Ht.
  eapply run_gs_uniform; eauto. vm_compute. reflexivity.
Qed.

Lemma derived_indicators_keep_rows_witness :
  exists t1, calculate_derived_indicators tenure_table = Some t1 /\ uniform 1 t1.
Proof.
  apply (derived_indicators_keep_rows 1 tenure_table).
  split; [discriminate|].
  intros c v H. simpl in H.
  repeat (destruct H as [[= <- <-]|H]; [reflexivity|]). contradiction.
Defined.

(** ** Further properties of the risk scorer ([develop_isolation_risk_model]) *)

Section ScorerExtras.

Variable sqrtQ : Q -> Q.

Lemma score_group_absent (s : frame) (group : string * list string) :
  (forall f, In f (snd group) -> has_col f s = false) ->
  score_group sqrtQ s group = s.
Proof.
  destruct group as [g fs]. simpl. intros H.
  now rewrite (filter_all_false (fun f => has_col f s) fs H).
Qed.

End ScorerExtras.

(** X24. A table that has none of the listed risk factors and none of the
    three category scores comes back from the scorer as it went in: no
    helper column, no risk index and no risk category is added. *)
Theorem scorer_without_factors (sqrtQ : Q -> Q) (df : frame) :
  (forall c, In c all_risk_factors -> has_col c df = false) ->
  (forall c, In c risk_components -> has_col c df = false) ->
  develop_isolation_risk_model sqrtQ df = lift df.
Proof.
  intros Hf Hc. unfold develop_isolation_risk_model.
  destruct (is_empty df); auto.
  assert (E : fold_left (score_group sqrtQ) risk_groups df = df).
  { assert (Hg : forall g, In g risk_groups -> score_group sqrtQ df g = df).
    { intros g Hg. apply score_group_absent. intros f Hin. apply Hf.
      unfold all_risk_factors. apply in_flat_map. eauto. }
    unfold risk_groups in *. cbn [fold_left].
    rewrite (Hg ("Housing_Risk", housing_risk_factors)) by (simpl; tauto).
    rewrite (Hg ("Demographic_Risk", demographic_risk_factors)) by (simpl; tauto).
    apply Hg. simpl; tauto. }
  rewrite E. now rewrite (filter_all_false (fun c => has_col c df) risk_components Hc).
Qed.

Lemma scorer_without_factors_witness :
  develop_isolation_risk_model approx_sqrt tenure_table = lift tenure_table.
Proof.
  apply (scorer_without_factors approx_sqrt tenure_table).
  - intros c Hc. vm_compute in Hc.
    repeat (destruct Hc as [<-|Hc]; [reflexivity|]). contradiction.
  - intros c Hc. vm_compute in Hc.
    repeat (destruct Hc as [<-|Hc]; [reflexivity|]). contradiction.
Defined.

(** ** Further properties of the orchestrator *)

Section OrchestratorExtras.

Variable cfg : config.
Variable env : collaborators.

Lemma collect_source_off (switch : string) (available : bool) (data_key : string)
      (attempt : state -> outcome stored) (fallback : stored) (st : state) :
  lookup cfg "data_sources" switch = Returns false ->
  collect_source cfg switch available data_key attempt fallback st = Returns st.
Proof. intros H. unfold collect_source. now rewrite H. Qed.

Lemma collect_source_inv (switch : string) (available : bool) (data_key : string)
      (attempt : state -> outcome stored) (fallback : stored) (st st' : state) :
  collect_source cfg switch available data_key attempt fallback st = Returns st' ->
  analysis_results st' = analysis_results st
  /\ spatial_data st' = spatial_data st
  /\ (forall k, k <> data_key ->
        get_col k (collected_data st') = get_col k (collected_data st))
  /\ (st' = st
      \/ (lookup cfg "data_sources" switch = Returns true
          /\ exists v, st' = set_collected data_key v st
                       /\ (v = fallback \/ (available = true /\ attempt st = Returns v)))).
Proof.
  unfold collect_source.
  destruct (lookup cfg "data_sources" switch) as [b|e]; [|discriminate]. simpl.
  destruct b; simpl.
  - assert (Hset : forall v, st' = set_collected data_key v st ->
               analysis_results st' = analysis_results st
               /\ spatial_data st' = spatial_data st
               /\ (forall k, k <> data_key ->
                     get_col k (collected_data st') = get_col k (collected_data st))).
    { intros v ->. simpl. repeat split; auto.
      intros k Hk. now apply get_col_set_other. }
    destruct available; simpl.
    + destruct (attempt st) as [v|e] eqn:Ea; intros [= <-].
      * destruct (Hset v eq_refl) as (A & B & C). repeat split; auto.
        right. split; auto. exists v. auto.
      * destruct (Hset fallback eq_refl) as (A & B & C). repeat split; auto.
        right. split; auto. exists fallback. auto.
    + intros [= <-]. destruct (Hset fallback eq_refl) as (A & B & C).
      repeat split; auto. right. split; auto. exists fallback. auto.
  - intros [= <-]. repeat split; auto.
Qed.

Lemma collect_all_data_steps :
  switches_present cfg ->
  exists s1 s2 s3 s4 s5,
    collect_source cfg "census_acs" (acs_collector env) "acs_data"
      (attempt_acs env) empty_frame fresh_state = Returns s1
    /\ collect_source cfg "municipal_data" (municipal_collector env) "municipal_data"
         (attempt_municipal env) empty_dict s1 = Returns s2
    /\ collect_source cfg "health_outcomes" (health_collector env) "health_data"
         (attempt_health env) empty_frame s2 = Returns s3
    /\ collect_source cfg "environmental_data" (environmental_collector env)
         "environmental_data" (attempt_environmental env) empty_dict s3 = Returns s4
    /\ collect_source cfg "crime_analysis" (crime_analyzer env) "crime_analysis"
         (attempt_crime env) empty_frame s4 = Returns s5
    /\ collect_all_data cfg env fresh_state = Returns s5.
Proof.
  intros Hcfg. unfold collect_all_data.
  destruct (Hcfg "census_acs") as [b1 L1]; [simpl; tauto|].
  destruct (Hcfg "municipal_data") as [b2 L2]; [simpl; tauto|].
  destruct (Hcfg "health_outcomes") as [b3 L3]; [simpl; tauto|].
  destruct (Hcfg "environmental_data") as [b4 L4]; [simpl; tauto|].
  destruct (Hcfg "crime_analysis") as [b5 L5]; [simpl; tauto|].
  destruct (collect_source_spec cfg "census_acs" (acs_collector env) "acs_data"
              (attempt_acs env) empty_frame fresh_state b1 L1) as (s1 & E1 & _).
  destruct (collect_source_spec cfg "municipal_data" (municipal_collector env)
              "municipal_data" (attempt_municipal env) empty_dict s1 b2 L2)
    as (s2 & E2 & _).
  destruct (collect_source_spec cfg "health_outcomes" (health_collector env)
              "health_data" (attempt_health env) empty_frame s2 b3 L3) as (s3 & E3 & _).
  destruct (collect_source_spec cfg "environmental_data" (environmental_collector env)
              "environmental_data" (attempt_environmental env) empty_dict s3 b4 L4)
    as (s4 & E4 & _).
  destruct (collect_source_spec cfg "crime_analysis" (crime_analyzer env)
              "crime_analysis" (attempt_crime env) empty_frame s4 b5 L5) as (s5 & E5 & _).
  exists s1, s2, s3, s4, s5. rewrite E1. simpl. rewrite E2. simpl. rewrite E3. simpl.
  rewrite E4. simpl. auto 10.
Qed.

Lemma spatial_phase_analysis (st : state) (b : bool) :
  lookup cfg "data_sources" "spatial_crosswalks" = Returns b ->
  exists st', perform_spatial_analysis cfg env st = Returns st'
              /\ collected_data st' = collected_data st
              /\ analysis_results st' = analysis_results st.
Proof.
  intros Hl. unfold perform_spatial_analysis. rewrite Hl. simpl.
  destruct (b && spatial_mapper env); [|eexists; repeat split; reflexivity].
  eexists. split; [reflexivity|].
  destruct (create_crosswalk env); auto. simpl.
  destruct (lookup cfg "analysis_options" "include_spatial") as [sp|]; auto.
  destruct (sp && acs_collector env && _); auto.
  destruct (get_tract_geometries env); auto.
Qed.

(** The run, phase by phase *)
Lemma run_phases :
  switches_present cfg ->
  exists s1 s2 s3,
    collect_all_data cfg env fresh_state = Returns s1
    /\ perform_spatial_analysis cfg env s1 = Returns s2
    /\ collected_data s2 = collected_data s1
    /\ analysis_results s2 = analysis_results s1
    /\ analyze_social_isolation cfg env s2 = Returns s3
    /\ collected_data s3 = collected_data s1
    /\ run_comprehensive_analysis cfg env
       = Returns (create_results_summary
                    (report_step "data_quality_report" (data_quality_report env)
                       (report_step "policy_recommendations" (policy_recommendations env)
                          (report_step "comprehensive_summary"
                             (comprehensive_summary env) s3)))).
Proof.
  intros Hcfg.
  destruct (collect_all_data_steps Hcfg) as (a1 & a2 & a3 & a4 & s1 & _ & _ & _ & _ & _ & E1).
  destruct (Hcfg "spatial_crosswalks") as [b6 L6]; [simpl; tauto|].
  destruct (spatial_phase_analysis s1 b6 L6) as (s2 & E2 & C2 & A2).
  destruct (analysis_phase_returns cfg env s2) as (s3 & E3 & C3).
  exists s1, s2, s3. repeat split; auto.
  - congruence.
  - unfold run_comprehensive_analysis. rewrite E1. simpl. rewrite E2. simpl.
    rewrite E3. simpl. unfold save_comprehensive_results.
    now destruct (save_results env).
Qed.

Lemma report_step_other (k k' : string) (r : outcome nat) (st : state) :
  k' <> k ->
  get_col k' (analysis_results (report_step k r st)) = get_col k' (analysis_results st).
Proof.
  intros Hk. destruct r; simpl; auto. now apply get_col_set_other.
Qed.

End OrchestratorExtras.

Lemma load_configuration_group (user : config) (g : string) :
  get_col g (load_configuration (Some user))
  = match dict_get g user with
    | Some grp => Some grp
    | None => get_col g default_config
    end.
Proof.
  unfold load_configuration.
  induction user as [|[k grp] user IH] using rev_ind.
  - reflexivity.
  - rewrite fold_left_app, dict_get_snoc. cbn [fold_left].
    destruct (String.eqb_spec g k) as [->|Hne].
    + apply get_col_set_same.
    + rewrite get_col_set_other by auto. exact IH.
Qed.

(** X26. A configuration file is merged group by group, not switch by
    switch: a group named in the file replaces the default group as a whole,
    so a switch the file's group leaves out is gone (reading it raises
    [KeyError]) instead of keeping its default; groups the file does not
    name keep their defaults. *)
Theorem user_group_replaces_default (user : config) (g k : string) :
  lookup (load_configuration (Some user)) g k
  = match dict_get g user with
    | Some grp =>
        match get_col k grp with
        | Some b => Returns b
        | None => Raises ("KeyError: " ++ k)
        end
    | None => lookup default_config g k
    end.
Proof.
  unfold lookup. rewrite load_configuration_group.
  destruct (dict_get g user); reflexivity.
Qed.

Lemma disabled_keys_absent (cfg : config) (env : collaborators) (s5 : state) :
  switches_present cfg ->
  collect_all_data cfg env fresh_state = Returns s5 ->
  forall switch key, In (switch, key) sources ->
    lookup cfg "data_sources" switch = Returns false ->
    get_col key (collected_data s5) = None.
Proof.
  intros Hcfg E5 switch key Hin Hoff.
  destruct (collect_all_data_steps cfg env Hcfg)
    as (s1 & s2 & s3 & s4 & s5' & E1 & E2 & E3 & E4 & E5' & E).
  rewrite E in E5. injection E5 as <-.
  destruct (collect_source_inv cfg _ _ _ _ _ _ _ E1) as (_ & _ & K1 & _).
  destruct (collect_source_inv cfg _ _ _ _ _ _ _ E2) as (_ & _ & K2 & _).
  destruct (collect_source_inv cfg _ _ _ _ _ _ _ E3) as (_ & _ & K3 & _).
  destruct (collect_source_inv cfg _ _ _ _ _ _ _ E4) as (_ & _ & K4 & _).
  destruct (collect_source_inv cfg _ _ _ _ _ _ _ E5') as (_ & _ & K5 & _).
  simpl in Hin.
  destruct Hin as [[= <- <-]|[[= <- <-]|[[= <- <-]|[[= <- <-]|[[= <- <-]|[]]]]]].
  - rewrite (collect_source_off cfg _ _ _ _ _ _ Hoff) in E1. injection E1 as <-.
    rewrite K5, K4, K3, K2 by discriminate. reflexivity.
  - rewrite (collect_source_off cfg _ _ _ _ _ _ Hoff) in E2. injection E2 as <-.
    rewrite K5, K4, K3, K1 by discriminate. reflexivity.
  - rewrite (collect_source_off cfg _ _ _ _ _ _ Hoff) in E3. injection E3 as <-.
    rewrite K5, K4, K2, K1 by discriminate. reflexivity.
  - rewrite (collect_source_off cfg _ _ _ _ _ _ Hoff) in E4. injection E4 as <-.
    rewrite K5, K3, K2, K1 by discriminate. reflexivity.
  - rewrite (collect_source_off cfg _ _ _ _ _ _ Hoff) in E5'. injection E5' as <-.
    rewrite K4, K3, K2, K1 by discriminate. reflexivity.
Qed.

(** X27. A data source that is switched off leaves no trace: the run
    returns, and the collection summary has no entry under that source's
    key (rather than an entry marked as not collected). *)
Theorem disabled_source_leaves_no_entry (cfg : config) (env : collaborators) :
  switches_present cfg ->
  exists summary,
    run_comprehensive_analysis cfg env = Returns summary
    /\ forall switch key, In (switch, key) sources ->
         lookup cfg "data_sources" switch = Returns false ->
         get_col key (data_collection_summary summary) = None.
Proof.
  intros Hcfg.
  destruct (run_phases cfg env Hcfg) as (s1 & s2 & s3 & E1 & _ & _ & _ & _ & C3 & Erun).
  eexists. split; [exact Erun|].
  intros switch key Hin Hoff. unfold create_results_summary. simpl.
  rewrite get_col_map_values, !report_step_collected, C3.
  now rewrite (disabled_keys_absent cfg env s1 Hcfg E1 switch key Hin Hoff).
Qed.

Lemma disabled_source_leaves_no_entry_witness :
  exists summary,
    run_comprehensive_analysis health_off_config benign = Returns summary
    /\ forall switch key, In (switch, key) sources ->
         lookup health_off_config "data_sources" switch = Returns false ->
         get_col key (data_collection_summary summary) = None.
Proof.
  apply (disabled_source_leaves_no_entry health_off_config benign).
  intros k Hk. simpl in Hk.
  repeat (destruct Hk as [<-|Hk]; [eexists; reflexivity|]). contradiction.
Defined.

(** X28. When risk scoring is switched on and the call to the analyzer's
    risk scoring raises, the rest of Phase 3 is abandoned: the run still
    returns, but the analysis summary has neither a [risk_scores] nor a
    [composite_analysis] entry, even with composite indices switched on. *)
Theorem risk_scoring_failure_skips_composite (cfg : config) (env : collaborators) :
  switches_present cfg ->
  lookup cfg "analysis_options" "calculate_risk_scores" = Returns true ->
  raised (risk_scores env) = true ->
  exists summary,
    run_comprehensive_analysis cfg env = Returns summary
    /\ get_col "risk_scores" (analysis_summary summary) = None
    /\ get_col "composite_analysis" (analysis_summary summary) = None.
Proof.
  intros Hcfg Hrisk Hraise.
  destruct (run_phases cfg env Hcfg) as (s1 & s2 & s3 & E1 & _ & _ & A2 & E3 & _ & Erun).
  eexists. split; [exact Erun|].
  assert (A1 : analysis_results s1 = []).
  { destruct (collect_all_data_steps cfg env Hcfg)
      as (a1 & a2 & a3 & a4 & a5 & F1 & F2 & F3 & F4 & F5 & F).
    rewrite F in E1. injection E1 as <-.
    destruct (collect_source_inv cfg _ _ _ _ _ _ _ F1) as (R1 & _).
    destruct (collect_source_inv cfg _ _ _ _ _ _ _ F2) as (R2 & _).
    destruct (collect_source_inv cfg _ _ _ _ _ _ _ F3) as (R3 & _).
    destruct (collect_source_inv cfg _ _ _ _ _ _ _ F4) as (R4 & _).
    destruct (collect_source_inv cfg _ _ _ _ _ _ _ F5) as (R5 & _).
    rewrite R5, R4, R3, R2, R1. reflexivity. }
  assert (H3 : forall k, k = "risk_scores" \/ k = "composite_analysis" ->
                         get_col k (analysis_results s3) = None).
  { intros k Hk. unfold analyze_social_isolation in E3. rewrite Hrisk in E3.
    rewrite A1 in A2.
    destruct (negb (acs_data_empty s2) && isolation_analyzer env).
    - injection E3 as <-.
      destruct (housing_indicators env); [|now rewrite A2; destruct Hk as [->| ->]].
      destruct (isolation_indicators env).
      + destruct (risk_scores env); [discriminate|]. simpl. rewrite A2.
        destruct Hk as [->| ->]; reflexivity.
      + simpl. rewrite A2. destruct Hk as [->| ->]; reflexivity.
    - injection E3 as <-. rewrite A2. destruct Hk as [->| ->]; reflexivity. }
  unfold create_results_summary. simpl.
  rewrite !get_col_map_values, !report_step_other by discriminate.
  rewrite !H3 by auto. auto.
Qed.

Lemma risk_scoring_failure_skips_composite_witness :
  exists summary,
    run_comprehensive_analysis default_config benign = Returns summary
    /\ get_col "risk_scores" (analysis_summary summary) = None
    /\ get_col "composite_analysis" (analysis_summary summary) = None.
Proof.
  apply (risk_scoring_failure_skips_composite default_config benign).
  - intros k Hk. simpl in Hk.
    repeat (destruct Hk as [<-|Hk]; [eexists; reflexivity|]). contradiction.
  - reflexivity.
  - reflexivity.
Defined.

Lemma cleaned_has_no_crime_key (datasets : table data_frame) :
  has_col "Crime" (shapes (filter_and_clean_data datasets)) = false.
Proof.
  unfold has_col, shapes. rewrite get_col_map_values.
  destruct (get_col "Crime" (filter_and_clean_data datasets)) as [df|] eqn:E; auto.
  apply cleaned_entry in E. destruct E as [[E _]|[[E _]|[E _]]]; discriminate.
Qed.

(** X29. The framework looks for the crime extract under the key ['Crime'],
    while the municipal cleaner stores it under ['crime']: fed with the
    cleaner's datasets, an enabled crime analysis never calls the crime
    analyzer, and the collection summary records [crime_analysis] as not
    collected with zero records, whatever that analyzer would return. *)
Theorem cleaned_crime_data_is_not_analyzed (cfg : config) (env : collaborators)
        (datasets : table data_frame) :
  switches_present cfg ->
  lookup cfg "data_sources" "crime_analysis" = Returns true ->
  collect_municipal env = Returns (shapes (filter_and_clean_data datasets)) ->
  exists summary,
    run_comprehensive_analysis cfg env = Returns summary
    /\ get_col "crime_analysis" (data_collection_summary summary) = Some (false, 0).
Proof.
  intros Hcfg Hon Hmun.
  destruct (run_phases cfg env Hcfg) as (s & s2 & s3 & E & _ & _ & _ & _ & C3 & Erun).
  eexists. split; [exact Erun|].
  destruct (collect_all_data_steps cfg env Hcfg)
    as (s1 & a2 & a3 & s4 & s5 & E1 & E2 & E3 & E4 & E5 & E').
  rewrite E' in E. injection E as <-.
  destruct (collect_source_inv cfg _ _ _ _ _ _ _ E1) as (_ & _ & K1 & _).
  destruct (collect_source_inv cfg _ _ _ _ _ _ _ E2) as (_ & _ & _ & M2).
  destruct (collect_source_inv cfg _ _ _ _ _ _ _ E3) as (_ & _ & K3 & _).
  destruct (collect_source_inv cfg _ _ _ _ _ _ _ E4) as (_ & _ & K4 & _).
  destruct (collect_source_inv cfg _ _ _ _ _ _ _ E5) as (_ & _ & _ & M5).
  assert (Hno : has_crime_data s4 = false).
  { unfold has_crime_data. rewrite K4, K3 by discriminate.
    destruct M2 as [->|(_ & v & -> & Hv)].
    - rewrite K1 by discriminate. reflexivity.
    - simpl. rewrite get_col_set_same.
      destruct Hv as [->|[_ Hv]]; [reflexivity|].
      unfold attempt_municipal in Hv. rewrite Hmun in Hv. simpl in Hv.
      injection Hv as <-. apply cleaned_has_no_crime_key. }
  assert (Hc : get_col "crime_analysis" (collected_data s5) = Some empty_frame).
  { destruct M5 as [->|(_ & v & -> & Hv)].
    - unfold collect_source in E5. rewrite Hon in E5. simpl in E5.
      destruct (crime_analyzer env); simpl in E5.
      + unfold attempt_crime in E5. rewrite Hno in E5. injection E5 as E5.
        rewrite <- E5 at 1. simpl. apply get_col_set_same.
      + injection E5 as E5. rewrite <- E5 at 1. simpl. apply get_col_set_same.
    - simpl. rewrite get_col_set_same. destruct Hv as [->|[_ Hv]]; auto.
      unfold attempt_crime in Hv. rewrite Hno in Hv. now injection Hv as <-. }
  unfold create_results_summary. simpl.
  rewrite get_col_map_values, !report_step_collected, C3, Hc. reflexivity.
Qed.

Lemma cleaned_crime_data_is_not_analyzed_witness :
  exists summary,
    run_comprehensive_analysis default_config cleaned_municipal = Returns summary
    /\ get_col "crime_analysis" (data_collection_summary summary) = Some (false, 0).
Proof.
  apply (cleaned_crime_data_is_not_analyzed default_config cleaned_municipal
           (raw_municipal ++
            [("crime", [("longitude", [Number (Fin (-91))]);
                        ("latitude", [Number (Fin 30)])])])).
  - intros k Hk. simpl in Hk.
    repeat (destruct Hk as [<-|Hk]; [eexists; reflexivity|]). contradiction.
  - reflexivity.
  - reflexivity.
Defined.
